(** * Address book with birthday scheduling: a shallow embedding of [task.py]

    The development follows the layout of the program:
    - the exceptions the program raises and the result type that carries them;
    - the part of Python's [datetime] and [str] that the program calls
      (proleptic Gregorian ordinals, [replace], [timedelta] addition,
      [weekday], [strftime], [strptime], [strip], [isdigit]);
    - the classes [Field], [Name], [Phone], [Birthday], [Record] and
      [AddressBook] with their methods;
    - the properties of those methods.

    Python [int] is [Z]; Python [str] is [string], each character read as
    the code point of the same number (code points 0 to 255). A method that
    may raise returns a [result]; a method that changes its object returns
    the object as it is after the call. [date.today()] is an argument,
    [today], of the one method that reads it. *)

From Stdlib Require Import ZArith Lia List String Ascii Permutation Sorted DecimalString.
From stdpp Require Import base tactics option list.

Local Open Scope string_scope.
Local Open Scope Z_scope.

(** ** Exceptions and results *)

Inductive exn : Type :=
| ValueError (msg : string)
| OverflowError (msg : string).

Inductive result (A : Type) : Type :=
| Ok (a : A)
| Raise (e : exn).

Arguments Ok {A} a.
Arguments Raise {A} e.

#[global] Instance result_ret : MRet result := fun A a => Ok a.
#[global] Instance result_bind : MBind result := fun A B f m =>
  match m with
  | Ok a => f a
  | Raise e => Raise e
  end.

Definition is_Ok {A} (r : result A) : Prop := exists a, r = Ok a.

(** [int] printed in decimal, as [%d] and [%i] do. *)
Definition Z_to_string (z : Z) : string := NilZero.string_of_int (Z.to_int z).

(** ** The [datetime] module *)

Module datetime.

Definition MINYEAR : Z := 1.
Definition MAXYEAR : Z := 9999.
(** [date.max.toordinal()] *)
Definition MAXORDINAL : Z := 3652059.

Record date : Type := mkdate { year : Z; month : Z; day : Z }.

Definition DAYS_IN_MONTH (m : Z) : Z :=
  match m with
  | 1 => 31 | 2 => 28 | 3 => 31 | 4 => 30 | 5 => 31 | 6 => 30
  | 7 => 31 | 8 => 31 | 9 => 30 | 10 => 31 | 11 => 30 | 12 => 31
  | _ => -1
  end.

Definition DAYS_BEFORE_MONTH (m : Z) : Z :=
  match m with
  | 1 => 0 | 2 => 31 | 3 => 59 | 4 => 90 | 5 => 120 | 6 => 151
  | 7 => 181 | 8 => 212 | 9 => 243 | 10 => 273 | 11 => 304 | 12 => 334
  | _ => -1
  end.

Definition is_leap (y : Z) : bool :=
  (y mod 4 =? 0) && (negb (y mod 100 =? 0) || (y mod 400 =? 0)).

(** The extra day of a leap year. *)
Definition leap_day (y : Z) : Z := if is_leap y then 1 else 0.

Definition days_before_year (y : Z) : Z :=
  let y := y - 1 in
  y * 365 + y / 4 - y / 100 + y / 400.

Definition days_in_month (y m : Z) : Z :=
  if (m =? 2) && is_leap y then 29 else DAYS_IN_MONTH m.

Definition days_before_month (y m : Z) : Z :=
  DAYS_BEFORE_MONTH m + (if (2 <? m) && is_leap y then 1 else 0).

Definition ymd2ord (y m d : Z) : Z :=
  days_before_year y + days_before_month y m + d.

Definition DI400Y : Z := Eval cbv in days_before_year 401.
Definition DI100Y : Z := Eval cbv in days_before_year 101.
Definition DI4Y : Z := Eval cbv in days_before_year 5.

Definition ord2ymd (n : Z) : Z * Z * Z :=
  let n := n - 1 in
  let n400 := n / DI400Y in
  let n := n mod DI400Y in
  let y := n400 * 400 + 1 in
  let n100 := n / DI100Y in
  let n := n mod DI100Y in
  let n4 := n / DI4Y in
  let n := n mod DI4Y in
  let n1 := n / 365 in
  let n := n mod 365 in
  let y := y + n100 * 100 + n4 * 4 + n1 in
  if (n1 =? 4) || (n100 =? 4) then (y - 1, 12, 31)
  else
    let leapyear := (n1 =? 3) && (negb (n4 =? 24) || (n100 =? 3)) in
    let m := Z.shiftr (n + 50) 5 in
    let preceding := DAYS_BEFORE_MONTH m + (if (2 <? m) && leapyear then 1 else 0) in
    if n <? preceding then
      let m := m - 1 in
      let preceding :=
        preceding - (DAYS_IN_MONTH m + (if (m =? 2) && leapyear then 1 else 0)) in
      (y, m, n - preceding + 1)
    else (y, m, n - preceding + 1).

(** The check every [date] passes when it is built. *)
Definition date_new (y m d : Z) : result date :=
  if negb ((MINYEAR <=? y) && (y <=? MAXYEAR)) then
    Raise (ValueError ("year " ++ Z_to_string y ++ " is out of range")%string)
  else if negb ((1 <=? m) && (m <=? 12)) then
    Raise (ValueError "month must be in 1..12")
  else if negb ((1 <=? d) && (d <=? days_in_month y m)) then
    Raise (ValueError "day is out of range for month")
  else Ok (mkdate y m d).

(** The dates a [date] object can hold. *)
Definition valid_date (d : date) : Prop :=
  MINYEAR <= year d <= MAXYEAR /\ 1 <= month d <= 12 /\
  1 <= day d <= days_in_month (year d) (month d).

(** [d.replace(year=y)] *)
Definition replace_year (d : date) (y : Z) : result date :=
  date_new y (month d) (day d).

Definition toordinal (d : date) : Z := ymd2ord (year d) (month d) (day d).

Definition fromordinal (n : Z) : date :=
  let '(y, m, d) := ord2ymd n in mkdate y m d.

(** [d.weekday()]: Monday is 0, Saturday 5, Sunday 6. *)
Definition weekday (d : date) : Z := (toordinal d + 6) mod 7.

(** Comparison of dates is the comparison of [(year, month, day)]. *)
Definition date_compare (a b : date) : comparison :=
  match year a ?= year b with
  | Eq => match month a ?= month b with
          | Eq => day a ?= day b
          | c => c
          end
  | c => c
  end.

Definition date_ltb (a b : date) : bool :=
  match date_compare a b with Lt => true | _ => false end.

Definition date_leb (a b : date) : bool :=
  match date_compare a b with Gt => false | _ => true end.

(** [timedelta(days=n)]; the program builds no other kind. *)
Record timedelta : Type := mktimedelta { days : Z }.

Definition timedelta_new (n : Z) : result timedelta :=
  if 999999999 <? Z.abs n then
    Raise (OverflowError
             ("days=" ++ Z_to_string n ++ "; must have magnitude <= 999999999")%string)
  else Ok (mktimedelta n).

(** [d + td] *)
Definition date_add (d : date) (td : timedelta) : result date :=
  let o := toordinal d + days td in
  if (0 <? o) && (o <=? MAXORDINAL) then Ok (fromordinal o)
  else Raise (OverflowError "date value out of range").

End datetime.

Import datetime.

(** ** The [str] methods the program calls *)

Module pystr.

Definition code (c : ascii) : Z := Z.of_N (N_of_ascii c).

(** [c.isspace()] on code points 0 to 255: TAB to CR, FS to US and the
    space, NEL and the no-break space. *)
Definition isspace_char (c : ascii) : bool :=
  let n := code c in
  ((9 <=? n) && (n <=? 13)) || ((28 <=? n) && (n <=? 32)) ||
  (n =? 133) || (n =? 160).

(** The decimal digits, which the regular expression [\d] matches. *)
Definition isdecimal_char (c : ascii) : bool :=
  let n := code c in (48 <=? n) && (n <=? 57).

(** [c.isdigit()] on code points 0 to 255: the decimal digits and the
    superscript digits two, three and one. *)
Definition isdigit_char (c : ascii) : bool :=
  let n := code c in
  isdecimal_char c || (n =? 178) || (n =? 179) || (n =? 185).

Fixpoint lstrip (s : string) : string :=
  match s with
  | EmptyString => EmptyString
  | String c s' => if isspace_char c then lstrip s' else s
  end.

Fixpoint rstrip (s : string) : string :=
  match s with
  | EmptyString => EmptyString
  | String c s' =>
      match rstrip s' with
      | EmptyString => if isspace_char c then EmptyString else String c EmptyString
      | r => String c r
      end
  end.

(** [s.strip()] *)
Definition strip (s : string) : string := rstrip (lstrip s).

Fixpoint all_chars (p : ascii -> bool) (s : string) : bool :=
  match s with
  | EmptyString => true
  | String c s' => p c && all_chars p s'
  end.

(** [s.isdigit()]: every character is a digit and there is at least one. *)
Definition isdigit (s : string) : bool :=
  match s with
  | EmptyString => false
  | _ => all_chars isdigit_char s
  end.

(** [len(s)] *)
Definition len (s : string) : Z := Z.of_nat (String.length s).

(** [sep.join(l)] *)
Definition join (sep : string) (l : list string) : string := String.concat sep l.

(** The character of a digit [0..9]. *)
Definition digit_char (n : Z) : ascii := ascii_of_N (Z.to_N (48 + n)).

(** [int(c)] for a decimal digit. *)
Definition digit_val (c : ascii) : Z := code c - 48.

(** [%02d] and [%04d] *)
Definition pad2 (n : Z) : string :=
  String (digit_char (n / 10 mod 10)) (String (digit_char (n mod 10)) EmptyString).

Definition pad4 (n : Z) : string :=
  String (digit_char (n / 1000 mod 10))
    (String (digit_char (n / 100 mod 10)) (pad2 n)).

End pystr.

Import pystr.

(** ** Formatting and parsing of dates *)

Module datefmt.

(** One directive of [strftime]. The program uses [%Y], [%m] and [%d];
    they are zero-padded to 4, 2 and 2 digits (for the years before 1000
    see [year_text] below). *)
Definition directive (c : ascii) (d : date) : string :=
  if Ascii.eqb c "Y" then pad4 (year d)
  else if Ascii.eqb c "m" then pad2 (month d)
  else if Ascii.eqb c "d" then pad2 (day d)
  else if Ascii.eqb c "%" then "%"
  else String "%" (String c EmptyString).

(** [d.strftime(fmt)] *)
Fixpoint strftime (d : date) (fmt : string) : string :=
  match fmt with
  | EmptyString => EmptyString
  | String c r =>
      if Ascii.eqb c "%" then
        match r with
        | String k r' => (directive k d ++ strftime d r')%string
        | EmptyString => String c EmptyString
        end
      else String c (strftime d r)
  end.

(** [strftime] hands the format to the C library, and the C library writes
    the year of [%Y] as a plain decimal number: four digits from the year
    1000 on, as [directive] has them, and fewer before (["999"] for the
    year 999, ["5"] for the year 5). [strftime] above is the method on the
    dates from the year 1000 on; [get_upcoming_birthdays] formats dates of
    the current year and later, which the clock has after 1000.
    [libc_strftime] is the method on every date: the birthdays, whose year
    is what the user typed, are formatted with it. *)
Definition year_text (y : Z) : string :=
  if y <? 1000 then Z_to_string y else pad4 y.

Definition libc_directive (c : ascii) (d : date) : string :=
  if Ascii.eqb c "Y" then year_text (year d) else directive c d.

Fixpoint libc_strftime (d : date) (fmt : string) : string :=
  match fmt with
  | EmptyString => EmptyString
  | String c r =>
      if Ascii.eqb c "%" then
        match r with
        | String k r' => (libc_directive k d ++ libc_strftime d r')%string
        | EmptyString => String c EmptyString
        end
      else String c (libc_strftime d r)
  end.

(** [str(d)] is the ISO form. *)
Definition isoformat (d : date) : string :=
  (pad4 (year d) ++ "-" ++ pad2 (month d) ++ "-" ++ pad2 (day d))%string.

Definition between (lo hi c : ascii) : bool :=
  (code lo <=? code c) && (code c <=? code hi).

(** [strptime] turns each directive into a regular expression and matches
    the text against their concatenation. An alternation is tried from
    left to right with backtracking: each function below lists, in that
    order, the value and the rest of the text for every alternative that
    matches at the head of the text. *)

(** [%d] is [3[0-1]|[1-2]\d|0[1-9]|[1-9]| [1-9]]. *)
Definition re_d (s : string) : list (Z * string) :=
  match s with
  | String a (String b r) =>
      (if Ascii.eqb a "3" && between "0" "1" b
       then [(30 + digit_val b, r)] else []) ++
      (if between "1" "2" a && isdecimal_char b
       then [(10 * digit_val a + digit_val b, r)] else []) ++
      (if Ascii.eqb a "0" && between "1" "9" b
       then [(digit_val b, r)] else []) ++
      (if between "1" "9" a then [(digit_val a, String b r)] else []) ++
      (if Ascii.eqb a " " && between "1" "9" b
       then [(digit_val b, r)] else [])
  | String a EmptyString =>
      if between "1" "9" a then [(digit_val a, EmptyString)] else []
  | EmptyString => []
  end.

(** [%m] is [1[0-2]|0[1-9]|[1-9]]. *)
Definition re_m (s : string) : list (Z * string) :=
  match s with
  | String a (String b r) =>
      (if Ascii.eqb a "1" && between "0" "2" b
       then [(10 + digit_val b, r)] else []) ++
      (if Ascii.eqb a "0" && between "1" "9" b
       then [(digit_val b, r)] else []) ++
      (if between "1" "9" a then [(digit_val a, String b r)] else [])
  | String a EmptyString =>
      if between "1" "9" a then [(digit_val a, EmptyString)] else []
  | EmptyString => []
  end.

(** [%Y] is [\d\d\d\d]. *)
Definition re_Y (s : string) : list (Z * string) :=
  match s with
  | String a (String b (String c (String e r))) =>
      if isdecimal_char a && isdecimal_char b && isdecimal_char c && isdecimal_char e
      then [(1000 * digit_val a + 100 * digit_val b + 10 * digit_val c + digit_val e, r)]
      else []
  | _ => []
  end.

(** The literal [\.] *)
Definition re_dot (s : string) : list string :=
  match s with
  | String a r => if Ascii.eqb a "." then [r] else []
  | EmptyString => []
  end.

(** [%d\.] and [%m\.]: a directive and the dot after it. *)
Definition re_d_dot (s : string) : list (Z * string) :=
  '(d, r1) ← re_d s; r2 ← re_dot r1; [(d, r2)].

Definition re_m_dot (s : string) : list (Z * string) :=
  '(m, r1) ← re_m s; r2 ← re_dot r1; [(m, r2)].

(** The first match of the expression for ["%d.%m.%Y"] at the start of
    the text: day, month, year and the text left over. *)
Definition re_match (s : string) : option (Z * Z * Z * string) :=
  head ('(d, r2) ← re_d_dot s;
        '(m, r4) ← re_m_dot r2;
        '(y, r5) ← re_Y r4;
        [(d, m, y, r5)]).

(** [datetime.strptime(s, "%d.%m.%Y").date()]. Every failure is a
    [ValueError]; the first message leaves out the quoted data string. *)
Definition strptime (s : string) : result date :=
  match re_match s with
  | None => Raise (ValueError "time data does not match format '%d.%m.%Y'")
  | Some (d, m, y, rest) =>
      match rest with
      | EmptyString => date_new y m d
      | _ => Raise (ValueError ("unconverted data remains: " ++ rest)%string)
      end
  end.

End datefmt.

Import datefmt.

(** ** Values handed to the constructors *)

(** The arguments the program passes around are text or [date] objects. *)
Inductive pyvalue : Type :=
| PyStr (s : string)
| PyDate (d : date).

(** [str(value)] *)
Definition py_str (v : pyvalue) : string :=
  match v with
  | PyStr s => s
  | PyDate d => isoformat d
  end.

(** [s == value] for a string [s] *)
Definition str_eq (s : string) (v : pyvalue) : bool :=
  match v with
  | PyStr s' => String.eqb s s'
  | PyDate _ => false
  end.

(** ** Fields *)

Record Field (A : Type) : Type := mkField { value : A }.
Arguments mkField {A} value.
Arguments value {A} f.

Definition Field_str (f : Field string) : string := value f.

Definition Name : Type := Field string.
Definition Phone : Type := Field string.
Definition Birthday : Type := Field date.

Definition Name_init (v : pyvalue) : result Name :=
  match v with
  | PyStr s =>
      match strip s with
      | EmptyString => Raise (ValueError "Name can't be empty.")
      | s' => Ok (mkField s')
      end
  | PyDate _ => Raise (ValueError "Name can't be empty.")
  end.

Definition Phone_init (v : pyvalue) : result Phone :=
  let v := strip (py_str v) in
  if negb (isdigit v) || negb (len v =? 10) then
    Raise (ValueError "Phone must contain exactly 10 digits.")
  else Ok (mkField v).

(** The [try] block turns every [ValueError] into the one message. *)
Definition Birthday_init (v : pyvalue) : result Birthday :=
  match (match v with
         | PyDate d => Ok d
         | PyStr _ => strptime (strip (py_str v))
         end) with
  | Ok dt => Ok (mkField dt)
  | Raise (ValueError _) => Raise (ValueError "Invalid date format. Use DD.MM.YYYY")
  | Raise e => Raise e
  end.

(** ** Record *)

Module Record.

Record t : Type := mk {
  name : Name;
  phones : list Phone;
  birthday : option Birthday
}.

Definition set_phones (self : t) (ps : list Phone) : t :=
  mk (name self) ps (birthday self).

Definition set_birthday (self : t) (b : option Birthday) : t :=
  mk (name self) (phones self) b.

(** A method returns what the call gives, a value or an exception, and the
    record as it is after the call. *)
Definition method (A : Type) : Type := (result A * t)%type.

Definition init (nm : pyvalue) : result t :=
  n ← Name_init nm; Ok (mk n [] None).

Definition add_phone (self : t) (phone_str : pyvalue) : method unit :=
  match Phone_init phone_str with
  | Ok p => (Ok tt, set_phones self (phones self ++ [p]))
  | Raise e => (Raise e, self)
  end.

(** The loop of [remove_phone] from phone number [i] on; [ps] is the part
    of the list not visited yet. *)
Fixpoint remove_phone_from (self : t) (phone_str : pyvalue) (i : nat)
    (ps : list Phone) : method bool :=
  match ps with
  | [] => (Ok false, self)
  | p :: ps' =>
      if str_eq (value p) phone_str
      then (Ok true, set_phones self (delete i (phones self)))
      else remove_phone_from self phone_str (S i) ps'
  end.

Definition remove_phone (self : t) (phone_str : pyvalue) : method bool :=
  remove_phone_from self phone_str 0 (phones self).

(** The loop of [edit_phone] over [enumerate(self.phones)] from index [i]
    on. The assignment [self.phones[i] = Phone(new_phone)] evaluates
    [Phone(new_phone)] first, so an exception leaves the list as it was. *)
Fixpoint edit_phone_from (self : t) (old_phone new_phone : pyvalue) (i : nat)
    (ps : list Phone) : method bool :=
  match ps with
  | [] => (Ok false, self)
  | p :: ps' =>
      if str_eq (value p) old_phone then
        match Phone_init new_phone with
        | Ok q => (Ok true, set_phones self (<[i:=q]> (phones self)))
        | Raise e => (Raise e, self)
        end
      else edit_phone_from self old_phone new_phone (S i) ps'
  end.

Definition edit_phone (self : t) (old_phone new_phone : pyvalue) : method bool :=
  edit_phone_from self old_phone new_phone 0 (phones self).

Fixpoint find_phone_in (phone_str : pyvalue) (ps : list Phone) : option Phone :=
  match ps with
  | [] => None
  | p :: ps' => if str_eq (value p) phone_str then Some p else find_phone_in phone_str ps'
  end.

Definition find_phone (self : t) (phone_str : pyvalue) : option Phone :=
  find_phone_in phone_str (phones self).

Definition add_birthday (self : t) (bd_str : pyvalue) : method unit :=
  match Birthday_init bd_str with
  | Ok b => (Ok tt, set_birthday self (Some b))
  | Raise e => (Raise e, self)
  end.

(** [__str__] *)
Definition str (self : t) : string :=
  let phones_txt :=
    match phones self with
    | [] => "-"
    | ps => join "; " (map value ps)
    end in
  let bd :=
    match birthday self with
    | Some b => libc_strftime (value b) "%d.%m.%Y"
    | None => "-"
    end in
  ("Contact name: " ++ value (name self) ++ ", phones: " ++ phones_txt ++
   ", birthday: " ++ bd)%string.

End Record.

(** ** The dictionary behind the address book *)

(** A [dict] keeps its entries in the order the keys were first inserted,
    and [values()] walks them in that order: a list of pairs with distinct
    keys. *)
Module pydict.

Section Dict.
Context {V : Type}.

Definition dict : Type := list (string * V).

(** [d.get(k)] *)
Fixpoint get (k : string) (d : dict) : option V :=
  match d with
  | [] => None
  | (k', v) :: d' => if String.eqb k' k then Some v else get k d'
  end.

(** [k in d] *)
Definition contains (k : string) (d : dict) : bool :=
  match get k d with Some _ => true | None => false end.

(** [d[k] = v]: an existing key keeps its place, a new one goes last. *)
Fixpoint set (k : string) (v : V) (d : dict) : dict :=
  match d with
  | [] => [(k, v)]
  | (k', v') :: d' =>
      if String.eqb k' k then (k', v) :: d' else (k', v') :: set k v d'
  end.

(** [del d[k]], which the program runs only when [k in d]. *)
Fixpoint del (k : string) (d : dict) : dict :=
  match d with
  | [] => []
  | (k', v') :: d' => if String.eqb k' k then d' else (k', v') :: del k d'
  end.

Definition keys (d : dict) : list string := map fst d.
Definition values (d : dict) : list V := map snd d.

End Dict.

Arguments dict V : clear implicits.

End pydict.

(** ** AddressBook *)

(** One line of the list [get_upcoming_birthdays] returns: the dictionary
    with the keys ["name"] and ["congratulation_date"]. *)
Record upcoming : Type := mkupcoming {
  upcoming_name : string;
  congratulation_date : string
}.

(** [l.sort(key=...)]: a stable sort that compares keys with [<]. *)
Section Sort.
Context {A : Type} (key : A -> string).

Fixpoint insert_by (x : A) (l : list A) : list A :=
  match l with
  | [] => [x]
  | y :: l' => if String.ltb (key y) (key x) then y :: insert_by x l' else x :: l
  end.

Fixpoint sort_by (l : list A) : list A :=
  match l with
  | [] => []
  | x :: l' => insert_by x (sort_by l')
  end.

End Sort.

(** A [for] loop whose body may raise. *)
Fixpoint for_each {St A : Type} (body : St -> A -> result St) (s : St) (l : list A) :
    result St :=
  match l with
  | [] => Ok s
  | x :: l' => s' ← body s x; for_each body s' l'
  end.

Module AddressBook.

Record t : Type := mk { data : pydict.dict Record.t }.

Definition empty : t := mk [].

Definition add_record (self : t) (record : Record.t) : t :=
  mk (pydict.set (value (Record.name record)) record (data self)).

Definition find (self : t) (name : string) : option Record.t :=
  pydict.get name (data self).

Definition delete (self : t) (name : string) : t :=
  if pydict.contains name (data self) then mk (pydict.del name (data self))
  else self.

(** Lines 98 to 100: the birthday moved to this year, or to the next one
    when that day is already over. *)
Definition candidate_date (today bd : date) : result date :=
  candidate ← replace_year bd (year today);
  if date_ltb candidate today then replace_year bd (year today + 1)
  else Ok candidate.

(** [d + timedelta(days=n)] *)
Definition plus_days (d : date) (n : Z) : result date :=
  td ← timedelta_new n; date_add d td.

(** Lines 103 to 107: a Saturday or Sunday moves to the Monday after. *)
Definition congr_date (candidate : date) : result date :=
  if weekday candidate =? 5 then plus_days candidate 2
  else if weekday candidate =? 6 then plus_days candidate 1
  else Ok candidate.

(** The body of the loop over [self.data.values()]. *)
Definition upcoming_step (today end_day : date) (res : list upcoming)
    (rec : Record.t) : result (list upcoming) :=
  match Record.birthday rec with
  | None => Ok res
  | Some b =>
      let bd := value b in
      candidate ← candidate_date today bd;
      if date_leb today candidate && date_leb candidate end_day then
        cd ← congr_date candidate;
        Ok (res ++ [mkupcoming (value (Record.name rec))
                               (strftime cd "%Y.%m.%d")])%list
      else Ok res
  end.

Definition days_ahead_default : Z := 7.

(** [today] is what [date.today()] returns when the method runs;
    [days_ahead = None] is the call that leaves the argument out. *)
Definition get_upcoming_birthdays (self : t) (today : date)
    (days_ahead : option Z) : result (list upcoming) :=
  let days_ahead := default days_ahead_default days_ahead in
  end_day ← plus_days today days_ahead;
  res ← for_each (upcoming_step today end_day) [] (pydict.values (data self));
  Ok (sort_by congratulation_date res).

End AddressBook.

(** ** The commands *)

Module commands.

(** What the body of a handler can raise: the exceptions above, the
    [AttributeError] of an attribute asked of [None], and the [IndexError]
    the decorator also looks for. *)
Inductive raised : Type :=
| Exn (e : exn)
| AttributeError (msg : string)
| IndexError (msg : string).

Inductive outcome (A : Type) : Type :=
| Return (a : A)
| Raised (r : raised).

Arguments Return {A} a.
Arguments Raised {A} r.

(** [str(e)] *)
Definition exn_str (e : exn) : string :=
  match e with
  | ValueError msg => msg
  | OverflowError msg => msg
  end.

(** The decorator [input_error]: the [except] clauses in their order. *)
Definition input_error (r : outcome string) : string :=
  match r with
  | Return s => s
  | Raised (Exn (ValueError msg)) => ("Value error: " ++ msg)%string
  | Raised (AttributeError _) => "This contact does not exist."
  | Raised (IndexError _) => "Not enough arguments."
  | Raised (Exn e) => ("Error: " ++ exn_str e)%string
  end.

(** A handler gives what its body returns or raises and the book as it is
    after the call; decorated, it gives the text to print. *)
Definition body : Type := list string -> AddressBook.t -> outcome string * AddressBook.t.

Definition decorated (f : body) (args : list string) (book : AddressBook.t) :
    string * AddressBook.t :=
  let '(r, book') := f args book in (input_error r, book').

(** The [ValueError] of [a, b, *_ = args] when [args] is too short. *)
Definition too_few (need : Z) (args : list string) : raised :=
  Exn (ValueError
         ("not enough values to unpack (expected at least " ++ Z_to_string need ++
          ", got " ++ Z_to_string (Z.of_nat (length args)) ++ ")")%string).

Definition none_has_no (attr : string) : raised :=
  AttributeError ("'NoneType' object has no attribute '" ++ attr ++ "'")%string.

(** [if s:] for a string *)
Definition truthy (s : string) : bool :=
  match s with
  | EmptyString => false
  | _ => true
  end.

(** The record a handler holds is the object the book holds under [key]:
    what a method does to it is there, in the place it had. No record is
    held under two keys, each handler files the records it makes once. *)
Definition store (book : AddressBook.t) (key : string) (record : Record.t) :
    AddressBook.t :=
  AddressBook.mk (pydict.set key record (AddressBook.data book)).

(** [record.add_phone(phone)] on the record under [key], when [phone] is
    not empty, and then [return msg]. *)
Definition add_phone_and_return (book : AddressBook.t) (key : string)
    (record : Record.t) (phone msg : string) : outcome string * AddressBook.t :=
  if truthy phone then
    match Record.add_phone record (PyStr phone) with
    | (Ok _, record') => (Return msg, store book key record')
    | (Raise e, record') => (Raised (Exn e), store book key record')
    end
  else (Return msg, book).

Definition add_contact_body : body := fun args book =>
  match args with
  | name :: phone :: _ =>
      match AddressBook.find book name with
      | Some record => add_phone_and_return book name record phone "Contact updated."
      | None =>
          match Record.init (PyStr name) with
          | Raise e => (Raised (Exn e), book)
          | Ok record =>
              add_phone_and_return (AddressBook.add_record book record)
                (value (Record.name record)) record phone "Contact added."
          end
      end
  | _ => (Raised (too_few 2 args), book)
  end.

Definition add_contact : list string -> AddressBook.t -> string * AddressBook.t :=
  decorated add_contact_body.

Definition change_contact_body : body := fun args book =>
  match args with
  | name :: old_phone :: new_phone :: _ =>
      match AddressBook.find book name with
      | None => (Raised (none_has_no "edit_phone"), book)
      | Some rec =>
          match Record.edit_phone rec (PyStr old_phone) (PyStr new_phone) with
          | (Ok true, rec') => (Return "Phone updated.", store book name rec')
          | (Ok false, rec') => (Return "Old phone not found.", store book name rec')
          | (Raise e, rec') => (Raised (Exn e), store book name rec')
          end
      end
  | _ => (Raised (too_few 3 args), book)
  end.

Definition change_contact : list string -> AddressBook.t -> string * AddressBook.t :=
  decorated change_contact_body.

Definition show_phone_body : body := fun args book =>
  match args with
  | name :: _ =>
      match AddressBook.find book name with
      | None => (Raised (none_has_no "phones"), book)
      | Some rec =>
          match Record.phones rec with
          | [] => (Return "No phones.", book)
          | ps => (Return (join "; " (map value ps)), book)
          end
      end
  | _ => (Raised (too_few 1 args), book)
  end.

Definition show_phone : list string -> AddressBook.t -> string * AddressBook.t :=
  decorated show_phone_body.

(** The line feed. *)
Definition nl : string := String (ascii_of_nat 10) EmptyString.

Definition show_all_body : body := fun args book =>
  match AddressBook.data book with
  | [] => (Return "No contacts.", book)
  | d => (Return (join nl (map Record.str (pydict.values d))), book)
  end.

Definition show_all : list string -> AddressBook.t -> string * AddressBook.t :=
  decorated show_all_body.

(** [rec.add_birthday(bd_str)] on the record under [key], and then
    [return prefix + "Birthday added."]. *)
Definition add_birthday_and_return (book : AddressBook.t) (key : string)
    (rec : Record.t) (bd_str prefix : string) : outcome string * AddressBook.t :=
  match Record.add_birthday rec (PyStr bd_str) with
  | (Ok _, rec') => (Return (prefix ++ "Birthday added.")%string, store book key rec')
  | (Raise e, rec') => (Raised (Exn e), store book key rec')
  end.

Definition add_birthday_body : body := fun args book =>
  match args with
  | name :: bd_str :: _ =>
      match AddressBook.find book name with
      | None =>
          match Record.init (PyStr name) with
          | Raise e => (Raised (Exn e), book)
          | Ok rec =>
              add_birthday_and_return (AddressBook.add_record book rec)
                (value (Record.name rec)) rec bd_str "Contact created. "
          end
      | Some rec => add_birthday_and_return book name rec bd_str ""
      end
  | _ => (Raised (too_few 2 args), book)
  end.

Definition add_birthday : list string -> AddressBook.t -> string * AddressBook.t :=
  decorated add_birthday_body.

Definition show_birthday_body : body := fun args book =>
  match args with
  | name :: _ =>
      match AddressBook.find book name with
      | None => (Raised (none_has_no "birthday"), book)
      | Some rec =>
          match Record.birthday rec with
          | Some b => (Return (libc_strftime (value b) "%d.%m.%Y"), book)
          | None => (Return "No birthday set.", book)
          end
      end
  | _ => (Raised (too_few 1 args), book)
  end.

Definition show_birthday : list string -> AddressBook.t -> string * AddressBook.t :=
  decorated show_birthday_body.

(** [grouped.setdefault(item["congratulation_date"], []).append(item["name"])] *)
Definition group_add (grouped : pydict.dict (list string)) (item : upcoming) :
    pydict.dict (list string) :=
  match pydict.get (congratulation_date item) grouped with
  | Some names =>
      pydict.set (congratulation_date item) (names ++ [upcoming_name item])%list
        grouped
  | None => pydict.set (congratulation_date item) [upcoming_name item] grouped
  end.

Definition group (l : list upcoming) : pydict.dict (list string) :=
  fold_left group_add l [].

Definition group_line (entry : string * list string) : string :=
  (fst entry ++ ": " ++ join ", " (snd entry))%string.

(** [today] is what [date.today()] returns inside
    [get_upcoming_birthdays]. *)
Definition birthdays_body (today : date) : body := fun args book =>
  match AddressBook.get_upcoming_birthdays book today (Some 7) with
  | Raise e => (Raised (Exn e), book)
  | Ok [] => (Return "No birthdays in the next 7 days.", book)
  | Ok l => (Return (join nl (map group_line (group l))), book)
  end.

Definition birthdays (today : date) :
    list string -> AddressBook.t -> string * AddressBook.t :=
  decorated (birthdays_body today).

(** [s.split()]: the runs of characters that are not white space. [cur]
    is the run being read. *)
Fixpoint split_from (cur s : string) : list string :=
  match s with
  | EmptyString =>
      match cur with
      | EmptyString => []
      | _ => [cur]
      end
  | String c s' =>
      if isspace_char c then
        match cur with
        | EmptyString => split_from EmptyString s'
        | _ => cur :: split_from EmptyString s'
        end
      else split_from (cur ++ String c EmptyString) s'
  end.

Definition split (s : string) : list string := split_from EmptyString s.

(** [s.split(maxsplit=1)]: the first run, and what follows the white
    space after it, when something does. *)
Fixpoint split1_from (cur s : string) : list string :=
  match s with
  | EmptyString =>
      match cur with
      | EmptyString => []
      | _ => [cur]
      end
  | String c s' =>
      if isspace_char c then
        match cur with
        | EmptyString => split1_from EmptyString s'
        | _ =>
            cur :: match lstrip s' with
                   | EmptyString => []
                   | rest => [rest]
                   end
        end
      else split1_from (cur ++ String c EmptyString) s'
  end.

Definition split1 (s : string) : list string := split1_from EmptyString s.

(** What the loop of [main] does to the world: it prints a line, and it
    hands the book to [save_data]. *)
Inductive event : Type :=
| Printed (line : string)
| Saved (book : AddressBook.t).

(** One turn of the loop of [main] on the line [input] returned: what
    happened, the book after it, and whether the loop goes on. The
    unpacking of the command is outside every handler: its [ValueError]
    leaves [main]. *)
Definition main_step (today : date) (book : AddressBook.t) (user_input : string) :
    result (list event * AddressBook.t * bool) :=
  match split1 (strip user_input) with
  | [] => Raise (ValueError "not enough values to unpack (expected at least 1, got 0)")
  | command :: args =>
      let args :=
        match args with
        | a :: _ => split a
        | [] => []
        end in
      let answer (r : string * AddressBook.t) :=
        Ok ([Printed (fst r)], snd r, true) in
      if String.eqb command "close" || String.eqb command "exit" then
        Ok ([Saved book; Printed "Data saved. Good bye!"], book, false)
      else if String.eqb command "hello" then
        Ok ([Printed "How can I help you?"], book, true)
      else if String.eqb command "add" then answer (add_contact args book)
      else if String.eqb command "change" then answer (change_contact args book)
      else if String.eqb command "phone" then answer (show_phone args book)
      else if String.eqb command "all" then answer (show_all args book)
      else if String.eqb command "add-birthday" then answer (add_birthday args book)
      else if String.eqb command "show-birthday" then answer (show_birthday args book)
      else if String.eqb command "birthdays" then answer (birthdays today args book)
      else Ok ([Printed "Invalid command."], book, true)
  end.

(** How a run of the loop ends: by [close] or [exit], by an exception, or
    with no line left to read. *)
Inductive ending : Type :=
| Closed
| Crashed (e : exn)
| NoMoreInput.

(** The loop of [main] over the lines typed, from the book [load_data]
    gave. *)
Fixpoint main_loop (today : date) (book : AddressBook.t) (inputs : list string) :
    list event * AddressBook.t * ending :=
  match inputs with
  | [] => ([], book, NoMoreInput)
  | user_input :: inputs' =>
      match main_step today book user_input with
      | Raise e => ([], book, Crashed e)
      | Ok (events, book', true) =>
          let '(events', book'', e) := main_loop today book' inputs' in
          ((events ++ events')%list, book'', e)
      | Ok (events, book', false) => (events, book', Closed)
      end
  end.

End commands.

(** * The vocabulary of the properties *)

(** The window test of line 102. *)
Definition in_window (today end_day c : date) : bool :=
  date_leb today c && date_leb c end_day.

(** The days a congratulation moves: two from a Saturday, one from a
    Sunday, none from another day. *)
Definition weekend_shift (c : date) : Z :=
  if weekday c =? 5 then 2 else if weekday c =? 6 then 1 else 0.

(** The line a record puts on the list, if it puts one. *)
Definition line_of (today end_day : date) (rec : Record.t) (u : upcoming) : Prop :=
  exists b c cd,
    Record.birthday rec = Some b /\
    AddressBook.candidate_date today (value b) = Ok c /\
    in_window today end_day c = true /\
    AddressBook.congr_date c = Ok cd /\
    u = mkupcoming (value (Record.name rec)) (strftime cd "%Y.%m.%d").

(** The [days_ahead] a call runs with. *)
Definition days_of (days_ahead : option Z) : Z :=
  match days_ahead with
  | Some n => n
  | None => 7
  end.

(** The keys of a dictionary are distinct, and the address book files
    each record under its name. *)
Definition keys_distinct (book : AddressBook.t) : Prop :=
  List.NoDup (pydict.keys (AddressBook.data book)).

Definition keys_are_names (book : AddressBook.t) : Prop :=
  forall k r, In (k, r) (AddressBook.data book) -> k = value (Record.name r).

Definition book_invariant (book : AddressBook.t) : Prop :=
  keys_distinct book /\ keys_are_names book.

(** No two records of the book carry the same name. *)
Definition names_distinct (book : AddressBook.t) : Prop :=
  List.NoDup (map (fun r => value (Record.name r))
                (pydict.values (AddressBook.data book))).

(** The operations that change or read the collection, and a run of
    them. [find] returns a record and leaves the book as it is. *)
Inductive op : Type :=
| AddRecord (record : Record.t)
| Find (name : string)
| Delete (name : string).

Definition run_op (book : AddressBook.t) (o : op) : AddressBook.t :=
  match o with
  | AddRecord record => AddressBook.add_record book record
  | Find _ => book
  | Delete name => AddressBook.delete book name
  end.

Definition run_ops (book : AddressBook.t) (ops : list op) : AddressBook.t :=
  fold_left run_op ops book.

(** The names on a list of upcoming birthdays. *)
Definition names_of (l : list upcoming) : list string := map upcoming_name l.

(** Two list elements in the order of their keys, as strings compare. *)
Definition key_le {A : Type} (key : A -> string) (x y : A) : Prop :=
  String.leb (key x) (key y) = true.

(** A string of exactly ten decimal digits. *)
Definition ten_decimal_digits (s : string) : Prop :=
  String.length s = 10%nat /\ all_chars isdecimal_char s = true.

(** A string of white space only. *)
Definition all_whitespace (s : string) : Prop := all_chars isspace_char s = true.

(** Phone number [i] is the first whose value equals [old]. *)
Definition first_match (old : pyvalue) (ps : list Phone) (i : nat) : Prop :=
  (exists p, ps !! i = Some p /\ str_eq (value p) old = true) /\
  forall j q, (j < i)%nat -> ps !! j = Some q -> str_eq (value q) old = false.

(** No phone number has the value [old]. *)
Definition no_match (old : pyvalue) (ps : list Phone) : Prop :=
  forall p, In p ps -> str_eq (value p) old = false.

(** The text of a list of digits. *)
Definition digits (l : list Z) : string :=
  fold_right (fun n s => String (digit_char n) s) EmptyString l.

(** The text [t] has the form [DD.MM.YYYY], two digits, a dot, two digits,
    a dot and four digits, and its numbers are those of [dt]. *)
Definition DDMMYYYY_text (t : string) (dt : date) : Prop :=
  exists d1 d2 m1 m2 y1 y2 y3 y4,
    Forall (fun n => 0 <= n <= 9) [d1; d2; m1; m2; y1; y2; y3; y4] /\
    t = (digits [d1; d2] ++ "." ++ digits [m1; m2] ++ "." ++
         digits [y1; y2; y3; y4])%string /\
    day dt = 10 * d1 + d2 /\
    month dt = 10 * m1 + m2 /\
    year dt = 1000 * y1 + 100 * y2 + 10 * y3 + y4.

(** ** Sample data *)

Definition one_phone : Record.t :=
  Record.mk (mkField "A") [mkField "1234567890"] None.

Definition two_phones : Record.t :=
  Record.mk (mkField "A") [mkField "1234567890"; mkField "5555555555"] None.

Definition contact (nm : string) (bd : option date) : Record.t :=
  Record.mk (mkField nm) [] (option_map mkField bd).

Definition book_of (l : list Record.t) : AddressBook.t :=
  fold_left AddressBook.add_record l AddressBook.empty.

(** Monday 10 June 2024, with birthdays on Saturday 15 June, on 20 June
    and on 9 June, and a contact with no birthday. *)
Definition june_today : date := mkdate 2024 6 10.

Definition june_book : AddressBook.t :=
  book_of [contact "A" (Some (mkdate 1990 6 15));
           contact "B" (Some (mkdate 1991 6 20));
           contact "C" (Some (mkdate 1992 6 9));
           contact "D" None].

Definition june_result : list upcoming := [mkupcoming "A" "2024.06.17"].

(** The same Monday with three birthdays inside the week: the list comes
    back in the order of the congratulation dates, not of the book. *)
Definition week_book : AddressBook.t :=
  book_of [contact "E" (Some (mkdate 2000 6 17));
           contact "A" (Some (mkdate 1990 6 15));
           contact "D" (Some (mkdate 2000 6 10))].

Definition week_result : list upcoming :=
  [mkupcoming "D" "2024.06.10"; mkupcoming "E" "2024.06.17";
   mkupcoming "A" "2024.06.17"].

(** Saturday 8 June 2024: the window of seven days ends on Saturday
    15 June. *)
Definition saturday_today : date := mkdate 2024 6 8.
Definition saturday_end : date := mkdate 2024 6 15.

Definition saturday_book : AddressBook.t :=
  book_of [contact "A" (Some (mkdate 1990 6 15))].

(** 28 December 2024 with a birthday on 2 January: the window runs into
    the next year. *)
Definition december_today : date := mkdate 2024 12 28.

Definition january_book : AddressBook.t :=
  book_of [contact "J" (Some (mkdate 1985 1 2))].

(** A run of the operations on the empty book. *)
Definition sample_run : AddressBook.t :=
  run_ops AddressBook.empty
    [AddRecord (contact "A" None); AddRecord (contact "B" None); Find "A";
     AddRecord (contact "A" (Some (mkdate 1990 6 15))); Delete "B";
     Delete "Z"].

(** The book of June without the contact B. *)
Definition june_book_less_B : AddressBook.t := AddressBook.delete june_book "B".

(** A birthday on 29 February, asked about on 1 March 2023. *)
Definition leap_book : AddressBook.t :=
  book_of [contact "A" (Some (mkdate 1990 6 15));
           contact "L" (Some (mkdate 2000 2 29))].

Definition march_today : date := mkdate 2023 3 1.

(** ** Vocabulary of the further properties *)

(** A phone as the constructor leaves it: ten characters, all digits for
    [isdigit], nothing to strip. *)
Definition valid_phone (p : Phone) : Prop :=
  String.length (value p) = 10%nat /\
  all_chars isdigit_char (value p) = true /\
  strip (value p) = value p.

(** The calls on a record, and a run of them; the value a call returns
    is dropped, the record after it is kept. *)
Inductive rec_op : Type :=
| AddPhone (phone_str : pyvalue)
| RemovePhone (phone_str : pyvalue)
| EditPhone (old_phone new_phone : pyvalue)
| FindPhone (phone_str : pyvalue)
| AddBirthday (bd_str : pyvalue).

Definition run_rec_op (self : Record.t) (o : rec_op) : Record.t :=
  match o with
  | AddPhone v => snd (Record.add_phone self v)
  | RemovePhone v => snd (Record.remove_phone self v)
  | EditPhone old new => snd (Record.edit_phone self old new)
  | FindPhone _ => self
  | AddBirthday v => snd (Record.add_birthday self v)
  end.

Definition run_rec_ops (self : Record.t) (ops : list rec_op) : Record.t :=
  fold_left run_rec_op ops self.

(** The names on the lines of one date, in the order of the list. *)
Definition names_on (d : string) (l : list upcoming) : list string :=
  map upcoming_name
    (List.filter (fun u => String.eqb (congratulation_date u) d) l).

(** Two sessions at the keyboard: one with a blank line in it, one that
    ends with [exit]. *)
Definition lost_session : list string := ["add Bob 1234567890"; "   "; "close"].

Definition kept_session : list string :=
  ["add Bob 1234567890"; "add-birthday Bob 15.06.1990"; "bogus"; "exit"; "all"].

(** A book with Bob, who has one phone and a birthday, and Al, who has
    neither. *)
Definition bob : Record.t :=
  Record.mk (mkField "Bob") [mkField "1234567890"]
    (Some (mkField (mkdate 1990 6 15))).

Definition small_book : AddressBook.t := book_of [bob; contact "Al" None].

(** A run of calls on a new record. *)
Definition sample_calls : list rec_op :=
  [AddPhone (PyStr "1234567890"); AddPhone (PyStr "12");
   AddPhone (PyStr " 5555555555 "); EditPhone (PyStr "1234567890") (PyStr "0987654321");
   AddBirthday (PyStr "15.06.1990"); RemovePhone (PyStr "5555555555");
   FindPhone (PyStr "0987654321")].

(** A record with the phone 5555555555 twice. *)
Definition double_phone : Record.t :=
  Record.mk (mkField "A")
    [mkField "1234567890"; mkField "5555555555"; mkField "5555555555"] None.

(** Ten characters, each a digit for [isdigit] and not all of them
    decimal: ten digits with a superscript digit among them. *)
Definition ten_digits_not_all_decimal (s : string) : Prop :=
  String.length s = 10%nat /\ all_chars isdigit_char s = true /\
  all_chars isdecimal_char s = false.

(** A birthday in the year 999, as it is typed, and a contact born then. *)
Definition early_text : string := "01.01.0999".

Definition early_date : date := mkdate 999 1 1.

Definition early_contact : Record.t := contact "Al" (Some early_date).

(** * Properties *)

(** ** Calendar arithmetic *)

Lemma days_before_year_succ y :
  days_before_year (y + 1) = days_before_year y + 365 + leap_day y.
Proof.
  unfold days_before_year, leap_day, is_leap.
  replace (y + 1 - 1) with y by lia.
  destruct (Z.eqb_spec (y mod 4) 0), (Z.eqb_spec (y mod 100) 0),
    (Z.eqb_spec (y mod 400) 0); simpl; Z.div_mod_to_equations; lia.
Qed.

Lemma days_before_year_mono y1 y2 :
  y1 < y2 -> days_before_year y1 + 365 + leap_day y1 <= days_before_year y2.
Proof.
  intros H. replace y2 with (y1 + 1 + Z.of_nat (Z.to_nat (y2 - y1 - 1))) by lia.
  induction (Z.to_nat (y2 - y1 - 1)) as [|k IH].
  - rewrite Z.add_0_r, days_before_year_succ. lia.
  - replace (y1 + 1 + Z.of_nat (S k)) with (y1 + 1 + Z.of_nat k + 1) by lia.
    rewrite days_before_year_succ.
    assert (0 <= leap_day (y1 + 1 + Z.of_nat k)) by (unfold leap_day; destruct (is_leap _); lia).
    lia.
Qed.

Lemma month_cases m : 1 <= m <= 12 ->
  m = 1 \/ m = 2 \/ m = 3 \/ m = 4 \/ m = 5 \/ m = 6 \/
  m = 7 \/ m = 8 \/ m = 9 \/ m = 10 \/ m = 11 \/ m = 12.
Proof. lia. Qed.

Ltac each_month H :=
  apply month_cases in H;
  repeat (destruct H as [H | H]); subst.

Lemma days_in_month_bounds y m : 1 <= m <= 12 -> 28 <= days_in_month y m <= 31.
Proof.
  intros H. unfold days_in_month. each_month H; destruct (is_leap y); simpl; lia.
Qed.

Lemma days_before_month_succ y m :
  1 <= m <= 11 ->
  days_before_month y (m + 1) = days_before_month y m + days_in_month y m.
Proof.
  intros H. unfold days_before_month, days_in_month.
  assert (H' : 1 <= m <= 12) by lia.
  each_month H'; destruct (is_leap y); simpl; lia.
Qed.

Lemma days_before_month_mono y m1 m2 :
  1 <= m1 -> m1 < m2 -> m2 <= 12 ->
  days_before_month y m1 + days_in_month y m1 <= days_before_month y m2.
Proof.
  intros H1 H H2.
  replace m2 with (m1 + 1 + Z.of_nat (Z.to_nat (m2 - m1 - 1))) in * by lia.
  induction (Z.to_nat (m2 - m1 - 1)) as [|k IH].
  - rewrite Z.add_0_r, days_before_month_succ; lia.
  - replace (m1 + 1 + Z.of_nat (S k)) with (m1 + 1 + Z.of_nat k + 1) in * by lia.
    rewrite days_before_month_succ by lia.
    pose proof (days_in_month_bounds y (m1 + 1 + Z.of_nat k)). lia.
Qed.

Lemma days_before_month_last y :
  days_before_month y 12 + 31 = 365 + leap_day y.
Proof. unfold days_before_month, leap_day. destruct (is_leap y); simpl; lia. Qed.

Lemma days_before_month_nonneg y m : 1 <= m <= 12 -> 0 <= days_before_month y m.
Proof.
  intros H. unfold days_before_month. each_month H; destruct (is_leap y); simpl; lia.
Qed.

(** The day of the year of a valid date lies in the year. *)
Lemma day_of_year_bounds d :
  valid_date d ->
  1 <= days_before_month (year d) (month d) + day d <= 365 + leap_day (year d).
Proof.
  intros (_ & Hm & Hd).
  pose proof (days_before_month_nonneg (year d) (month d) Hm).
  split; [lia|].
  destruct (Z.eq_dec (month d) 12) as [E|E].
  - rewrite <- days_before_month_last. rewrite E in *.
    pose proof (days_in_month_bounds (year d) 12). lia.
  - pose proof (days_before_month_mono (year d) (month d) 12).
    rewrite <- days_before_month_last. lia.
Qed.

Lemma date_compare_toordinal a b :
  valid_date a -> valid_date b ->
  date_compare a b = (toordinal a ?= toordinal b).
Proof.
  intros Ha Hb.
  pose proof (day_of_year_bounds a Ha) as Da.
  pose proof (day_of_year_bounds b Hb) as Db.
  destruct Ha as (_ & Hma & Hda), Hb as (_ & Hmb & Hdb).
  unfold date_compare, toordinal, ymd2ord.
  destruct (Z.compare_spec (year a) (year b)) as [Ey|Ly|Ly].
  - rewrite Ey in *.
    destruct (Z.compare_spec (month a) (month b)) as [Em|Lm|Lm].
    + rewrite Em. destruct (Z.compare_spec (day a) (day b)); symmetry.
      * apply Z.compare_eq_iff. lia.
      * apply Z.compare_lt_iff. lia.
      * apply Z.compare_gt_iff. lia.
    + symmetry. apply Z.compare_lt_iff.
      pose proof (days_before_month_mono (year b) (month a) (month b)). lia.
    + symmetry. apply Z.compare_gt_iff.
      pose proof (days_before_month_mono (year b) (month b) (month a)). lia.
  - symmetry. apply Z.compare_lt_iff.
    pose proof (days_before_year_mono _ _ Ly). lia.
  - symmetry. apply Z.compare_gt_iff.
    pose proof (days_before_year_mono _ _ Ly). lia.
Qed.


Lemma days_before_year_decomp a b c e :
  0 <= b <= 3 -> 0 <= c <= 24 -> 0 <= e <= 3 ->
  days_before_year (400 * a + 100 * b + 4 * c + e + 1) =
  DI400Y * a + DI100Y * b + DI4Y * c + 365 * e.
Proof.
  intros Hb Hc He. unfold days_before_year, DI400Y, DI100Y, DI4Y.
  replace (400 * a + 100 * b + 4 * c + e + 1 - 1)
    with (400 * a + 100 * b + 4 * c + e) by lia.
  assert (E4 : (400 * a + 100 * b + 4 * c + e) / 4 = 100 * a + 25 * b + c)
    by (symmetry; apply (Z.div_unique _ _ _ e); lia).
  assert (E100 : (400 * a + 100 * b + 4 * c + e) / 100 = 4 * a + b)
    by (symmetry; apply (Z.div_unique _ _ _ (4 * c + e)); lia).
  assert (E400 : (400 * a + 100 * b + 4 * c + e) / 400 = a)
    by (symmetry; apply (Z.div_unique _ _ _ (100 * b + 4 * c + e)); lia).
  rewrite E4, E100, E400. lia.
Qed.

Lemma is_leap_decomp a b c e :
  0 <= b <= 3 -> 0 <= c <= 24 -> 0 <= e <= 3 ->
  is_leap (400 * a + 100 * b + 4 * c + e + 1) =
  (e =? 3) && (negb (c =? 24) || (b =? 3)).
Proof.
  intros Hb Hc He. unfold is_leap.
  set (y := 400 * a + 100 * b + 4 * c + e + 1).
  assert (M4 : y mod 4 = (e + 1) mod 4).
  { unfold y. replace (400 * a + 100 * b + 4 * c + e + 1)
      with (e + 1 + (100 * a + 25 * b + c) * 4) by lia.
    apply Z.mod_add. lia. }
  assert (M100 : y mod 100 = (4 * c + e + 1) mod 100).
  { unfold y. replace (400 * a + 100 * b + 4 * c + e + 1)
      with (4 * c + e + 1 + (4 * a + b) * 100) by lia.
    apply Z.mod_add. lia. }
  assert (M400 : y mod 400 = (100 * b + 4 * c + e + 1) mod 400).
  { unfold y. replace (400 * a + 100 * b + 4 * c + e + 1)
      with (100 * b + 4 * c + e + 1 + a * 400) by lia.
    apply Z.mod_add. lia. }
  rewrite M4, M100, M400. clear M4 M100 M400 y.
  destruct (Z.eqb_spec e 3), (Z.eqb_spec c 24), (Z.eqb_spec b 3); subst; simpl;
    repeat match goal with
           | |- context [?x mod ?k =? 0] =>
               destruct (Z.eqb_spec (x mod k) 0)
           end; simpl; try reflexivity; exfalso; Z.div_mod_to_equations; lia.
Qed.

(** The month and the day [ord2ymd] finds from the day of the year. *)
Lemma month_estimate (leapyear : bool) (n : Z) (P : Z -> Z -> Prop) :
  0 <= n < 365 ->
  (forall m d, 1 <= m <= 12 ->
     1 <= d <= DAYS_IN_MONTH m + (if (m =? 2) && leapyear then 1 else 0) ->
     DAYS_BEFORE_MONTH m + (if (2 <? m) && leapyear then 1 else 0) + d = n + 1 ->
     P m d) ->
  let m := Z.shiftr (n + 50) 5 in
  let preceding := DAYS_BEFORE_MONTH m + (if (2 <? m) && leapyear then 1 else 0) in
  if n <? preceding
  then P (m - 1)
         (n - (preceding -
               (DAYS_IN_MONTH (m - 1) + (if (m - 1 =? 2) && leapyear then 1 else 0))) + 1)
  else P m (n - preceding + 1).
Proof.
  intros Hn HP. rewrite Z.shiftr_div_pow2 by lia. change (2 ^ 5) with 32.
  pose proof (Z.div_mod (n + 50) 32 ltac:(lia)) as E.
  pose proof (Z.mod_pos_bound (n + 50) 32 ltac:(lia)) as B.
  set (m := (n + 50) / 32) in *.
  assert (Hm : 1 <= m <= 12) by lia.
  clearbody m. cbv zeta.
  each_month Hm;
    repeat match goal with
           | |- context [Z.pos ?p - 1] =>
               let v := eval vm_compute in (Z.pos p - 1) in
               change (Z.pos p - 1) with v
           end;
    destruct leapyear; cbn -[Z.add Z.sub Z.ltb];
    match goal with
    | |- context [n <? ?k] => destruct (Z.ltb_spec n k)
    end; apply HP; cbn in *; lia.
Qed.

(** [ord2ymd] inverts [ymd2ord] on the ordinals of the dates. *)
Lemma ord2ymd_spec n :
  1 <= n <= MAXORDINAL ->
  valid_date (fromordinal n) /\ toordinal (fromordinal n) = n.
Proof.
  intros Hn. unfold fromordinal, ord2ymd, MAXORDINAL in *.
  assert (D400 : DI400Y = 146097) by reflexivity.
  assert (D100 : DI100Y = 36524) by reflexivity.
  assert (D4 : DI4Y = 1461) by reflexivity.
  pose proof (Z.div_mod (n - 1) DI400Y ltac:(lia)) as E1.
  pose proof (Z.mod_pos_bound (n - 1) DI400Y ltac:(lia)) as B1.
  set (a := (n - 1) / DI400Y) in *. set (r1 := (n - 1) mod DI400Y) in *.
  pose proof (Z.div_mod r1 DI100Y ltac:(lia)) as E2.
  pose proof (Z.mod_pos_bound r1 DI100Y ltac:(lia)) as B2.
  set (b := r1 / DI100Y) in *. set (r2 := r1 mod DI100Y) in *.
  pose proof (Z.div_mod r2 DI4Y ltac:(lia)) as E3.
  pose proof (Z.mod_pos_bound r2 DI4Y ltac:(lia)) as B3.
  set (c := r2 / DI4Y) in *. set (r3 := r2 mod DI4Y) in *.
  pose proof (Z.div_mod r3 365 ltac:(lia)) as E4.
  pose proof (Z.mod_pos_bound r3 365 ltac:(lia)) as B4.
  set (e := r3 / 365) in *. set (r4 := r3 mod 365) in *.
  assert (Ha : 0 <= a <= 24) by lia.
  assert (Hb : 0 <= b <= 4) by lia.
  assert (Hc : 0 <= c <= 24) by lia.
  assert (He : 0 <= e <= 4) by lia.
  destruct (Z.eqb_spec e 4) as [E|E]; [|destruct (Z.eqb_spec b 4) as [E'|E']]; simpl.
  - (* the last day of a leap year that ends a four-year cycle *)
    assert (Hb' : 0 <= b <= 3) by lia.
    assert (Hc' : 0 <= c + 1 <= 24) by lia.
    pose proof (days_before_year_decomp a b (c + 1) 0 Hb' Hc' ltac:(lia)) as Y.
    replace (400 * a + 100 * b + 4 * (c + 1) + 0 + 1)
      with (a * 400 + 1 + b * 100 + c * 4 + e - 1 + 1) in Y by lia.
    rewrite days_before_year_succ in Y.
    set (y := a * 400 + 1 + b * 100 + c * 4 + e - 1) in *.
    pose proof (days_before_month_last y) as L.
    unfold valid_date, toordinal, ymd2ord, MINYEAR, MAXYEAR; simpl.
    assert (days_in_month y 12 = 31) by reflexivity.
    lia.
  - (* the last day of a 400-year cycle *)
    assert (r2 = 0 /\ c = 0 /\ e = 0 /\ r4 = 0) as (? & ? & ? & ?) by lia.
    pose proof (days_before_year_decomp (a + 1) 0 0 0 ltac:(lia) ltac:(lia) ltac:(lia)) as Y.
    replace (400 * (a + 1) + 100 * 0 + 4 * 0 + 0 + 1)
      with (a * 400 + 1 + b * 100 + c * 4 + e - 1 + 1) in Y by lia.
    rewrite days_before_year_succ in Y.
    set (y := a * 400 + 1 + b * 100 + c * 4 + e - 1) in *.
    pose proof (days_before_month_last y) as L.
    unfold valid_date, toordinal, ymd2ord, MINYEAR, MAXYEAR; simpl.
    assert (days_in_month y 12 = 31) by reflexivity.
    lia.
  - assert (Hb' : 0 <= b <= 3) by lia.
    assert (He' : 0 <= e <= 3) by lia.
    pose proof (days_before_year_decomp a b c e Hb' Hc He') as Y.
    pose proof (is_leap_decomp a b c e Hb' Hc He') as L.
    replace (400 * a + 100 * b + 4 * c + e + 1)
      with (a * 400 + 1 + b * 100 + c * 4 + e) in Y, L by lia.
    set (y := a * 400 + 1 + b * 100 + c * 4 + e) in *.
    rewrite <- L.
    assert (Hy : 1 <= y <= 9999) by lia.
    pose proof (month_estimate (is_leap y) r4
      (fun m d => valid_date (mkdate y m d) /\ toordinal (mkdate y m d) = n)
      ltac:(lia)) as M.
    cbv zeta in M |- *.
    match type of M with
    | _ -> if ?t then _ else _ => destruct t
    end; apply M; clear M; intros m d Hm Hd Hs;
      unfold valid_date, toordinal, ymd2ord, days_in_month, days_before_month,
        MINYEAR, MAXYEAR; simpl;
      (destruct ((m =? 2) && is_leap y) eqn:T;
       [ apply andb_prop in T as [T1 T2]; apply Z.eqb_eq in T1; subst m;
         rewrite T2 in *; simpl in *; lia
       | split; [lia|]; destruct (Z.eqb_spec m 2); simpl in *; lia ]).
Qed.


Lemma toordinal_bounds d : valid_date d -> 1 <= toordinal d <= MAXORDINAL.
Proof.
  intros Hd. pose proof (day_of_year_bounds d Hd) as B.
  destruct Hd as ((Hy1 & Hy2) & _). unfold MINYEAR, MAXYEAR in *.
  unfold toordinal, ymd2ord, MAXORDINAL.
  assert (L : 0 <= days_before_year (year d)).
  { destruct (Z.eq_dec (year d) 1) as [->|]; [vm_compute; discriminate|].
    pose proof (days_before_year_mono 1 (year d) ltac:(lia)) as M.
    change (days_before_year 1) with 0 in M. unfold leap_day in M.
    destruct (is_leap 1); lia. }
  assert (U : days_before_year (year d) + 365 + leap_day (year d) <= 3652059).
  { rewrite <- days_before_year_succ.
    destruct (Z.eq_dec (year d) 9999) as [->|]; [vm_compute; discriminate|].
    pose proof (days_before_year_mono (year d + 1) 10000 ltac:(lia)) as M.
    change (days_before_year 10000) with 3652059 in M. unfold leap_day in M.
    destruct (is_leap (year d + 1)); lia. }
  lia.
Qed.

Lemma date_compare_eq a b : date_compare a b = Eq -> a = b.
Proof.
  destruct a as [ya ma da], b as [yb mb db]. unfold date_compare; simpl.
  destruct (Z.compare_spec ya yb); try discriminate.
  destruct (Z.compare_spec ma mb); try discriminate.
  destruct (Z.compare_spec da db); try discriminate.
  intros _. congruence.
Qed.

Lemma fromordinal_toordinal d : valid_date d -> fromordinal (toordinal d) = d.
Proof.
  intros Hd. destruct (ord2ymd_spec (toordinal d) (toordinal_bounds d Hd)) as [V E].
  apply date_compare_eq. rewrite date_compare_toordinal by assumption.
  rewrite E. apply Z.compare_refl.
Qed.

Lemma date_ltb_toordinal a b :
  valid_date a -> valid_date b ->
  date_ltb a b = (toordinal a <? toordinal b).
Proof.
  intros Ha Hb. unfold date_ltb, Z.ltb.
  rewrite date_compare_toordinal by assumption. reflexivity.
Qed.

Lemma date_leb_toordinal a b :
  valid_date a -> valid_date b ->
  date_leb a b = (toordinal a <=? toordinal b).
Proof.
  intros Ha Hb. unfold date_leb, Z.leb.
  rewrite date_compare_toordinal by assumption. reflexivity.
Qed.

Lemma date_new_Ok y m d dt :
  date_new y m d = Ok dt -> dt = mkdate y m d /\ valid_date dt.
Proof.
  unfold date_new, valid_date.
  destruct (Z.leb_spec MINYEAR y), (Z.leb_spec y MAXYEAR); simpl; try discriminate.
  destruct (Z.leb_spec 1 m), (Z.leb_spec m 12); simpl; try discriminate.
  destruct (Z.leb_spec 1 d), (Z.leb_spec d (days_in_month y m)); simpl;
    try discriminate.
  intros [= <-]. simpl. split; [reflexivity | lia].
Qed.

Lemma date_new_valid d :
  valid_date d -> date_new (year d) (month d) (day d) = Ok d.
Proof.
  intros ((? & ?) & (? & ?) & (? & ?)). unfold date_new.
  destruct (Z.leb_spec MINYEAR (year d)), (Z.leb_spec (year d) MAXYEAR);
    simpl; try lia.
  destruct (Z.leb_spec 1 (month d)), (Z.leb_spec (month d) 12); simpl; try lia.
  destruct (Z.leb_spec 1 (day d)),
    (Z.leb_spec (day d) (days_in_month (year d) (month d))); simpl; try lia.
  destruct d; reflexivity.
Qed.

Lemma date_new_error y m d e :
  date_new y m d = Raise e -> exists msg, e = ValueError msg.
Proof.
  unfold date_new.
  repeat match goal with
         | |- context [if ?c then _ else _] => destruct c
         end; intros [= <-]; eauto.
Qed.

(** Adding days moves the ordinal and stays among the dates. *)
Lemma date_add_Ok d td d' :
  valid_date d -> date_add d td = Ok d' ->
  valid_date d' /\ toordinal d' = toordinal d + days td.
Proof.
  intros Hd. unfold date_add.
  destruct (Z.ltb_spec 0 (toordinal d + days td)),
    (Z.leb_spec (toordinal d + days td) MAXORDINAL); simpl; try discriminate.
  intros [= <-]. apply ord2ymd_spec. lia.
Qed.

Lemma date_add_in_range d td :
  1 <= toordinal d + days td <= MAXORDINAL ->
  date_add d td = Ok (fromordinal (toordinal d + days td)).
Proof.
  intros H. unfold date_add.
  destruct (Z.ltb_spec 0 (toordinal d + days td)),
    (Z.leb_spec (toordinal d + days td) MAXORDINAL); simpl; try lia.
  reflexivity.
Qed.

Lemma weekday_range d : 0 <= weekday d < 7.
Proof. unfold weekday. apply Z.mod_pos_bound. lia. Qed.

(** ** The loop of [get_upcoming_birthdays] *)

Lemma result_bind_Ok {A B} (m : result A) (f : A -> result B) b :
  (m ≫= f) = Ok b <-> exists a, m = Ok a /\ f a = Ok b.
Proof.
  destruct m as [a|e]; simpl; split.
  - intros H. exists a. auto.
  - intros (a' & [= ->] & H). exact H.
  - discriminate.
  - intros (a' & [=] & _).
Qed.

Lemma replace_year_Ok bd y c :
  replace_year bd y = Ok c ->
  valid_date c /\ year c = y /\ month c = month bd /\ day c = day bd.
Proof.
  unfold replace_year. intros H. apply date_new_Ok in H as [-> V]. auto.
Qed.

Lemma candidate_date_Ok today bd c :
  AddressBook.candidate_date today bd = Ok c ->
  valid_date c /\ month c = month bd /\ day c = day bd /\
  ((year c = year today /\ date_ltb c today = false) \/
   (year c = year today + 1 /\
    date_ltb (mkdate (year today) (month bd) (day bd)) today = true)).
Proof.
  unfold AddressBook.candidate_date. intros H.
  apply result_bind_Ok in H as (c0 & H0 & H).
  pose proof H0 as E0. unfold replace_year in E0. apply date_new_Ok in E0 as [E0 _].
  apply replace_year_Ok in H0 as (V0 & Y0 & M0 & D0).
  destruct (date_ltb c0 today) eqn:L.
  - apply replace_year_Ok in H as (V & Y & M & D).
    split; [exact V|]. split; [exact M|]. split; [exact D|].
    right. split; [assumption|]. rewrite <- E0. exact L.
  - injection H as <-.
    split; [exact V0|]. split; [exact M0|]. split; [exact D0|]. left. auto.
Qed.

Lemma candidate_date_error today bd e :
  AddressBook.candidate_date today bd = Raise e -> exists msg, e = ValueError msg.
Proof.
  unfold AddressBook.candidate_date, replace_year.
  destruct (date_new (year today) (month bd) (day bd)) as [c0|e0] eqn:H0; simpl.
  - destruct (date_ltb c0 today); [apply date_new_error | discriminate].
  - intros [= <-]. eapply date_new_error, H0.
Qed.

Lemma plus_days_small d n :
  Z.abs n <= 999999999 ->
  AddressBook.plus_days d n = date_add d (mktimedelta n).
Proof.
  intros H. unfold AddressBook.plus_days, timedelta_new.
  destruct (Z.ltb_spec 999999999 (Z.abs n)); [lia | reflexivity].
Qed.

Lemma plus_days_Ok d n d' :
  valid_date d -> AddressBook.plus_days d n = Ok d' ->
  valid_date d' /\ toordinal d' = toordinal d + n.
Proof.
  intros V H. unfold AddressBook.plus_days in H.
  apply result_bind_Ok in H as (td & Ht & H).
  unfold timedelta_new in Ht. destruct (_ <? _); [discriminate|].
  injection Ht as <-. apply (date_add_Ok d _ d' V H).
Qed.

(** The last date, 31 December 9999, is a Friday: the move off a weekend
    never leaves the calendar. *)
Lemma congr_date_Ok c :
  valid_date c ->
  exists cd, AddressBook.congr_date c = Ok cd /\ valid_date cd /\
             toordinal cd = toordinal c + weekend_shift c.
Proof.
  intros V. pose proof (toordinal_bounds c V) as B.
  unfold AddressBook.congr_date, weekend_shift, weekday, MAXORDINAL in *.
  destruct (Z.eqb_spec ((toordinal c + 6) mod 7) 5) as [E|E];
    [|destruct (Z.eqb_spec ((toordinal c + 6) mod 7) 6) as [E'|E']].
  - rewrite plus_days_small by lia.
    assert (R : 1 <= toordinal c + 2 <= MAXORDINAL)
      by (unfold MAXORDINAL; Z.div_mod_to_equations; lia).
    rewrite date_add_in_range by exact R.
    eexists; split; [reflexivity|]. apply ord2ymd_spec in R. exact R.
  - rewrite plus_days_small by lia.
    assert (R : 1 <= toordinal c + 1 <= MAXORDINAL)
      by (unfold MAXORDINAL; Z.div_mod_to_equations; lia).
    rewrite date_add_in_range by exact R.
    eexists; split; [reflexivity|]. apply ord2ymd_spec in R. exact R.
  - exists c. split; [reflexivity|]. split; [assumption | lia].
Qed.

Section Loop.
Variables today end_day : date.

(** What one record adds to the list. *)
Lemma upcoming_step_app res rec :
  AddressBook.upcoming_step today end_day res rec =
  (l ← AddressBook.upcoming_step today end_day [] rec; Ok (res ++ l)%list).
Proof.
  unfold AddressBook.upcoming_step.
  destruct (Record.birthday rec) as [b|]; simpl; [|by rewrite app_nil_r].
  destruct (AddressBook.candidate_date today (value b)) as [c|e]; simpl; [|done].
  destruct (date_leb today c && date_leb c end_day); simpl; [|by rewrite app_nil_r].
  destruct (AddressBook.congr_date c); simpl; done.
Qed.

Lemma upcoming_step_Ok rec l :
  AddressBook.upcoming_step today end_day [] rec = Ok l <->
  (Record.birthday rec = None /\ l = []) \/
  (exists b c, Record.birthday rec = Some b /\
     AddressBook.candidate_date today (value b) = Ok c /\
     ((in_window today end_day c = false /\ l = []) \/
      (in_window today end_day c = true /\
       exists cd, AddressBook.congr_date c = Ok cd /\
         l = [mkupcoming (value (Record.name rec)) (strftime cd "%Y.%m.%d")]))).
Proof.
  unfold AddressBook.upcoming_step, in_window.
  destruct (Record.birthday rec) as [b|]; simpl.
  2: { split; [intros [= <-]; auto | intros [[_ ->] | (b & c & [=] & _)]; done]. }
  split.
  - intros H. right. exists b.
    destruct (AddressBook.candidate_date today (value b)) as [c|e]; simpl in H; [|done].
    exists c. split; [done|]. split; [done|].
    destruct (date_leb today c && date_leb c end_day); simpl in H.
    + right. split; [done|].
      destruct (AddressBook.congr_date c) as [cd|e]; simpl in H; [|done].
      injection H as <-. eauto.
    + injection H as <-. auto.
  - intros [[[=] _] | (b' & c & [= <-] & Hc & H)]. rewrite Hc. simpl.
    destruct H as [[-> ->] | (-> & cd & -> & ->)]; reflexivity.
Qed.

Lemma upcoming_step_error res rec e :
  AddressBook.upcoming_step today end_day res rec = Raise e ->
  exists msg, e = ValueError msg.
Proof.
  unfold AddressBook.upcoming_step.
  destruct (Record.birthday rec) as [b|]; simpl; [|done].
  destruct (AddressBook.candidate_date today (value b)) as [c|e'] eqn:Hc; simpl.
  - destruct (date_leb today c && date_leb c end_day); [|done].
    apply candidate_date_Ok in Hc as (V & _).
    destruct (congr_date_Ok c V) as (cd & -> & _). done.
  - intros [= <-]. eapply candidate_date_error, Hc.
Qed.

Lemma for_each_upcoming_Ok recs res out :
  for_each (AddressBook.upcoming_step today end_day) res recs = Ok out <->
  exists ls, Forall2 (fun rec l =>
               AddressBook.upcoming_step today end_day [] rec = Ok l) recs ls /\
             out = (res ++ concat ls)%list.
Proof.
  revert res. induction recs as [|rec recs IH]; intros res; simpl.
  - split.
    + intros [= <-]. exists []. split; [constructor | by rewrite app_nil_r].
    + intros (ls & F & ->). inversion F; subst. simpl. by rewrite app_nil_r.
  - rewrite upcoming_step_app. split.
    + intros H. apply result_bind_Ok in H as (res' & H1 & H2).
      apply result_bind_Ok in H1 as (l & Hl & [= <-]).
      apply IH in H2 as (ls & F & ->).
      exists (l :: ls). split; [by constructor|]. simpl. by rewrite app_assoc.
    + intros (ls & F & ->). inversion F as [|? l ? ls' Hl F']; subst.
      rewrite Hl. simpl. apply IH. exists ls'. split; [done|].
      simpl. by rewrite app_assoc.
Qed.

End Loop.

(** ** The order of strings *)

Lemma ascii_compare_code a b : Ascii.compare a b = (code a ?= code b).
Proof. unfold Ascii.compare, code. symmetry. apply N2Z.inj_compare. Qed.

Lemma string_compare_cons a s b t :
  String.compare (String a s) (String b t) =
  match code a ?= code b with
  | Eq => String.compare s t
  | c => c
  end.
Proof. simpl. rewrite ascii_compare_code. reflexivity. Qed.

Lemma string_leb_refl s : String.leb s s = true.
Proof.
  unfold String.leb. induction s as [|a s IH]; [reflexivity|].
  rewrite string_compare_cons, Z.compare_refl. exact IH.
Qed.

Lemma string_leb_trans s t u :
  String.leb s t = true -> String.leb t u = true -> String.leb s u = true.
Proof.
  unfold String.leb. revert t u.
  induction s as [|a s IH]; intros [|b t] [|c u]; try (simpl; congruence).
  rewrite !string_compare_cons.
  destruct (Z.compare_spec (code a) (code b)) as [E1|L1|G1]; try discriminate;
    destruct (Z.compare_spec (code b) (code c)) as [E2|L2|G2]; try discriminate;
    intros H1 H2;
    destruct (Z.compare_spec (code a) (code c)) as [E3|L3|G3]; try lia; try reflexivity.
  eapply IH; eassumption.
Qed.

Lemma string_ltb_leb s t : String.ltb s t = true -> String.leb s t = true.
Proof.
  unfold String.ltb, String.leb.
  destruct (String.compare s t); intros H; try reflexivity; discriminate H.
Qed.

Lemma string_not_ltb_leb s t : String.ltb t s = false -> String.leb s t = true.
Proof.
  unfold String.ltb, String.leb. rewrite (String.compare_antisym s t).
  destruct (String.compare t s); simpl; intros H; try reflexivity; discriminate H.
Qed.

(** ** The sort *)

Section SortFacts.
Context {A : Type} (key : A -> string).

Lemma insert_by_perm x l : Permutation (insert_by key x l) (x :: l).
Proof.
  induction l as [|y l IH]; simpl; [reflexivity|].
  destruct (String.ltb (key y) (key x)); [|reflexivity].
  rewrite IH. apply perm_swap.
Qed.

Lemma sort_by_perm l : Permutation (sort_by key l) l.
Proof.
  induction l as [|x l IH]; simpl; [reflexivity|].
  rewrite insert_by_perm. by constructor.
Qed.

Lemma insert_by_sorted x l :
  StronglySorted (key_le key) l -> StronglySorted (key_le key) (insert_by key x l).
Proof.
  induction 1 as [|y l S IH F]; simpl.
  - repeat constructor.
  - destruct (String.ltb (key y) (key x)) eqn:L.
    + constructor; [exact IH|].
      eapply Permutation_Forall; [symmetry; apply insert_by_perm|].
      constructor; [|exact F]. by apply string_ltb_leb.
    + apply string_not_ltb_leb in L.
      constructor; [by constructor|].
      constructor; [exact L|].
      eapply Forall_impl; [exact F|]. intros z Hz.
      eapply string_leb_trans; [exact L | exact Hz].
Qed.

Lemma sort_by_sorted l : StronglySorted (key_le key) (sort_by key l).
Proof.
  induction l as [|x l IH]; simpl; [constructor | by apply insert_by_sorted].
Qed.

End SortFacts.

(** ** The text of a date *)

Lemma strftime_Ymd d :
  strftime d "%Y.%m.%d" =
  (pad4 (year d) ++ "." ++ pad2 (month d) ++ "." ++ pad2 (day d))%string.
Proof. reflexivity. Qed.

Lemma strftime_dmY d :
  strftime d "%d.%m.%Y" =
  (pad2 (day d) ++ "." ++ pad2 (month d) ++ "." ++ pad4 (year d))%string.
Proof. reflexivity. Qed.

(** From the year 1000 on the C library writes the four digits of
    [directive], and [libc_strftime] is [strftime]. *)
Lemma year_text_from_1000 y : 1000 <= y -> year_text y = pad4 y.
Proof. intros H. unfold year_text. by destruct (Z.ltb_spec y 1000); [lia|]. Qed.

Lemma libc_directive_from_1000 c d :
  1000 <= year d -> libc_directive c d = directive c d.
Proof.
  intros H. unfold libc_directive, directive.
  destruct (Ascii.eqb c "Y"); [by apply year_text_from_1000 | done].
Qed.

Lemma libc_strftime_from_1000 d fmt :
  1000 <= year d -> libc_strftime d fmt = strftime d fmt.
Proof.
  intros H.
  assert (A : forall n fmt, (String.length fmt <= n)%nat ->
                libc_strftime d fmt = strftime d fmt).
  { clear fmt. induction n as [|n IH]; intros fmt L.
    - destruct fmt; [done | simpl in L; lia].
    - destruct fmt as [|c r]; [done|]. simpl in L. simpl.
      destruct (Ascii.eqb c "%").
      + destruct r as [|k r']; [done|]. simpl in L.
        rewrite libc_directive_from_1000 by done. f_equal. apply IH. lia.
      + f_equal. apply IH. lia. }
  by apply (A (String.length fmt)).
Qed.

Lemma append_empty_r (s : string) : (s ++ "")%string = s.
Proof. induction s as [|c s IH]; simpl; [done | by rewrite IH]. Qed.

Lemma length_append (s t : string) :
  String.length (s ++ t) = (String.length s + String.length t)%nat.
Proof. induction s as [|c s IH]; simpl; [done | by rewrite IH]. Qed.

Lemma libc_strftime_dmY d :
  libc_strftime d "%d.%m.%Y" =
  (pad2 (day d) ++ "." ++ pad2 (month d) ++ "." ++ year_text (year d))%string.
Proof.
  rewrite <- (append_empty_r (year_text (year d))) at 1. reflexivity.
Qed.

(** Before the year 1000 the year has fewer than four digits. *)
Lemma year_text_below_1000 y :
  0 <= y < 1000 -> (String.length (year_text y) < 4)%nat.
Proof.
  intros H.
  assert (A : forallb (fun n => Nat.ltb (String.length (year_text (Z.of_nat n))) 4)
                (seq 0 1000) = true) by (vm_compute; reflexivity).
  rewrite forallb_forall in A.
  specialize (A (Z.to_nat y)). rewrite Z2Nat.id in A by lia.
  apply Nat.ltb_lt, A, in_seq. lia.
Qed.

Lemma libc_strftime_dmY_length d :
  String.length (libc_strftime d "%d.%m.%Y") =
  (6 + String.length (year_text (year d)))%nat.
Proof. by rewrite libc_strftime_dmY. Qed.

Lemma code_digit_char n : 0 <= n <= 9 -> code (digit_char n) = 48 + n.
Proof.
  intros H. unfold code, digit_char.
  rewrite N_ascii_embedding by lia. lia.
Qed.

Lemma valid_date_ranges d :
  valid_date d ->
  0 <= year d < 10000 /\ 0 <= month d < 100 /\ 0 <= day d < 100.
Proof.
  intros ((? & ?) & Hm & (? & ?)). pose proof (days_in_month_bounds (year d) _ Hm).
  unfold MINYEAR, MAXYEAR in *. lia.
Qed.

Lemma pad2_compare_mod a b s t :
  String.compare (pad2 a ++ s) (pad2 b ++ t) =
  match a mod 100 ?= b mod 100 with Eq => String.compare s t | c => c end.
Proof.
  unfold pad2. cbn [String.append].
  rewrite !string_compare_cons.
  rewrite !code_digit_char by (Z.div_mod_to_equations; lia).
  destruct (Z.compare_spec (48 + a / 10 mod 10) (48 + b / 10 mod 10));
    destruct (Z.compare_spec (48 + a mod 10) (48 + b mod 10));
    destruct (Z.compare_spec (a mod 100) (b mod 100)); try reflexivity;
    exfalso; Z.div_mod_to_equations; lia.
Qed.

Lemma pad2_compare a b s t :
  0 <= a < 100 -> 0 <= b < 100 ->
  String.compare (pad2 a ++ s) (pad2 b ++ t) =
  match a ?= b with Eq => String.compare s t | c => c end.
Proof.
  intros Ha Hb. rewrite pad2_compare_mod, !Z.mod_small by lia. reflexivity.
Qed.

Lemma pad4_split a s :
  (pad4 a ++ s)%string = (pad2 (a / 100) ++ (pad2 a ++ s))%string.
Proof.
  unfold pad4, pad2. cbn [String.append].
  rewrite Z.div_div by lia. change (100 * 10) with 1000. reflexivity.
Qed.

Lemma pad4_compare a b s t :
  0 <= a < 10000 -> 0 <= b < 10000 ->
  String.compare (pad4 a ++ s) (pad4 b ++ t) =
  match a ?= b with Eq => String.compare s t | c => c end.
Proof.
  intros Ha Hb. rewrite !pad4_split, !pad2_compare_mod.
  destruct (Z.compare_spec (a / 100 mod 100) (b / 100 mod 100));
    destruct (Z.compare_spec (a mod 100) (b mod 100));
    destruct (Z.compare_spec a b); try reflexivity;
    exfalso; Z.div_mod_to_equations; lia.
Qed.

(** The text [YYYY.MM.DD] orders the dates as the calendar does. *)
Lemma strftime_Ymd_compare a b :
  valid_date a -> valid_date b ->
  String.compare (strftime a "%Y.%m.%d") (strftime b "%Y.%m.%d") = date_compare a b.
Proof.
  intros Va Vb.
  apply valid_date_ranges in Va as (Ya & Ma & Da), Vb as (Yb & Mb & Db).
  rewrite !strftime_Ymd. unfold date_compare.
  rewrite pad4_compare by assumption.
  destruct (year a ?= year b); try reflexivity.
  cbn [String.append]. rewrite string_compare_cons, Z.compare_refl.
  rewrite pad2_compare by assumption.
  destruct (month a ?= month b); try reflexivity.
  cbn [String.append]. rewrite string_compare_cons, Z.compare_refl.
  change (pad2 (day a)) with (pad2 (day a) ++ "")%string.
  change (pad2 (day b)) with (pad2 (day b) ++ "")%string.
  rewrite pad2_compare by assumption.
  destruct (day a ?= day b); reflexivity.
Qed.

(** ** The dictionary *)

Section DictFacts.
Context {V : Type}.
Implicit Types (d : pydict.dict V) (k : string) (v : V).

Lemma get_In k v d : pydict.get k d = Some v -> In (k, v) d.
Proof.
  induction d as [|[k' v'] d IH]; simpl; [discriminate|].
  destruct (String.eqb_spec k' k) as [->|N].
  - intros [= ->]. by left.
  - intros H. right. by apply IH.
Qed.

Lemma In_keys k v d : In (k, v) d -> In k (pydict.keys d).
Proof. intros H. apply (in_map fst) in H. exact H. Qed.

Lemma In_get k v d :
  List.NoDup (pydict.keys d) -> In (k, v) d -> pydict.get k d = Some v.
Proof.
  induction d as [|[k' v'] d IH]; simpl; [done|].
  intros N [E|H].
  - injection E as -> ->. by rewrite String.eqb_refl.
  - apply List.NoDup_cons_iff in N as [N1 N2].
    destruct (String.eqb_spec k' k) as [->|_]; [|by apply IH].
    exfalso. apply N1. eapply In_keys, H.
Qed.

Lemma get_None k d : pydict.get k d = None <-> ~ In k (pydict.keys d).
Proof.
  induction d as [|[k' v'] d IH]; simpl; [tauto|].
  destruct (String.eqb_spec k' k) as [->|N].
  - split; [discriminate | intros H; exfalso; apply H; by left].
  - rewrite IH. split; [intros H [E|H']; [congruence | tauto] | tauto].
Qed.

Lemma In_values v d : In v (pydict.values d) <-> exists k, In (k, v) d.
Proof.
  unfold pydict.values. rewrite in_map_iff. split.
  - intros ([k v'] & E & H). simpl in E. subst. eauto.
  - intros (k & H). exists (k, v). auto.
Qed.

End DictFacts.

(** ** The list [get_upcoming_birthdays] returns *)

Section Upcoming.
Variables (book : AddressBook.t) (today : date) (days_ahead : option Z).

Lemma get_upcoming_birthdays_Ok res :
  AddressBook.get_upcoming_birthdays book today days_ahead = Ok res <->
  exists end_day ls,
    AddressBook.plus_days today (days_of days_ahead) = Ok end_day /\
    Forall2 (fun rec l => AddressBook.upcoming_step today end_day [] rec = Ok l)
      (pydict.values (AddressBook.data book)) ls /\
    res = sort_by congratulation_date (concat ls).
Proof.
  unfold AddressBook.get_upcoming_birthdays.
  replace (default AddressBook.days_ahead_default days_ahead)
    with (days_of days_ahead) by (by destruct days_ahead).
  rewrite result_bind_Ok. split.
  - intros (end_day & He & H). apply result_bind_Ok in H as (out & Ho & [= <-]).
    apply for_each_upcoming_Ok in Ho as (ls & F & ->). eauto.
  - intros (end_day & ls & He & F & ->). exists end_day. split; [done|].
    apply result_bind_Ok. exists (concat ls). split; [|done].
    apply for_each_upcoming_Ok. eauto.
Qed.

(** The lines of the list are the lines of the records. *)
Lemma get_upcoming_birthdays_In res end_day u :
  AddressBook.get_upcoming_birthdays book today days_ahead = Ok res ->
  AddressBook.plus_days today (days_of days_ahead) = Ok end_day ->
  In u res <->
  exists k rec, In (k, rec) (AddressBook.data book) /\ line_of today end_day rec u.
Proof.
  intros H He. apply get_upcoming_birthdays_Ok in H as (end' & ls & He' & F & ->).
  rewrite He in He'. injection He' as <-.
  assert (P : In u (sort_by congratulation_date (concat ls)) <-> In u (concat ls)).
  { split; apply Permutation_in;
      [apply sort_by_perm | symmetry; apply sort_by_perm]. }
  rewrite P, in_concat. clear P. split.
  - intros (l & Hl & Hu).
    assert (exists rec, In rec (pydict.values (AddressBook.data book)) /\
              AddressBook.upcoming_step today end_day [] rec = Ok l)
      as (rec & Hrec & Hstep).
    { clear Hu. induction F as [|rec l' recs ls' Hs F IH]; [done|].
      destruct Hl as [->|Hl].
      - exists rec. split; [by left | done].
      - destruct (IH Hl) as (r & ? & ?). exists r. split; [by right | done]. }
    apply In_values in Hrec as (k & Hk). exists k, rec. split; [done|].
    apply upcoming_step_Ok in Hstep
      as [[_ ->] | (b & c & Hb & Hc & [[_ ->] | (W & cd & Hcd & ->)])];
      try done.
    destruct Hu as [<-|[]]. exists b, c, cd. auto.
  - intros (k & rec & Hk & b & c & cd & Hb & Hc & W & Hcd & ->).
    assert (Hrec : In rec (pydict.values (AddressBook.data book)))
      by (apply In_values; eauto).
    set (l := [mkupcoming (value (Record.name rec)) (strftime cd "%Y.%m.%d")]).
    exists l. split; [|by left].
    assert (Hstep : AddressBook.upcoming_step today end_day [] rec = Ok l).
    { apply upcoming_step_Ok. right. exists b, c. split; [done|]. split; [done|].
      right. split; [done|]. exists cd. auto. }
    clear - F Hrec Hstep.
    induction F as [|rec' l' recs ls' Hs F IH]; [done|].
    destruct Hrec as [->|Hrec].
    + left. congruence.
    + right. by apply IH.
Qed.

(** The method returns a list exactly when the end of the window and the
    candidate of every birthday exist. *)
Lemma get_upcoming_birthdays_returns :
  (exists res, AddressBook.get_upcoming_birthdays book today days_ahead = Ok res) <->
  (exists end_day, AddressBook.plus_days today (days_of days_ahead) = Ok end_day) /\
  (forall k rec b, In (k, rec) (AddressBook.data book) ->
     Record.birthday rec = Some b ->
     exists c, AddressBook.candidate_date today (value b) = Ok c).
Proof.
  split.
  - intros (res & H). apply get_upcoming_birthdays_Ok in H as (end_day & ls & He & F & _).
    split; [eauto|]. intros k rec b Hk Hb.
    assert (Hrec : In rec (pydict.values (AddressBook.data book)))
      by (apply In_values; eauto).
    clear Hk. induction F as [|rec' l' recs ls' Hs F IH]; [done|].
    destruct Hrec as [->|Hrec]; [|by apply IH].
    apply upcoming_step_Ok in Hs as [[E _] | (b' & c & Hb' & Hc & _)]; [congruence|].
    exists c. congruence.
  - intros ((end_day & He) & H).
    assert (exists ls, Forall2 (fun rec l =>
              AddressBook.upcoming_step today end_day [] rec = Ok l)
              (pydict.values (AddressBook.data book)) ls) as (ls & F).
    { assert (H' : forall rec b, In rec (pydict.values (AddressBook.data book)) ->
                Record.birthday rec = Some b ->
                exists c, AddressBook.candidate_date today (value b) = Ok c).
      { intros rec b Hrec. apply In_values in Hrec as (k & Hk). eauto. }
      clear H. induction (pydict.values (AddressBook.data book)) as [|rec recs IH].
      - exists []. constructor.
      - destruct IH as (ls & F); [intros; eapply H'; [by right | done]|].
        assert (exists l, AddressBook.upcoming_step today end_day [] rec = Ok l)
          as (l & Hl).
        { destruct (Record.birthday rec) as [b|] eqn:Hb.
          - destruct (H' rec b ltac:(by left) Hb) as (c & Hc).
            destruct (in_window today end_day c) eqn:W.
            + pose proof (candidate_date_Ok _ _ _ Hc) as (V & _).
              destruct (congr_date_Ok c V) as (cd & Hcd & _).
              eexists. apply upcoming_step_Ok. right. exists b, c.
              split; [done|]. split; [done|]. right. split; [done|]. eauto.
            + exists []. apply upcoming_step_Ok. right. exists b, c.
              split; [done|]. split; [done|]. left. auto.
          - exists []. apply upcoming_step_Ok. left. auto. }
        exists (l :: ls). by constructor. }
    eexists. apply get_upcoming_birthdays_Ok. eauto.
Qed.

End Upcoming.

(** A candidate is never before today: the window test only cuts at the
    far end. *)
Lemma candidate_not_before today bd c :
  AddressBook.candidate_date today bd = Ok c -> date_leb today c = true.
Proof.
  intros H. apply candidate_date_Ok in H as (_ & _ & _ & [[Y L] | [Y _]]).
  - unfold date_ltb in L. unfold date_leb, date_compare in *.
    rewrite Y, Z.compare_refl in *.
    rewrite (Z.compare_antisym (month c)), (Z.compare_antisym (day c)).
    destruct (month c ?= month today); simpl; try done.
    destruct (day c ?= day today); simpl; done.
  - unfold date_leb, date_compare.
    assert (E : (year today ?= year c) = Lt) by (apply Z.compare_lt_iff; lia).
    by rewrite E.
Qed.

Lemma date_leb_refl d : date_leb d d = true.
Proof. unfold date_leb, date_compare. by rewrite !Z.compare_refl. Qed.

Lemma date_new_feb29 y :
  is_leap y = false -> exists msg, date_new y 2 29 = Raise (ValueError msg).
Proof.
  intros L. unfold date_new, days_in_month. rewrite L. simpl.
  destruct (negb _); eauto.
Qed.

Lemma feb29_step_raises today end_day res rec b :
  Record.birthday rec = Some b ->
  month (value b) = 2 -> day (value b) = 29 ->
  (exists y, is_leap y = false /\
     (y = year today \/
      (y = year today + 1 /\ date_ltb (mkdate (year today) 2 29) today = true))) ->
  exists msg, AddressBook.upcoming_step today end_day res rec = Raise (ValueError msg).
Proof.
  intros Hb Hm Hd (y & L & Hy).
  unfold AddressBook.upcoming_step, AddressBook.candidate_date, replace_year.
  rewrite Hb, Hm, Hd. simpl.
  destruct Hy as [->|[-> Lt]].
  - destruct (date_new_feb29 _ L) as (msg & ->). simpl. eauto.
  - destruct (date_new (year today) 2 29) as [c0|e] eqn:E0; simpl.
    + apply date_new_Ok in E0 as [-> _]. rewrite Lt.
      destruct (date_new_feb29 _ L) as (msg & ->). simpl. eauto.
    + destruct (date_new_error _ _ _ _ E0) as (msg & ->). eauto.
Qed.

Lemma for_each_upcoming_raises today end_day recs rec res :
  In rec recs ->
  (forall res', exists msg,
     AddressBook.upcoming_step today end_day res' rec = Raise (ValueError msg)) ->
  exists msg,
    for_each (AddressBook.upcoming_step today end_day) res recs = Raise (ValueError msg).
Proof.
  intros Hin Hr. revert res. induction recs as [|x recs IH]; intros res; [done|].
  simpl. destruct (AddressBook.upcoming_step today end_day res x) as [res'|e] eqn:E.
  - simpl. destruct Hin as [->|Hin]; [|by apply IH].
    destruct (Hr res) as (msg & Hmsg). congruence.
  - simpl. destruct (upcoming_step_error _ _ _ _ _ E) as (msg & ->). eauto.
Qed.

(** * The claims *)

Lemma names_of_In name l :
  In name (names_of l) <-> exists u, In u l /\ upcoming_name u = name.
Proof.
  unfold names_of. rewrite in_map_iff. split; intros (u & H1 & H2); eauto.
Qed.

(** C1. A record with a birthday gets as candidate the birthday in the
    current year, or in the next year when that date is before today; its
    name is on the list exactly when the candidate lies between today and
    today plus [days_ahead], both ends included, and [days_ahead] is 7 when
    the caller leaves it out. A record without a birthday is never on the
    list. *)
Theorem upcoming_window_membership book today days_ahead res :
  book_invariant book ->
  AddressBook.get_upcoming_birthdays book today days_ahead = Ok res ->
  AddressBook.get_upcoming_birthdays book today None =
    AddressBook.get_upcoming_birthdays book today (Some 7) /\
  exists end_day,
    AddressBook.plus_days today (days_of days_ahead) = Ok end_day /\
    forall name rec, AddressBook.find book name = Some rec ->
      match Record.birthday rec with
      | None => ~ In name (names_of res)
      | Some b =>
          let bd := value b in
          let this_year := mkdate (year today) (month bd) (day bd) in
          exists candidate,
            AddressBook.candidate_date today bd = Ok candidate /\
            candidate =
              (if date_ltb this_year today
               then mkdate (year today + 1) (month bd) (day bd)
               else this_year) /\
            (In name (names_of res) <->
             date_leb today candidate = true /\ date_leb candidate end_day = true)
      end.
Proof.
  intros [Hnd Hkn] H. split; [reflexivity|].
  pose proof H as H0.
  apply get_upcoming_birthdays_Ok in H0 as (end_day & ls & He & _).
  exists end_day. split; [exact He|].
  intros name rec Hfind. apply get_In in Hfind.
  assert (Huniq : forall k rec', In (k, rec') (AddressBook.data book) ->
            value (Record.name rec') = name -> rec' = rec).
  { intros k rec' Hk Hn. pose proof (Hkn _ _ Hk) as E. rewrite Hn in E. subst k.
    apply (In_get _ _ _ Hnd) in Hk. apply (In_get _ _ _ Hnd) in Hfind. congruence. }
  destruct (Record.birthday rec) as [b|] eqn:Hb.
  - assert (exists res', AddressBook.get_upcoming_birthdays book today days_ahead = Ok res')
      as R by eauto.
    apply get_upcoming_birthdays_returns in R as [_ R].
    destruct (R _ _ _ Hfind Hb) as (c & Hc).
    cbv zeta. exists c. split; [exact Hc|]. split.
    + pose proof (candidate_date_Ok _ _ _ Hc) as (_ & M & D & [[Y L] | [Y L]]).
      * assert (E : c = mkdate (year today) (month (value b)) (day (value b)))
          by (destruct c; simpl in *; congruence).
        rewrite <- E, L. reflexivity.
      * rewrite L. destruct c; simpl in *; congruence.
    + rewrite names_of_In. split.
      * intros (u & Hu & Hn).
        apply (get_upcoming_birthdays_In _ _ _ _ _ _ H He) in Hu
          as (k & rec' & Hk & b' & c' & cd & Hb' & Hc' & W & _ & ->).
        simpl in Hn. rewrite (Huniq _ _ Hk Hn) in Hb'.
        assert (b' = b) by congruence. subst b'.
        assert (c' = c) by congruence. subst c'.
        unfold in_window in W. by apply andb_prop in W.
      * intros [W1 W2].
        pose proof (candidate_date_Ok _ _ _ Hc) as (V & _).
        destruct (congr_date_Ok c V) as (cd & Hcd & _).
        exists (mkupcoming (value (Record.name rec)) (strftime cd "%Y.%m.%d")).
        split; [|simpl; symmetry; by apply Hkn].
        apply (get_upcoming_birthdays_In _ _ _ _ _ _ H He).
        exists name, rec. split; [done|]. exists b, c, cd.
        unfold in_window. rewrite W1, W2. auto.
  - rewrite names_of_In. intros (u & Hu & Hn).
    apply (get_upcoming_birthdays_In _ _ _ _ _ _ H He) in Hu
      as (k & rec' & Hk & b' & c' & cd & Hb' & _ & _ & _ & ->).
    simpl in Hn. rewrite (Huniq _ _ Hk Hn) in Hb'. congruence.
Qed.

Ltac concrete_invariant :=
  split;
  [ unfold keys_distinct; simpl; repeat constructor; simpl; intuition discriminate
  | intros k r H; simpl in H;
    repeat (destruct H as [H|H]; [injection H as <- <-; reflexivity|]);
    destruct H ].

Lemma upcoming_window_membership_witness :
  book_invariant june_book /\
  AddressBook.get_upcoming_birthdays june_book june_today None = Ok june_result /\
  exists end_day,
    AddressBook.plus_days june_today 7 = Ok end_day /\
    forall name rec, AddressBook.find june_book name = Some rec ->
      match Record.birthday rec with
      | None => ~ In name (names_of june_result)
      | Some b =>
          let bd := value b in
          let this_year := mkdate (year june_today) (month bd) (day bd) in
          exists candidate,
            AddressBook.candidate_date june_today bd = Ok candidate /\
            candidate =
              (if date_ltb this_year june_today
               then mkdate (year june_today + 1) (month bd) (day bd)
               else this_year) /\
            (In name (names_of june_result) <->
             date_leb june_today candidate = true /\
             date_leb candidate end_day = true)
      end.
Proof.
  assert (I : book_invariant june_book) by concrete_invariant.
  assert (R : AddressBook.get_upcoming_birthdays june_book june_today None =
              Ok june_result) by reflexivity.
  split; [exact I|]. split; [exact R|].
  exact (proj2 (upcoming_window_membership june_book june_today None june_result I R)).
Defined.

Lemma toordinal_inj a b :
  valid_date a -> valid_date b -> toordinal a = toordinal b -> a = b.
Proof.
  intros Va Vb E. rewrite <- (fromordinal_toordinal a Va), E.
  by apply fromordinal_toordinal.
Qed.

(** The congratulation date of a candidate is the date that many days
    later. *)
Lemma congr_date_spec c cd :
  valid_date c ->
  AddressBook.congr_date c = Ok cd <->
  valid_date cd /\ toordinal cd = toordinal c + weekend_shift c.
Proof.
  intros V. destruct (congr_date_Ok c V) as (cd' & H & V' & E). split.
  - intros H'. assert (cd' = cd) by congruence. subst. auto.
  - intros [Vcd Ecd]. rewrite H. f_equal. apply toordinal_inj; [done..|lia].
Qed.

Lemma plus_days_spec c n cd :
  valid_date c -> Z.abs n <= 999999999 ->
  AddressBook.plus_days c n = Ok cd <->
  valid_date cd /\ toordinal cd = toordinal c + n.
Proof.
  intros V Hn. split; [by apply plus_days_Ok|].
  intros [Vcd E]. rewrite plus_days_small by done.
  pose proof (toordinal_bounds cd Vcd) as B.
  rewrite date_add_in_range by (simpl; lia).
  simpl. rewrite <- E. f_equal. by apply fromordinal_toordinal.
Qed.

(** C2. Each line of the list belongs to a record whose candidate is in the
    window; it carries the record's name and, as [YYYY.MM.DD], the
    candidate moved 2 days on when it is a Saturday, 1 day on when it is a
    Sunday and not at all otherwise; and every such record has its line. *)
Theorem congratulation_date_lines book today days_ahead res :
  AddressBook.get_upcoming_birthdays book today days_ahead = Ok res ->
  exists end_day,
    AddressBook.plus_days today (days_of days_ahead) = Ok end_day /\
    forall u, In u res <->
      exists k rec b candidate cd,
        In (k, rec) (AddressBook.data book) /\
        Record.birthday rec = Some b /\
        AddressBook.candidate_date today (value b) = Ok candidate /\
        in_window today end_day candidate = true /\
        (let shift := if weekday candidate =? 5 then 2
                      else if weekday candidate =? 6 then 1 else 0 in
         AddressBook.plus_days candidate shift = Ok cd /\
         toordinal cd = toordinal candidate + shift) /\
        u = mkupcoming (value (Record.name rec))
              (pad4 (year cd) ++ "." ++ pad2 (month cd) ++ "." ++ pad2 (day cd)).
Proof.
  intros H. pose proof H as H0.
  apply get_upcoming_birthdays_Ok in H0 as (end_day & ls & He & _).
  exists end_day. split; [exact He|]. intros u.
  rewrite (get_upcoming_birthdays_In _ _ _ _ _ _ H He). split.
  - intros (k & rec & Hk & b & c & cd & Hb & Hc & W & Hcd & ->).
    pose proof (candidate_date_Ok _ _ _ Hc) as (V & _).
    apply (congr_date_spec c cd V) in Hcd as [Vcd Ecd].
    exists k, rec, b, c, cd. rewrite <- strftime_Ymd.
    repeat (split; [done|]). split; [|done]. cbv zeta. split; [|exact Ecd].
    apply plus_days_spec; [done | | done].
    unfold weekend_shift. repeat destruct (_ =? _); lia.
  - intros (k & rec & b & c & cd & Hk & Hb & Hc & W & [Hp Ecd] & ->).
    pose proof (candidate_date_Ok _ _ _ Hc) as (V & _).
    apply plus_days_Ok in Hp as [Vcd _]; [|done].
    exists k, rec. split; [done|]. exists b, c, cd.
    rewrite strftime_Ymd. repeat (split; [done|]). split; [|done].
    by apply congr_date_spec.
Qed.

Lemma congratulation_date_lines_witness :
  AddressBook.get_upcoming_birthdays june_book june_today None = Ok june_result /\
  exists end_day,
    AddressBook.plus_days june_today 7 = Ok end_day /\
    forall u, In u june_result <->
      exists k rec b candidate cd,
        In (k, rec) (AddressBook.data june_book) /\
        Record.birthday rec = Some b /\
        AddressBook.candidate_date june_today (value b) = Ok candidate /\
        in_window june_today end_day candidate = true /\
        (let shift := if weekday candidate =? 5 then 2
                      else if weekday candidate =? 6 then 1 else 0 in
         AddressBook.plus_days candidate shift = Ok cd /\
         toordinal cd = toordinal candidate + shift) /\
        u = mkupcoming (value (Record.name rec))
              (pad4 (year cd) ++ "." ++ pad2 (month cd) ++ "." ++ pad2 (day cd)).
Proof.
  assert (R : AddressBook.get_upcoming_birthdays june_book june_today None =
              Ok june_result) by reflexivity.
  split; [exact R|].
  exact (congratulation_date_lines june_book june_today None june_result R).
Defined.

(** The two scenarios of the specification: on Monday 10 June 2024 the
    birthday of Saturday 15 June is congratulated on Monday 17 June, the
    ones of 20 June and of 9 June are not on the list; on 28 December 2024
    the birthday of 2 January is on the list with its date in 2025. *)
Example june_scenario :
  AddressBook.get_upcoming_birthdays june_book june_today None =
  Ok [mkupcoming "A" "2024.06.17"].
Proof. reflexivity. Qed.

Example december_scenario :
  AddressBook.candidate_date december_today (mkdate 1985 1 2) =
    Ok (mkdate 2025 1 2) /\
  AddressBook.get_upcoming_birthdays january_book december_today None =
    Ok [mkupcoming "J" "2025.01.02"].
Proof. split; reflexivity. Qed.

(** The numbering of the days of the week: 15 and 16 June 2024 were a
    Saturday and a Sunday, 17 June a Monday. *)
Lemma weekday_examples :
  weekday (mkdate 2024 6 15) = 5 /\ weekday (mkdate 2024 6 16) = 6 /\
  weekday (mkdate 2024 6 17) = 0.
Proof. repeat split. Qed.

(** C3. With a birthday on 29 February in the book, and the year put in
    its place not a leap year (this year, or the next one when 29 February
    of this year is before today), the method raises: it returns no list,
    with or without that record. The exception is a [ValueError], the
    error of an invalid date, unless the end of the window could not be
    computed, which raises before any record is read. *)
Theorem feb29_raises book today days_ahead k rec b :
  In (k, rec) (AddressBook.data book) ->
  Record.birthday rec = Some b ->
  month (value b) = 2 -> day (value b) = 29 ->
  (exists y, is_leap y = false /\
     (y = year today \/
      (y = year today + 1 /\ date_ltb (mkdate (year today) 2 29) today = true))) ->
  exists e,
    AddressBook.get_upcoming_birthdays book today days_ahead = Raise e /\
    ((exists msg, e = ValueError msg) \/
     AddressBook.plus_days today (days_of days_ahead) = Raise e).
Proof.
  intros Hk Hb Hm Hd Hy. unfold AddressBook.get_upcoming_birthdays.
  replace (default AddressBook.days_ahead_default days_ahead)
    with (days_of days_ahead) by (by destruct days_ahead).
  destruct (AddressBook.plus_days today (days_of days_ahead)) as [end_day|e];
    simpl; [|eauto].
  destruct (for_each_upcoming_raises today end_day
              (pydict.values (AddressBook.data book)) rec [])
    as (msg & ->).
  - apply In_values. eauto.
  - intros res'. by eapply feb29_step_raises.
  - simpl. eauto.
Qed.

Lemma feb29_raises_witness :
  exists e,
    AddressBook.get_upcoming_birthdays leap_book march_today None = Raise e /\
    ((exists msg, e = ValueError msg) \/
     AddressBook.plus_days march_today 7 = Raise e).
Proof.
  apply (feb29_raises leap_book march_today None "L"
           (contact "L" (Some (mkdate 2000 2 29))) (mkField (mkdate 2000 2 29))).
  - simpl. right. left. reflexivity.
  - reflexivity.
  - reflexivity.
  - reflexivity.
  - exists 2023. split; [reflexivity|]. left. reflexivity.
Defined.

(** On 1 March 2023 the exception is the one [date] raises for
    29 February 2023. *)
Lemma february_29_in_2023 :
  AddressBook.get_upcoming_birthdays leap_book march_today None =
  Raise (ValueError "day is out of range for month").
Proof. reflexivity. Qed.

(** C10. The window is tested on the candidate, before the move off the
    weekend: a candidate that is the last day of the window and a Saturday
    is on the list with the date two days after the window's end. *)
Theorem shifted_date_leaves_window book today days_ahead res end_day k rec b :
  AddressBook.get_upcoming_birthdays book today days_ahead = Ok res ->
  AddressBook.plus_days today (days_of days_ahead) = Ok end_day ->
  In (k, rec) (AddressBook.data book) ->
  Record.birthday rec = Some b ->
  AddressBook.candidate_date today (value b) = Ok end_day ->
  weekday end_day = 5 ->
  exists cd,
    In (mkupcoming (value (Record.name rec)) (strftime cd "%Y.%m.%d")) res /\
    valid_date cd /\
    toordinal cd = toordinal end_day + 2 /\
    date_leb cd end_day = false.
Proof.
  intros H He Hk Hb Hc Hw.
  pose proof (candidate_date_Ok _ _ _ Hc) as (V & _).
  destruct (congr_date_Ok end_day V) as (cd & Hcd & Vcd & Ecd).
  unfold weekend_shift in Ecd. rewrite Hw in Ecd. simpl in Ecd.
  exists cd. split; [|split; [done|split; [done|]]].
  - apply (get_upcoming_birthdays_In _ _ _ _ _ _ H He).
    exists k, rec. split; [done|]. exists b, end_day, cd.
    unfold in_window. rewrite (candidate_not_before _ _ _ Hc), date_leb_refl. auto.
  - rewrite date_leb_toordinal by done. apply Z.leb_gt. lia.
Qed.

Lemma shifted_date_leaves_window_witness :
  exists cd,
    In (mkupcoming "A" (strftime cd "%Y.%m.%d")) [mkupcoming "A" "2024.06.17"] /\
    valid_date cd /\
    toordinal cd = toordinal saturday_end + 2 /\
    date_leb cd saturday_end = false.
Proof.
  apply (shifted_date_leaves_window saturday_book saturday_today None
           [mkupcoming "A" "2024.06.17"] saturday_end "A"
           (contact "A" (Some (mkdate 1990 6 15))) (mkField (mkdate 1990 6 15))).
  - reflexivity.
  - reflexivity.
  - simpl. left. reflexivity.
  - reflexivity.
  - reflexivity.
  - reflexivity.
Defined.

(** ** The order of the list *)

Lemma string_leb_strftime a b :
  valid_date a -> valid_date b ->
  String.leb (strftime a "%Y.%m.%d") (strftime b "%Y.%m.%d") = date_leb a b.
Proof.
  intros Va Vb. unfold String.leb, date_leb.
  by rewrite strftime_Ymd_compare.
Qed.

Lemma sorted_texts_sorted_dates (l : list upcoming) :
  StronglySorted (key_le congratulation_date) l ->
  Forall (fun u => exists d, valid_date d /\
            congratulation_date u = strftime d "%Y.%m.%d") l ->
  exists ds,
    map congratulation_date l = map (fun d => strftime d "%Y.%m.%d") ds /\
    Forall valid_date ds /\
    StronglySorted (fun a b => date_leb a b = true) ds.
Proof.
  induction 1 as [|u l S IH F]; intros Hd.
  - exists []. repeat split; constructor.
  - apply Forall_cons_iff in Hd as [(d & Vd & Ed) Hd].
    destruct (IH Hd) as (ds & Em & Vs & Ss).
    exists (d :: ds). simpl. rewrite Ed, Em. split; [done|].
    split; [by constructor|]. constructor; [done|].
    apply List.Forall_forall. intros d' Hin.
    assert (Hin' : In (strftime d' "%Y.%m.%d") (map congratulation_date l))
      by (rewrite Em; by apply (in_map (fun d => strftime d "%Y.%m.%d"))).
    apply in_map_iff in Hin' as (u' & Eu' & Hu').
    pose proof (proj1 (List.Forall_forall _ _) F u' Hu') as L.
    unfold key_le in L. rewrite Ed, Eu' in L.
    rewrite <- string_leb_strftime; [done..|].
    by apply (proj1 (List.Forall_forall _ _) Vs).
Qed.

(** C6. The list comes back sorted by the text of the congratulation
    date; the texts are those of valid dates, which are then in calendar
    order as well. *)
Theorem upcoming_sorted book today days_ahead res :
  AddressBook.get_upcoming_birthdays book today days_ahead = Ok res ->
  StronglySorted
    (fun u v => String.leb (congratulation_date u) (congratulation_date v) = true)
    res /\
  exists ds,
    map congratulation_date res = map (fun d => strftime d "%Y.%m.%d") ds /\
    Forall valid_date ds /\
    StronglySorted (fun a b => date_leb a b = true) ds.
Proof.
  intros H. pose proof H as H0.
  apply get_upcoming_birthdays_Ok in H0 as (end_day & ls & He & _ & E).
  assert (S : StronglySorted (key_le congratulation_date) res)
    by (rewrite E; apply sort_by_sorted).
  split; [exact S|]. apply sorted_texts_sorted_dates; [exact S|].
  apply List.Forall_forall. intros u Hu.
  apply (get_upcoming_birthdays_In _ _ _ _ _ _ H He) in Hu
    as (k & rec & _ & b & c & cd & _ & Hc & _ & Hcd & ->).
  pose proof (candidate_date_Ok _ _ _ Hc) as (V & _).
  apply (congr_date_spec c cd V) in Hcd as [Vcd _].
  exists cd. auto.
Qed.

Lemma upcoming_sorted_witness :
  AddressBook.get_upcoming_birthdays week_book june_today None = Ok week_result /\
  StronglySorted
    (fun u v => String.leb (congratulation_date u) (congratulation_date v) = true)
    week_result /\
  exists ds,
    map congratulation_date week_result =
      map (fun d => strftime d "%Y.%m.%d") ds /\
    Forall valid_date ds /\
    StronglySorted (fun a b => date_leb a b = true) ds.
Proof.
  assert (R : AddressBook.get_upcoming_birthdays week_book june_today None =
              Ok week_result) by reflexivity.
  split; [exact R|].
  exact (upcoming_sorted week_book june_today None week_result R).
Defined.

(** ** The collection *)

Section DictUpdates.
Context {V : Type}.
Implicit Types (d : pydict.dict V) (k : string) (v : V).

Lemma set_In k v d k' v' :
  In (k', v') (pydict.set k v d) -> (k' = k /\ v' = v) \/ In (k', v') d.
Proof.
  induction d as [|[k0 v0] d IH]; simpl.
  - intros [[= <- <-]|[]]. auto.
  - destruct (String.eqb_spec k0 k) as [->|N]; simpl.
    + intros [[= <- <-]|H]; auto.
    + intros [E|H]; [auto|]. destruct (IH H); auto.
Qed.

Lemma set_keys k v d :
  pydict.keys (pydict.set k v d) =
  if pydict.contains k d then pydict.keys d else (pydict.keys d ++ [k])%list.
Proof.
  unfold pydict.contains. induction d as [|[k0 v0] d IH]; simpl; [done|].
  destruct (String.eqb_spec k0 k) as [->|N]; simpl; [done|].
  rewrite IH. by destruct (pydict.get k d).
Qed.

Lemma set_NoDup k v d :
  List.NoDup (pydict.keys d) -> List.NoDup (pydict.keys (pydict.set k v d)).
Proof.
  intros N. rewrite set_keys. unfold pydict.contains.
  destruct (pydict.get k d) eqn:G; [done|].
  apply get_None in G. apply List.NoDup_app; [done | |].
  - repeat constructor. by intros [].
  - intros x Hx [<-|[]]. contradiction.
Qed.

Lemma del_absent k d : pydict.get k d = None -> pydict.del k d = d.
Proof.
  induction d as [|[k0 v0] d IH]; simpl; [done|].
  destruct (String.eqb_spec k0 k); [discriminate|].
  intros H. by rewrite IH.
Qed.

Lemma del_present k v d :
  pydict.get k d = Some v ->
  exists l1 l2, d = (l1 ++ (k, v) :: l2)%list /\
                pydict.del k d = (l1 ++ l2)%list /\
                ~ In k (pydict.keys l1).
Proof.
  induction d as [|[k0 v0] d IH]; simpl; [discriminate|].
  destruct (String.eqb_spec k0 k) as [->|N].
  - intros [= ->]. exists [], d. simpl. auto.
  - intros H. destruct (IH H) as (l1 & l2 & -> & E & Hn).
    exists ((k0, v0) :: l1), l2. simpl. rewrite E.
    split; [done|]. split; [done|]. intros [?|?]; [congruence | contradiction].
Qed.

Lemma del_In k d k' v' : In (k', v') (pydict.del k d) -> In (k', v') d.
Proof.
  induction d as [|[k0 v0] d IH]; simpl; [done|].
  destruct (String.eqb_spec k0 k); simpl; [auto|].
  intros [E|H]; auto.
Qed.

Lemma del_NoDup k d :
  List.NoDup (pydict.keys d) -> List.NoDup (pydict.keys (pydict.del k d)).
Proof.
  induction d as [|[k0 v0] d IH]; simpl; [done|].
  intros N. apply List.NoDup_cons_iff in N as [N1 N2].
  destruct (String.eqb_spec k0 k); simpl; [done|].
  apply List.NoDup_cons_iff. split; [|by apply IH].
  intros H. apply N1. unfold pydict.keys in *.
  apply in_map_iff in H as ([k1 v1] & E & H). simpl in E. subst k1.
  apply del_In in H. by apply (In_keys _ v1).
Qed.

Lemma get_del_same k d :
  List.NoDup (pydict.keys d) -> pydict.get k (pydict.del k d) = None.
Proof.
  induction d as [|[k0 v0] d IH]; simpl; [done|].
  intros N. apply List.NoDup_cons_iff in N as [N1 N2].
  destruct (String.eqb_spec k0 k) as [->|Hne]; simpl.
  - by apply get_None.
  - destruct (String.eqb_spec k0 k); [done | by apply IH].
Qed.

Lemma get_del_other k n d :
  n <> k -> pydict.get n (pydict.del k d) = pydict.get n d.
Proof.
  intros Hne. induction d as [|[k0 v0] d IH]; simpl; [done|].
  destruct (String.eqb_spec k0 k) as [->|N]; simpl.
  - destruct (String.eqb_spec k n); [congruence | done].
  - by rewrite IH.
Qed.

End DictUpdates.

Lemma book_invariant_empty : book_invariant AddressBook.empty.
Proof. split; [constructor | intros k r []]. Qed.

Lemma book_invariant_step book o :
  book_invariant book -> book_invariant (run_op book o).
Proof.
  intros [Hd Hn]. destruct o as [record|name|name]; simpl.
  - split.
    + by apply set_NoDup.
    + intros k r H. apply set_In in H as [[-> ->]|H]; [done | by apply Hn].
  - by split.
  - unfold AddressBook.delete.
    destruct (pydict.contains name (AddressBook.data book)); [|by split].
    split.
    + by apply del_NoDup.
    + intros k r H. apply del_In in H. by apply Hn.
Qed.

Lemma book_invariant_names book : book_invariant book -> names_distinct book.
Proof.
  intros [Hd Hn]. unfold names_distinct, keys_distinct, keys_are_names in *.
  replace (map (fun r => value (Record.name r))
             (pydict.values (AddressBook.data book)))
    with (pydict.keys (AddressBook.data book)); [done|].
  unfold pydict.keys, pydict.values. rewrite map_map.
  apply map_ext_in. intros [k r] H. simpl. by apply Hn.
Qed.

(** C8. The empty book files every record under its name, one record a
    name, and so does every book that [add_record], [find] and [delete]
    make from a book that does. *)
Theorem book_invariant_preserved :
  book_invariant AddressBook.empty /\
  forall book ops,
    book_invariant book ->
    let book' := run_ops book ops in
    (forall k r, In (k, r) (AddressBook.data book') -> k = value (Record.name r)) /\
    List.NoDup (pydict.keys (AddressBook.data book')) /\
    names_distinct book' /\
    (forall k r, AddressBook.find book' k = Some r -> value (Record.name r) = k).
Proof.
  split; [apply book_invariant_empty|].
  intros book ops H.
  assert (I : book_invariant (run_ops book ops)).
  { unfold run_ops. revert book H.
    induction ops as [|o ops IH]; intros book H; simpl; [done|].
    apply IH. by apply book_invariant_step. }
  cbv zeta. split; [apply I|]. split; [apply I|].
  split; [by apply book_invariant_names|].
  intros k r F. apply get_In in F. symmetry. by apply I.
Qed.

Lemma book_invariant_preserved_witness :
  book_invariant AddressBook.empty /\
  AddressBook.data sample_run = [("A", contact "A" (Some (mkdate 1990 6 15)))] /\
  (forall k r, In (k, r) (AddressBook.data sample_run) ->
     k = value (Record.name r)) /\
  List.NoDup (pydict.keys (AddressBook.data sample_run)) /\
  names_distinct sample_run /\
  (forall k r, AddressBook.find sample_run k = Some r ->
     value (Record.name r) = k).
Proof.
  split; [exact (proj1 book_invariant_preserved)|].
  split; [reflexivity|].
  exact (proj2 book_invariant_preserved AddressBook.empty _
           (proj1 book_invariant_preserved)).
Defined.

(** C9. [delete] of a name that is no key gives the book back as it was;
    [delete] of a key takes that one entry out and leaves the others, in
    their order, with the records they had. *)
Theorem delete_frame book name :
  (AddressBook.find book name = None -> AddressBook.delete book name = book) /\
  (forall rec,
     keys_distinct book ->
     AddressBook.find book name = Some rec ->
     let book' := AddressBook.delete book name in
     (exists l1 l2,
        AddressBook.data book = (l1 ++ (name, rec) :: l2)%list /\
        AddressBook.data book' = (l1 ++ l2)%list) /\
     length (AddressBook.data book) = S (length (AddressBook.data book')) /\
     AddressBook.find book' name = None /\
     (forall n, n <> name -> AddressBook.find book' n = AddressBook.find book n)).
Proof.
  unfold AddressBook.find, AddressBook.delete, pydict.contains. split.
  - intros ->. done.
  - intros rec Hd F. rewrite F. cbv zeta. simpl.
    destruct (del_present _ _ _ F) as (l1 & l2 & E1 & E2 & _).
    split; [eauto|]. split.
    + rewrite E2, E1, !length_app. simpl. lia.
    + split; [by apply get_del_same|]. intros n Hn. by apply get_del_other.
Qed.

Lemma delete_frame_witness :
  AddressBook.delete june_book "Z" = june_book /\
  (exists l1 l2,
     AddressBook.data june_book =
       (l1 ++ ("B", contact "B" (Some (mkdate 1991 6 20))) :: l2)%list /\
     AddressBook.data june_book_less_B = (l1 ++ l2)%list) /\
  length (AddressBook.data june_book) =
    S (length (AddressBook.data june_book_less_B)) /\
  AddressBook.find june_book_less_B "B" = None /\
  (forall n, n <> "B" ->
     AddressBook.find june_book_less_B n = AddressBook.find june_book n).
Proof.
  split.
  - apply (proj1 (delete_frame june_book "Z")). reflexivity.
  - apply (proj2 (delete_frame june_book "B")).
    + unfold keys_distinct. simpl. repeat constructor; simpl; intuition discriminate.
    + reflexivity.
Defined.

(** ** Stripping and digits *)

Lemma isdecimal_not_space c : isdecimal_char c = true -> isspace_char c = false.
Proof.
  unfold isdecimal_char, isspace_char. intros H.
  apply andb_prop in H as [H1 H2]. apply Z.leb_le in H1, H2.
  repeat match goal with
         | |- context [?a <=? ?b] => destruct (Z.leb_spec a b)
         | |- context [?a =? ?b] => destruct (Z.eqb_spec a b)
         end; simpl; try reflexivity; lia.
Qed.

Lemma isdecimal_isdigit c : isdecimal_char c = true -> isdigit_char c = true.
Proof. unfold isdigit_char. by intros ->. Qed.

Lemma all_chars_impl (p q : ascii -> bool) s :
  (forall c, p c = true -> q c = true) ->
  all_chars p s = true -> all_chars q s = true.
Proof.
  intros Hpq. induction s as [|c s IH]; simpl; [done|].
  intros H. apply andb_prop in H as [H1 H2]. by rewrite (Hpq c H1), IH.
Qed.

Lemma all_chars_app p s t :
  all_chars p (s ++ t) = all_chars p s && all_chars p t.
Proof.
  induction s as [|c s IH]; simpl; [done|]. by rewrite IH, andb_assoc.
Qed.

Lemma lstrip_whitespace ws s : all_whitespace ws -> lstrip (ws ++ s) = lstrip s.
Proof.
  unfold all_whitespace. induction ws as [|c ws IH]; simpl; [done|].
  intros H. apply andb_prop in H as [-> H]. by apply IH.
Qed.

(** Text without white space in it is not stripped. *)
Lemma rstrip_no_space s :
  all_chars (fun c => negb (isspace_char c)) s = true -> rstrip s = s.
Proof.
  induction s as [|c s IH]; simpl; [done|].
  intros H. apply andb_prop in H as [H1 H2]. rewrite (IH H2).
  apply negb_true_iff in H1. rewrite H1. by destruct s.
Qed.

Lemma lstrip_no_space s :
  all_chars (fun c => negb (isspace_char c)) s = true -> lstrip s = s.
Proof.
  destruct s as [|c s]; simpl; [done|].
  intros H. apply andb_prop in H as [H1 _].
  apply negb_true_iff in H1. by rewrite H1.
Qed.

Lemma strip_no_space s :
  all_chars (fun c => negb (isspace_char c)) s = true -> strip s = s.
Proof.
  intros H. unfold strip. by rewrite lstrip_no_space, rstrip_no_space.
Qed.

Lemma rstrip_all_whitespace ws : all_whitespace ws -> rstrip ws = "".
Proof.
  unfold all_whitespace. induction ws as [|c ws IH]; simpl; [done|].
  intros H. apply andb_prop in H as [-> H]. by rewrite IH.
Qed.

Lemma rstrip_whitespace s ws : all_whitespace ws -> rstrip (s ++ ws) = rstrip s.
Proof.
  intros H. induction s as [|c s IH]; simpl.
  - by apply rstrip_all_whitespace.
  - by rewrite IH.
Qed.

Lemma lstrip_rstrip_empty ws : all_whitespace ws -> rstrip (lstrip ws) = "".
Proof.
  unfold all_whitespace. induction ws as [|c ws IH]; simpl; [done|].
  intros H. apply andb_prop in H as [-> H]. by apply IH.
Qed.

Lemma strip_whitespace ws1 s ws2 :
  all_whitespace ws1 -> all_whitespace ws2 ->
  all_chars (fun c => negb (isspace_char c)) s = true ->
  strip (ws1 ++ s ++ ws2) = s.
Proof.
  intros H1 H2 Hs. unfold strip. rewrite lstrip_whitespace by done.
  destruct s as [|c s].
  - simpl. rewrite (lstrip_rstrip_empty ws2); done.
  - replace (lstrip (String c s ++ ws2)) with (String c s ++ ws2)%string.
    + rewrite rstrip_whitespace by done. by apply rstrip_no_space.
    + simpl in *. apply andb_prop in Hs as [Hc _].
      apply negb_true_iff in Hc. by rewrite Hc.
Qed.

Lemma ten_digits_facts s :
  ten_decimal_digits s ->
  all_chars (fun c => negb (isspace_char c)) s = true /\
  isdigit s = true /\ len s = 10.
Proof.
  intros [L D]. split; [|split].
  - eapply all_chars_impl; [|exact D].
    intros c Hc. by rewrite (isdecimal_not_space c Hc).
  - unfold isdigit. destruct s; [discriminate|].
    eapply all_chars_impl; [|exact D]. apply isdecimal_isdigit.
  - unfold len. rewrite L. reflexivity.
Qed.

Lemma Phone_init_stripped s v :
  strip s = v -> isdigit v = true -> len v = 10 ->
  Phone_init (PyStr s) = Ok (mkField v).
Proof.
  intros E D L. unfold Phone_init. simpl. rewrite E, D, L. reflexivity.
Qed.

Lemma Phone_init_cases s :
  (Phone_init (PyStr s) = Ok (mkField (strip s)) /\
   String.length (strip s) = 10%nat /\
   all_chars isdigit_char (strip s) = true) \/
  (Phone_init (PyStr s) =
     Raise (ValueError "Phone must contain exactly 10 digits.") /\
   ~ (String.length (strip s) = 10%nat /\
      all_chars isdigit_char (strip s) = true)).
Proof.
  unfold Phone_init. simpl.
  destruct (isdigit (strip s)) eqn:D; simpl.
  - destruct (Z.eqb_spec (len (strip s)) 10) as [L|L]; simpl.
    + left. split; [done|]. split; [unfold len in L; lia|].
      unfold isdigit in D. by destruct (strip s).
    + right. split; [done|]. intros [L' _]. apply L. unfold len. by rewrite L'.
  - right. split; [done|]. intros [L' D']. unfold isdigit in D.
    destruct (strip s); [discriminate L' | congruence].
Qed.

(** Ten digits for [isdigit] are ten decimal digits or have a digit that
    is not decimal among them. *)
Lemma ten_digits_split v :
  String.length v = 10%nat -> all_chars isdigit_char v = true ->
  ten_decimal_digits v \/ ten_digits_not_all_decimal v.
Proof.
  intros L D. destruct (all_chars isdecimal_char v) eqn:E.
  - left. by split.
  - right. by repeat split.
Qed.

(** C4, as the program has it. A string of exactly ten decimal digits
    makes a [Phone] with that value. White space around the text is
    stripped before the test: a text that is ten decimal digits once
    stripped, ten digits with white space around them, makes a [Phone]
    as well, with the stripped text as value. A text that is not ten
    decimal digits once stripped raises the [ValueError] of the phone, and
    the value of a [Phone] is always the stripped text. The texts left
    aside are those whose stripped form is ten digits with a digit that
    is not decimal among them. *)
Theorem phone_validation :
  (forall s, ten_decimal_digits s -> Phone_init (PyStr s) = Ok (mkField s)) /\
  (forall ws1 s ws2,
     all_whitespace ws1 -> all_whitespace ws2 -> ten_decimal_digits s ->
     Phone_init (PyStr (ws1 ++ s ++ ws2)) = Ok (mkField s)) /\
  (forall s,
     ten_decimal_digits (strip s) ->
     Phone_init (PyStr s) = Ok (mkField (strip s))) /\
  (forall s,
     ~ ten_decimal_digits (strip s) ->
     ~ ten_digits_not_all_decimal (strip s) ->
     Phone_init (PyStr s) =
     Raise (ValueError "Phone must contain exactly 10 digits.")) /\
  (forall s p,
     Phone_init (PyStr s) = Ok p ->
     value p = strip s /\
     (ten_decimal_digits (strip s) \/ ten_digits_not_all_decimal (strip s))).
Proof.
  split; [|split; [|split; [|split]]].
  - intros s H. destruct (ten_digits_facts s H) as (Hs & D & L).
    apply Phone_init_stripped; [by apply strip_no_space | done..].
  - intros ws1 s ws2 H1 H2 H. destruct (ten_digits_facts s H) as (Hs & D & L).
    apply Phone_init_stripped; [by apply strip_whitespace | done..].
  - intros s H. destruct (ten_digits_facts _ H) as (_ & D & L).
    by apply Phone_init_stripped.
  - intros s N1 N2. destruct (Phone_init_cases s) as [(_ & L & D)|[E _]]; [|done].
    destruct (ten_digits_split _ L D); contradiction.
  - intros s p E. destruct (Phone_init_cases s) as [(E' & L & D)|[E' _]].
    + rewrite E' in E. injection E as <-. split; [done|].
      by apply ten_digits_split.
    + rewrite E' in E. discriminate E.
Qed.

Lemma phone_validation_witness :
  Phone_init (PyStr "0123456789") = Ok (mkField "0123456789") /\
  Phone_init (PyStr ("  " ++ "0123456789" ++ " ")) = Ok (mkField "0123456789") /\
  Phone_init (PyStr " 0123456789") = Ok (mkField (strip " 0123456789")) /\
  Phone_init (PyStr "12345") =
    Raise (ValueError "Phone must contain exactly 10 digits.") /\
  Phone_init (PyStr "12345678a0") =
    Raise (ValueError "Phone must contain exactly 10 digits.").
Proof.
  assert (T : ten_decimal_digits "0123456789") by (split; reflexivity).
  split; [|split; [|split; [|split]]].
  - exact (proj1 phone_validation "0123456789" T).
  - apply (proj1 (proj2 phone_validation) "  " "0123456789" " ");
      [reflexivity | reflexivity | exact T].
  - exact (proj1 (proj2 (proj2 phone_validation)) " 0123456789" T).
  - apply (proj1 (proj2 (proj2 (proj2 phone_validation))) "12345").
    + intros [H _]. discriminate H.
    + intros [H _]. discriminate H.
  - apply (proj1 (proj2 (proj2 (proj2 phone_validation))) "12345678a0").
    + intros [_ H]. discriminate H.
    + intros (_ & H & _). discriminate H.
Defined.

(** C4 as stated fails: ten digits after a space are not ten decimal
    digits, and they make a [Phone]. *)
Lemma phone_accepts_surrounding_whitespace :
  ~ ten_decimal_digits " 1234567890" /\
  Phone_init (PyStr " 1234567890") = Ok (mkField "1234567890").
Proof. split; [intros [H _]; discriminate H | reflexivity]. Qed.

(** ** Editing a phone *)

Lemma edit_phone_from_match self old new k ps i :
  first_match old ps i ->
  Record.edit_phone_from self old new k ps =
  match Phone_init new with
  | Ok q => (Ok true, Record.set_phones self (<[(k + i)%nat := q]> (Record.phones self)))
  | Raise e => (Raise e, self)
  end.
Proof.
  revert k i. induction ps as [|p ps IH]; intros k i [(p0 & Hp & Hm) Hfirst].
  - by destruct i.
  - simpl. destruct i as [|i].
    + simpl in Hp. injection Hp as ->. rewrite Hm, Nat.add_0_r. reflexivity.
    + rewrite (Hfirst 0%nat p) by (simpl; first [lia | done]).
      rewrite (IH (S k) i).
      * replace (S k + i)%nat with (k + S i)%nat by lia. reflexivity.
      * split; [by exists p0|].
        intros j q Hj Hq. apply (Hfirst (S j) q); [lia | done].
Qed.

Lemma edit_phone_from_no_match self old new k ps :
  no_match old ps ->
  Record.edit_phone_from self old new k ps = (Ok false, self).
Proof.
  revert k. induction ps as [|p ps IH]; intros k H; simpl; [done|].
  rewrite (H p) by (by left). apply IH. intros q Hq. apply H. by right.
Qed.

(** C5, as the program has it. When some phone has the value [old], the
    first of them is replaced, at its place, by the [Phone] made from
    [new], and the method returns [True]; when [Phone(new)] raises there,
    the exception goes to the caller and the record is as before. When no
    phone has the value [old] the method returns [False] and the record
    is as before, whatever [new] is: [new] is validated only once a match
    is found. *)
Theorem edit_phone_spec self old new :
  (forall i q,
     first_match old (Record.phones self) i ->
     Phone_init new = Ok q ->
     exists ps',
       Record.edit_phone self old new = (Ok true, Record.set_phones self ps') /\
       length ps' = length (Record.phones self) /\
       ps' !! i = Some q /\
       (forall j, j <> i -> ps' !! j = Record.phones self !! j)) /\
  (forall i e,
     first_match old (Record.phones self) i ->
     Phone_init new = Raise e ->
     Record.edit_phone self old new = (Raise e, self)) /\
  (no_match old (Record.phones self) ->
   Record.edit_phone self old new = (Ok false, self)).
Proof.
  unfold Record.edit_phone. split; [|split].
  - intros i q Hm Hq. rewrite (edit_phone_from_match _ _ _ _ _ _ Hm), Hq. simpl.
    exists (<[i:=q]> (Record.phones self)). split; [done|].
    destruct Hm as [(p & Hp & _) _]. apply lookup_lt_Some in Hp.
    split; [apply length_insert|]. split.
    + by apply list_lookup_insert_eq.
    + intros j Hj. by apply list_lookup_insert_ne.
  - intros i e Hm He. by rewrite (edit_phone_from_match _ _ _ _ _ _ Hm), He.
  - apply edit_phone_from_no_match.
Qed.

Lemma edit_phone_spec_witness :
  (exists ps',
     Record.edit_phone two_phones (PyStr "5555555555") (PyStr " 0987654321") =
       (Ok true, Record.set_phones two_phones ps') /\
     length ps' = 2%nat /\
     ps' !! 1%nat = Some (mkField "0987654321") /\
     (forall j, j <> 1%nat -> ps' !! j = Record.phones two_phones !! j)) /\
  Record.edit_phone two_phones (PyStr "5555555555") (PyStr "12") =
    (Raise (ValueError "Phone must contain exactly 10 digits."), two_phones) /\
  Record.edit_phone two_phones (PyStr "0000000000") (PyStr "12") =
    (Ok false, two_phones).
Proof.
  assert (M : first_match (PyStr "5555555555") (Record.phones two_phones) 1).
  { split.
    - exists (mkField "5555555555"). split; reflexivity.
    - intros j q Hj. assert (j = 0%nat) as -> by lia. by intros [= <-]. }
  split; [|split].
  - exact (proj1 (edit_phone_spec two_phones (PyStr "5555555555")
                    (PyStr " 0987654321")) 1%nat (mkField "0987654321") M eq_refl).
  - exact (proj1 (proj2 (edit_phone_spec two_phones (PyStr "5555555555")
                           (PyStr "12"))) 1%nat _ M eq_refl).
  - apply (proj2 (proj2 (edit_phone_spec two_phones (PyStr "0000000000")
                           (PyStr "12")))).
    intros p [<-|[<-|[]]]; reflexivity.
Defined.

(** C5 as stated fails: with no phone equal to the old text, a new text
    that [Phone] rejects raises nothing; the method returns [False]. *)
Lemma edit_phone_skips_validation_without_match :
  Phone_init (PyStr "12") =
    Raise (ValueError "Phone must contain exactly 10 digits.") /\
  Record.edit_phone one_phone (PyStr "0000000000") (PyStr "12") =
    (Ok false, one_phone).
Proof. split; reflexivity. Qed.

(** ** Parsing a birthday *)

Lemma digit_cases n : 0 <= n <= 9 -> In n [0; 1; 2; 3; 4; 5; 6; 7; 8; 9].
Proof. simpl. lia. Qed.

Ltac each_digit H :=
  apply digit_cases in H; simpl in H;
  repeat (destruct H as [H | H]); [subst.. | destruct H].

Lemma digit_char_facts n :
  0 <= n <= 9 ->
  isdecimal_char (digit_char n) = true /\ digit_val (digit_char n) = n /\
  isspace_char (digit_char n) = false.
Proof. intros H. each_digit H; repeat split. Qed.

Lemma re_d_dot_digits a b r :
  0 <= a <= 9 -> 0 <= b <= 9 ->
  re_d_dot (String (digit_char a) (String (digit_char b) (String "." r))) =
  if (1 <=? 10 * a + b) && (10 * a + b <=? 31) then [(10 * a + b, r)] else [].
Proof. intros Ha Hb. each_digit Ha; each_digit Hb; reflexivity. Qed.

Lemma re_m_dot_digits a b r :
  0 <= a <= 9 -> 0 <= b <= 9 ->
  re_m_dot (String (digit_char a) (String (digit_char b) (String "." r))) =
  if (1 <=? 10 * a + b) && (10 * a + b <=? 12) then [(10 * a + b, r)] else [].
Proof. intros Ha Hb. each_digit Ha; each_digit Hb; reflexivity. Qed.

Lemma re_Y_digits a b c e r :
  0 <= a <= 9 -> 0 <= b <= 9 -> 0 <= c <= 9 -> 0 <= e <= 9 ->
  re_Y (String (digit_char a) (String (digit_char b)
          (String (digit_char c) (String (digit_char e) r)))) =
  [(1000 * a + 100 * b + 10 * c + e, r)].
Proof.
  intros Ha Hb Hc He. unfold re_Y.
  destruct (digit_char_facts a Ha) as (-> & -> & _).
  destruct (digit_char_facts b Hb) as (-> & -> & _).
  destruct (digit_char_facts c Hc) as (-> & -> & _).
  destruct (digit_char_facts e He) as (-> & -> & _).
  reflexivity.
Qed.

Lemma pad2_digits a b :
  0 <= a <= 9 -> 0 <= b <= 9 -> pad2 (10 * a + b) = digits [a; b].
Proof.
  intros Ha Hb. unfold pad2, digits. simpl.
  replace ((10 * a + b) / 10 mod 10) with a by (Z.div_mod_to_equations; lia).
  replace ((10 * a + b) mod 10) with b by (Z.div_mod_to_equations; lia).
  reflexivity.
Qed.

Lemma pad4_digits a b c e :
  0 <= a <= 9 -> 0 <= b <= 9 -> 0 <= c <= 9 -> 0 <= e <= 9 ->
  pad4 (1000 * a + 100 * b + 10 * c + e) = digits [a; b; c; e].
Proof.
  intros Ha Hb Hc He. unfold pad4, pad2, digits. simpl.
  set (n := 1000 * a + 100 * b + 10 * c + e).
  replace (n / 1000 mod 10) with a by (unfold n; Z.div_mod_to_equations; lia).
  replace (n / 100 mod 10) with b by (unfold n; Z.div_mod_to_equations; lia).
  replace (n / 10 mod 10) with c by (unfold n; Z.div_mod_to_equations; lia).
  replace (n mod 10) with e by (unfold n; Z.div_mod_to_equations; lia).
  reflexivity.
Qed.

Lemma strptime_error s e : strptime s = Raise e -> exists msg, e = ValueError msg.
Proof.
  unfold strptime. destruct (re_match s) as [[[[d m'] y] rest]|].
  - destruct rest; [apply date_new_error | intros [= <-]; eauto].
  - intros [= <-]; eauto.
Qed.

(** A text in the form [DD.MM.YYYY] is not stripped, renders from its
    date, and parses to what [date] makes of its three numbers. *)
Lemma DDMMYYYY_text_facts t dt :
  DDMMYYYY_text t dt ->
  strip t = t /\
  strftime dt "%d.%m.%Y" = t /\
  (1 <= day dt <= 31 /\ 1 <= month dt <= 12 ->
   strptime t = date_new (year dt) (month dt) (day dt)) /\
  (~ (1 <= day dt <= 31 /\ 1 <= month dt <= 12) ->
   exists msg, strptime t = Raise (ValueError msg)).
Proof.
  intros (d1 & d2 & m1 & m2 & y1 & y2 & y3 & y4 & F & -> & Hd & Hm & Hy).
  repeat match goal with
         | H : Forall _ (_ :: _) |- _ => apply Forall_cons_iff in H as [? H]
         end.
  split; [|split; [|split]].
  - apply strip_no_space. simpl.
    repeat match goal with
           | H : 0 <= ?n <= 9 |- context [isspace_char (digit_char ?n)] =>
               rewrite (proj2 (proj2 (digit_char_facts n H)))
           end.
    reflexivity.
  - rewrite strftime_dmY, Hd, Hm, Hy, !pad2_digits, pad4_digits by done.
    reflexivity.
  - intros [D M]. unfold strptime, re_match. simpl digits. cbn [String.append].
    rewrite re_d_dot_digits by done. rewrite <- Hd.
    destruct (Z.leb_spec 1 (day dt)), (Z.leb_spec (day dt) 31); try lia.
    cbn [andb mbind list_bind]. rewrite re_m_dot_digits by done. rewrite <- Hm.
    destruct (Z.leb_spec 1 (month dt)), (Z.leb_spec (month dt) 12); try lia.
    cbn [andb mbind list_bind]. rewrite re_Y_digits by done. rewrite <- Hy.
    reflexivity.
  - intros N. unfold strptime, re_match. simpl digits. cbn [String.append].
    rewrite re_d_dot_digits by done. rewrite <- Hd.
    destruct (Z.leb_spec 1 (day dt)), (Z.leb_spec (day dt) 31);
      cbn [andb mbind list_bind]; eauto.
    rewrite re_m_dot_digits by done. rewrite <- Hm.
    destruct (Z.leb_spec 1 (month dt)), (Z.leb_spec (month dt) 12);
      cbn [andb mbind list_bind]; eauto.
    lia.
Qed.

Lemma Birthday_init_text t :
  Birthday_init (PyStr t) =
  match strptime (strip t) with
  | Ok dt => Ok (mkField dt)
  | Raise _ => Raise (ValueError "Invalid date format. Use DD.MM.YYYY")
  end.
Proof.
  unfold Birthday_init. simpl.
  destruct (strptime (strip t)) as [dt|e] eqn:E; [done|].
  by destruct (strptime_error _ _ E) as (msg & ->).
Qed.

Lemma Birthday_init_DDMMYYYY t dt :
  DDMMYYYY_text t dt -> valid_date dt ->
  Birthday_init (PyStr t) = Ok (mkField dt).
Proof.
  intros Ht V. destruct (DDMMYYYY_text_facts t dt Ht) as (Es & _ & Ep & _).
  rewrite Birthday_init_text, Es, Ep, (date_new_valid dt V); [done|].
  destruct V as (_ & Hm & Hd).
  pose proof (days_in_month_bounds (year dt) (month dt) Hm). lia.
Qed.

Lemma DDMMYYYY_text_length t dt :
  DDMMYYYY_text t dt -> String.length t = 10%nat /\ 0 <= year dt <= 9999.
Proof.
  intros (d1 & d2 & m1 & m2 & y1 & y2 & y3 & y4 & F & -> & _ & _ & Hy).
  split; [reflexivity|].
  repeat match goal with
         | H : Forall _ (_ :: _) |- _ => apply Forall_cons_iff in H as [? H]
         end.
  lia.
Qed.

(** The rendering of a date gives back its text in the form [DD.MM.YYYY]
    from the year 1000 on, and a shorter text before. *)
Lemma libc_strftime_DDMMYYYY t dt :
  DDMMYYYY_text t dt ->
  (1000 <= year dt -> libc_strftime dt "%d.%m.%Y" = t) /\
  (year dt < 1000 -> libc_strftime dt "%d.%m.%Y" <> t).
Proof.
  intros Ht. destruct (DDMMYYYY_text_facts t dt Ht) as (_ & Er & _).
  destruct (DDMMYYYY_text_length t dt Ht) as [L Y]. split.
  - intros H. by rewrite libc_strftime_from_1000.
  - intros H E. apply (f_equal String.length) in E.
    rewrite libc_strftime_dmY_length, L in E.
    pose proof (year_text_below_1000 (year dt)). lia.
Qed.

(** C7. The text is lost for a birthday before the year 1000.
    ["01.01.0999"] has the form [DD.MM.YYYY] and names 1 January 999, a
    date of the calendar; [Birthday] takes it and holds that date. The
    date is rendered ["01.01.999"], by [strftime], in the line of the
    record and by [show-birthday]: not the text that was given, and a text
    that [Birthday] itself refuses. *)
Theorem birthday_of_999_is_not_rendered_back :
  DDMMYYYY_text early_text early_date /\
  valid_date early_date /\
  Birthday_init (PyStr early_text) = Ok (mkField early_date) /\
  libc_strftime early_date "%d.%m.%Y" = "01.01.999" /\
  Record.str early_contact =
    "Contact name: Al, phones: -, birthday: 01.01.999" /\
  fst (commands.show_birthday ["Al"]
         (snd (commands.add_birthday ["Al"; early_text] AddressBook.empty))) =
    "01.01.999" /\
  "01.01.999" <> early_text /\
  Birthday_init (PyStr "01.01.999") =
    Raise (ValueError "Invalid date format. Use DD.MM.YYYY").
Proof.
  split; [|split; [|repeat split]].
  - exists 0, 1, 0, 1, 0, 9, 9, 9.
    split; [repeat constructor; lia|]. repeat split.
  - repeat split; vm_compute; discriminate.
  - discriminate.
Qed.

(** * Further properties of the program *)

(** ** Stripped text *)

Lemma lstrip_head s :
  lstrip s = EmptyString \/
  exists c r, lstrip s = String c r /\ isspace_char c = false.
Proof.
  induction s as [|c s IH]; simpl; [by left|].
  destruct (isspace_char c) eqn:E; [exact IH|]. right. eauto.
Qed.

Lemma rstrip_idem s : rstrip (rstrip s) = rstrip s.
Proof.
  induction s as [|c s IH]; simpl; [done|].
  destruct (rstrip s) as [|c' r] eqn:E.
  - destruct (isspace_char c) eqn:Ec; simpl; [done|]. by rewrite Ec.
  - change (rstrip (String c (String c' r)))
      with (match rstrip (String c' r) with
            | EmptyString =>
                if isspace_char c then EmptyString else String c EmptyString
            | String a r0 => String c (String a r0)
            end).
    rewrite IH. reflexivity.
Qed.

Lemma rstrip_head c s :
  isspace_char c = false -> exists r, rstrip (String c s) = String c r.
Proof.
  intros Ec. simpl. destruct (rstrip s); [rewrite Ec|]; eauto.
Qed.

(** Stripping twice is stripping once. *)
Lemma strip_idem s : strip (strip s) = strip s.
Proof.
  unfold strip. destruct (lstrip_head s) as [E|(c & r & E & Ec)]; rewrite E.
  - reflexivity.
  - destruct (rstrip_head c r Ec) as (r' & E').
    assert (L : lstrip (rstrip (String c r)) = rstrip (String c r)).
    { rewrite E'. simpl. by rewrite Ec. }
    rewrite L. apply rstrip_idem.
Qed.

(** ** Names and phones *)

Lemma Name_init_Ok v n :
  Name_init v = Ok n ->
  exists s, v = PyStr s /\ value n = strip s /\ value n <> EmptyString /\
            strip (value n) = value n /\
            Name_init (PyStr (value n)) = Ok n.
Proof.
  destruct v as [s|d]; simpl; [|discriminate].
  destruct (strip s) as [|c r] eqn:E; [discriminate|].
  intros [= <-]. exists s. simpl. rewrite <- E.
  split; [done|]. split; [done|]. split; [by rewrite E|].
  split; [apply strip_idem|]. rewrite strip_idem, E. reflexivity.
Qed.

(** X1. A [Name] is made from text only, holds the text stripped, and is
    never empty; a name that was made is made again from its own value.
    Blank text and values that are no text raise the error of the name. *)
Theorem name_is_stripped_text :
  (forall v n,
     Name_init v = Ok n ->
     exists s, v = PyStr s /\ value n = strip s /\ value n <> EmptyString /\
               strip (value n) = value n /\
               Name_init (PyStr (value n)) = Ok n) /\
  (forall v,
     (forall s, v = PyStr s -> strip s = EmptyString) ->
     Name_init v = Raise (ValueError "Name can't be empty.")).
Proof.
  split; [apply Name_init_Ok|].
  intros [s|d] H; simpl; [|done]. by rewrite (H s eq_refl).
Qed.

Lemma name_is_stripped_text_witness :
  (exists s, PyStr "  Ann Lee " = PyStr s /\ "Ann Lee" = strip s /\
             "Ann Lee" <> EmptyString /\ strip "Ann Lee" = "Ann Lee" /\
             Name_init (PyStr "Ann Lee") = Ok (mkField "Ann Lee")) /\
  Name_init (PyStr "   ") = Raise (ValueError "Name can't be empty.").
Proof.
  split.
  - exact (proj1 name_is_stripped_text (PyStr "  Ann Lee ") (mkField "Ann Lee")
             eq_refl).
  - apply (proj2 name_is_stripped_text (PyStr "   ")).
    intros s [= <-]. reflexivity.
Defined.

(** A phone that was made is made again from its own value. *)
Lemma Phone_init_valid v p : Phone_init v = Ok p -> valid_phone p.
Proof.
  unfold Phone_init, valid_phone.
  destruct (isdigit (strip (py_str v))) eqn:D; simpl; [|discriminate].
  destruct (Z.eqb_spec (len (strip (py_str v))) 10) as [L|L]; simpl; [|discriminate].
  intros [= <-]. simpl. split; [unfold len in L; lia|]. split.
  - unfold isdigit in D. by destruct (strip (py_str v)).
  - apply strip_idem.
Qed.

Lemma valid_phone_again p : valid_phone p -> Phone_init (PyStr (value p)) = Ok p.
Proof.
  intros (L & D & S). destruct p as [s]. simpl in *.
  apply Phone_init_stripped; [done | | unfold len; lia].
  unfold isdigit. destruct s; [discriminate | done].
Qed.

Lemma str_eq_value s : str_eq s (PyStr s) = true.
Proof. apply String.eqb_refl. Qed.

Lemma str_eq_text s t : str_eq s (PyStr t) = true -> s = t.
Proof. apply String.eqb_eq. Qed.

Lemma find_phone_in_Some v ps p :
  In p ps -> str_eq (value p) v = true ->
  exists q, Record.find_phone_in v ps = Some q /\ str_eq (value q) v = true.
Proof.
  induction ps as [|a ps IH]; simpl; [done|].
  intros [->|H] E.
  - rewrite E. eauto.
  - destruct (str_eq (value a) v) eqn:Ea; [eauto | by apply IH].
Qed.

Lemma find_phone_in_split v ps p :
  Record.find_phone_in v ps = Some p <->
  exists l1 l2, ps = (l1 ++ p :: l2)%list /\ no_match v l1 /\
                str_eq (value p) v = true.
Proof.
  induction ps as [|a ps IH]; simpl.
  - split; [discriminate|]. intros (l1 & l2 & E & _). by destruct l1.
  - destruct (str_eq (value a) v) eqn:Ea.
    + split.
      * intros [= ->]. exists [], ps. split; [done|]. split; [by intros ? []|done].
      * intros (l1 & l2 & E & N & Ep). destruct l1 as [|b l1]; simpl in E.
        -- by injection E as -> _.
        -- injection E as -> _. rewrite (N b) in Ea by (by left). discriminate.
    + rewrite IH. split.
      * intros (l1 & l2 & -> & N & Ep). exists (a :: l1), l2.
        split; [done|]. split; [|done].
        intros q [<-|Hq]; [done | by apply N].
      * intros (l1 & l2 & E & N & Ep). destruct l1 as [|b l1]; simpl in E.
        -- injection E as -> _. congruence.
        -- injection E as -> ->. exists l1, l2. split; [done|]. split; [|done].
           intros q Hq. apply N. by right.
Qed.

Lemma find_phone_in_None v ps :
  Record.find_phone_in v ps = None <-> no_match v ps.
Proof.
  induction ps as [|a ps IH]; simpl.
  - split; [by intros _ ? [] | done].
  - destruct (str_eq (value a) v) eqn:Ea.
    + split; [discriminate|]. intros N. rewrite (N a) in Ea by (by left). discriminate.
    + rewrite IH. split.
      * intros N q [<-|Hq]; [done | by apply N].
      * intros N q Hq. apply N. by right.
Qed.

(** X2. [find_phone] returns [None] exactly when no phone has the value
    asked for, and otherwise the first phone that has it. *)
Theorem find_phone_first self v :
  (Record.find_phone self v = None <-> no_match v (Record.phones self)) /\
  (forall p,
     Record.find_phone self v = Some p <->
     exists l1 l2, Record.phones self = (l1 ++ p :: l2)%list /\
                   no_match v l1 /\ str_eq (value p) v = true).
Proof.
  unfold Record.find_phone. split; [apply find_phone_in_None|].
  intros p. apply find_phone_in_split.
Qed.

(** X3. [add_phone] either puts the validated phone last, after the
    phones there were, and [find_phone] then finds its value; or it raises
    the error of the phone and leaves the record alone. The value that is
    found is the stripped one. *)
Theorem add_phone_then_find self v :
  (forall self',
     Record.add_phone self v = (Ok tt, self') ->
     exists p,
       Phone_init v = Ok p /\
       Record.phones self' = (Record.phones self ++ [p])%list /\
       Record.name self' = Record.name self /\
       Record.birthday self' = Record.birthday self /\
       exists q, Record.find_phone self' (PyStr (value p)) = Some q /\
                 value q = value p) /\
  (forall e self',
     Record.add_phone self v = (Raise e, self') ->
     self' = self /\ e = ValueError "Phone must contain exactly 10 digits.").
Proof.
  unfold Record.add_phone. split.
  - intros self'. destruct (Phone_init v) as [p|e] eqn:E; [|discriminate].
    intros [= <-]. exists p. simpl. repeat (split; [done|]).
    destruct (find_phone_in_Some (PyStr (value p)) (Record.phones self ++ [p]) p)
      as (q & Hq & Eq).
    + apply in_or_app. right. by left.
    + apply str_eq_value.
    + exists q. split; [exact Hq | by apply str_eq_text].
  - intros e self'. destruct (Phone_init v) as [p|e'] eqn:E; [discriminate|].
    intros [= <- <-]. split; [done|].
    unfold Phone_init in E.
    destruct (negb _ || negb _); [by injection E as <- | discriminate].
Qed.

Lemma add_phone_then_find_witness :
  (exists p,
     Phone_init (PyStr " 0987654321 ") = Ok p /\
     Record.phones (snd (Record.add_phone one_phone (PyStr " 0987654321 "))) =
       (Record.phones one_phone ++ [p])%list /\
     Record.name (snd (Record.add_phone one_phone (PyStr " 0987654321 "))) =
       Record.name one_phone /\
     Record.birthday (snd (Record.add_phone one_phone (PyStr " 0987654321 "))) =
       Record.birthday one_phone /\
     exists q,
       Record.find_phone (snd (Record.add_phone one_phone (PyStr " 0987654321 ")))
         (PyStr (value p)) = Some q /\
       value q = value p) /\
  (snd (Record.add_phone one_phone (PyStr "12")) = one_phone /\
   ValueError "Phone must contain exactly 10 digits." =
   ValueError "Phone must contain exactly 10 digits.").
Proof.
  split.
  - exact (proj1 (add_phone_then_find one_phone (PyStr " 0987654321 ")) _ eq_refl).
  - exact (proj2 (add_phone_then_find one_phone (PyStr "12")) _ _ eq_refl).
Defined.

Lemma remove_phone_from_split self v k l1 p l2 :
  no_match v l1 -> str_eq (value p) v = true ->
  Record.remove_phone_from self v k (l1 ++ p :: l2) =
  (Ok true,
   Record.set_phones self (delete (k + length l1)%nat (Record.phones self))).
Proof.
  revert k. induction l1 as [|a l1 IH]; intros k N E; simpl.
  - by rewrite E, Nat.add_0_r.
  - rewrite (N a) by (by left). rewrite IH; [|intros q Hq; apply N; by right|done].
    by replace (S k + length l1)%nat with (k + S (length l1))%nat by lia.
Qed.

Lemma remove_phone_from_no_match self v k ps :
  no_match v ps -> Record.remove_phone_from self v k ps = (Ok false, self).
Proof.
  revert k. induction ps as [|a ps IH]; intros k N; simpl; [done|].
  rewrite (N a) by (by left). apply IH. intros q Hq. apply N. by right.
Qed.

(** Either no phone has the value, or there is a first one that has it. *)
Lemma first_phone_split v ps :
  no_match v ps \/
  exists l1 p l2, ps = (l1 ++ p :: l2)%list /\ no_match v l1 /\
                  str_eq (value p) v = true.
Proof.
  destruct (Record.find_phone_in v ps) as [p|] eqn:E.
  - right. apply find_phone_in_split in E as (l1 & l2 & ?). eauto.
  - left. by apply find_phone_in_None.
Qed.

Lemma first_match_split v l1 p l2 :
  no_match v l1 -> str_eq (value p) v = true ->
  first_match v (l1 ++ p :: l2) (length l1).
Proof.
  intros N E. split.
  - exists p. split; [|done]. by rewrite list_lookup_middle.
  - intros j q Hj Hq. rewrite lookup_app_l in Hq by done.
    apply N. apply list_elem_of_In. by eapply list_elem_of_lookup_2.
Qed.

Lemma remove_phone_no_match self v :
  no_match v (Record.phones self) ->
  Record.remove_phone self v = (Ok false, self).
Proof. apply remove_phone_from_no_match. Qed.

Lemma remove_phone_split self v l1 p l2 :
  Record.phones self = (l1 ++ p :: l2)%list ->
  no_match v l1 -> str_eq (value p) v = true ->
  Record.remove_phone self v = (Ok true, Record.set_phones self (l1 ++ l2)).
Proof.
  intros E N Ep. unfold Record.remove_phone.
  rewrite E at 1. rewrite (remove_phone_from_split _ _ _ _ _ _ N Ep).
  simpl. rewrite E. by rewrite delete_middle.
Qed.

(** X4. [remove_phone] takes out the first phone that has the value and
    returns [True]; a later phone with the same value stays and is what
    [find_phone] finds next. With no such phone it returns [False] and
    leaves the record alone. *)
Theorem remove_phone_first self v :
  (no_match v (Record.phones self) ->
   Record.remove_phone self v = (Ok false, self)) /\
  (forall l1 p l2,
     Record.phones self = (l1 ++ p :: l2)%list ->
     no_match v l1 -> str_eq (value p) v = true ->
     Record.remove_phone self v = (Ok true, Record.set_phones self (l1 ++ l2)) /\
     Record.find_phone (Record.set_phones self (l1 ++ l2)) v =
       Record.find_phone_in v l2).
Proof.
  split; [apply remove_phone_no_match|].
  intros l1 p l2 E N Ep. split; [by apply (remove_phone_split self v l1 p l2)|].
  unfold Record.find_phone. simpl. clear E.
  induction l1 as [|a l1 IH]; simpl; [done|].
  rewrite (N a) by (by left). apply IH. intros q Hq. apply N. by right.
Qed.

Lemma remove_phone_first_witness :
  Record.remove_phone double_phone (PyStr "0000000000") = (Ok false, double_phone) /\
  Record.remove_phone double_phone (PyStr "5555555555") =
    (Ok true,
     Record.set_phones double_phone
       ([mkField "1234567890"] ++ [mkField "5555555555"])) /\
  Record.find_phone
    (Record.set_phones double_phone
       ([mkField "1234567890"] ++ [mkField "5555555555"]))
    (PyStr "5555555555") =
  Record.find_phone_in (PyStr "5555555555") [mkField "5555555555"].
Proof.
  split.
  - apply (proj1 (remove_phone_first double_phone (PyStr "0000000000"))).
    intros p [<-|[<-|[<-|[]]]]; reflexivity.
  - apply (proj2 (remove_phone_first double_phone (PyStr "5555555555"))
             [mkField "1234567890"] (mkField "5555555555")
             [mkField "5555555555"]).
    + reflexivity.
    + intros p [<-|[]]. reflexivity.
    + reflexivity.
Defined.

Lemma edit_phone_cases self old new :
  Record.edit_phone self old new = (Ok false, self) \/
  (exists i e, first_match old (Record.phones self) i /\
               Phone_init new = Raise e /\
               Record.edit_phone self old new = (Raise e, self)) \/
  (exists i q, first_match old (Record.phones self) i /\
               Phone_init new = Ok q /\
               Record.edit_phone self old new =
               (Ok true, Record.set_phones self (<[i:=q]> (Record.phones self)))).
Proof.
  unfold Record.edit_phone.
  destruct (first_phone_split old (Record.phones self))
    as [N|(l1 & p & l2 & E & N & Ep)].
  - left. by apply edit_phone_from_no_match.
  - right.
    assert (M : first_match old (Record.phones self) (length l1))
      by (rewrite E; by apply first_match_split).
    rewrite (edit_phone_from_match _ _ _ _ _ _ M). simpl.
    destruct (Phone_init new) as [q|e] eqn:Eq; [right | left]; eauto.
Qed.

(** X5. After an [edit_phone] that returned [True] the record has as many
    phones as before, the same name and birthday, and [find_phone] finds
    the value of the new phone, which is the new text stripped. *)
Theorem edit_phone_then_find self old new self' :
  Record.edit_phone self old new = (Ok true, self') ->
  exists q,
    Phone_init new = Ok q /\
    value q = strip (py_str new) /\
    length (Record.phones self') = length (Record.phones self) /\
    Record.name self' = Record.name self /\
    Record.birthday self' = Record.birthday self /\
    exists q', Record.find_phone self' (PyStr (value q)) = Some q' /\
               value q' = value q.
Proof.
  intros H.
  destruct (edit_phone_cases self old new)
    as [E|[(i & e & _ & _ & E)|(i & q & M & Eq & E)]];
    rewrite E in H; try discriminate.
  injection H as <-. exists q. split; [done|]. split.
  { unfold Phone_init in Eq. destruct (negb _ || negb _); [discriminate|].
    by injection Eq as <-. }
  simpl. split; [apply length_insert|]. repeat (split; [done|]).
  destruct M as [(p & Hp & _) _]. apply lookup_lt_Some in Hp.
  destruct (find_phone_in_Some (PyStr (value q))
              (<[i:=q]> (Record.phones self)) q) as (q' & Hq' & Eq').
  - apply list_elem_of_In. eapply list_elem_of_lookup_2.
    by apply list_lookup_insert_eq.
  - apply str_eq_value.
  - exists q'. split; [exact Hq' | by apply str_eq_text].
Qed.

Lemma edit_phone_then_find_witness :
  exists q,
    Phone_init (PyStr " 0987654321") = Ok q /\
    value q = strip (py_str (PyStr " 0987654321")) /\
    length (Record.phones
              (snd (Record.edit_phone two_phones (PyStr "5555555555")
                      (PyStr " 0987654321")))) =
      length (Record.phones two_phones) /\
    Record.name (snd (Record.edit_phone two_phones (PyStr "5555555555")
                        (PyStr " 0987654321"))) = Record.name two_phones /\
    Record.birthday (snd (Record.edit_phone two_phones (PyStr "5555555555")
                            (PyStr " 0987654321"))) =
      Record.birthday two_phones /\
    exists q',
      Record.find_phone
        (snd (Record.edit_phone two_phones (PyStr "5555555555")
                (PyStr " 0987654321")))
        (PyStr (value q)) = Some q' /\
      value q' = value q.
Proof.
  exact (edit_phone_then_find two_phones (PyStr "5555555555")
           (PyStr " 0987654321") _ eq_refl).
Defined.

Lemma run_rec_op_invariant self o :
  Forall valid_phone (Record.phones self) ->
  Record.name (run_rec_op self o) = Record.name self /\
  Forall valid_phone (Record.phones (run_rec_op self o)).
Proof.
  intros F. destruct o as [v|v|old new|v|v]; simpl.
  - unfold Record.add_phone. destruct (Phone_init v) as [p|e] eqn:E; simpl; [|done].
    split; [done|]. apply Forall_app. split; [done|].
    constructor; [by eapply Phone_init_valid | constructor].
  - destruct (first_phone_split v (Record.phones self))
      as [N|(l1 & p & l2 & E & N & Ep)].
    + by rewrite (remove_phone_no_match self v N).
    + rewrite (remove_phone_split self v l1 p l2 E N Ep).
      simpl. split; [done|]. rewrite E in F.
      apply Forall_app in F as [F1 F2]. apply Forall_cons_iff in F2 as [_ F2].
      apply Forall_app. by split.
  - destruct (edit_phone_cases self old new)
      as [->|[(i & e & _ & _ & ->)|(i & q & _ & Eq & ->)]]; simpl; try done.
    split; [done|]. apply Forall_insert; [done|]. by eapply Phone_init_valid.
  - done.
  - unfold Record.add_birthday. by destruct (Birthday_init v).
Qed.

(** X6. Whatever is called on a record that [Record(name)] made, its name
    stays the one it was made with, which is not empty, and every phone it
    holds is ten characters long, all digits, with nothing to strip. *)
Theorem record_calls_keep_name_and_phones nm self ops :
  Record.init nm = Ok self ->
  Record.name (run_rec_ops self ops) = Record.name self /\
  value (Record.name (run_rec_ops self ops)) <> EmptyString /\
  Forall valid_phone (Record.phones (run_rec_ops self ops)).
Proof.
  intros H. unfold Record.init in H.
  apply result_bind_Ok in H as (n & Hn & [= <-]).
  assert (I : forall r, Forall valid_phone (Record.phones r) ->
            Record.name (run_rec_ops r ops) = Record.name r /\
            Forall valid_phone (Record.phones (run_rec_ops r ops))).
  { unfold run_rec_ops. induction ops as [|o ops IH]; intros r F; simpl; [done|].
    destruct (run_rec_op_invariant r o F) as [E F'].
    destruct (IH _ F') as [E' F'']. split; [congruence | done]. }
  destruct (I (Record.mk n [] None)) as [E F]; [constructor|].
  split; [done|]. split; [|done]. rewrite E. simpl.
  by destruct (Name_init_Ok nm n Hn) as (s & _ & _ & Hne & _).
Qed.

Lemma record_calls_keep_name_and_phones_witness :
  Record.name (run_rec_ops (contact "Ann" None) sample_calls) =
    Record.name (contact "Ann" None) /\
  value (Record.name (run_rec_ops (contact "Ann" None) sample_calls)) <>
    EmptyString /\
  Forall valid_phone (Record.phones (run_rec_ops (contact "Ann" None) sample_calls)).
Proof.
  exact (record_calls_keep_name_and_phones (PyStr " Ann ") (contact "Ann" None)
           sample_calls eq_refl).
Defined.

(** ** Adding and deleting records *)

Section DictLaws.
Context {V : Type}.
Implicit Types (d : pydict.dict V) (k : string) (v : V).

Lemma get_set_same k v d : pydict.get k (pydict.set k v d) = Some v.
Proof.
  induction d as [|[k0 v0] d IH]; simpl.
  - by rewrite String.eqb_refl.
  - destruct (String.eqb_spec k0 k) as [->|N]; simpl.
    + by rewrite String.eqb_refl.
    + by destruct (String.eqb_spec k0 k).
Qed.

Lemma get_set_other k n v d :
  n <> k -> pydict.get n (pydict.set k v d) = pydict.get n d.
Proof.
  intros Hne. induction d as [|[k0 v0] d IH]; simpl.
  - by destruct (String.eqb_spec k n).
  - destruct (String.eqb_spec k0 k) as [->|N]; simpl.
    + by destruct (String.eqb_spec k n).
    + by rewrite IH.
Qed.

Lemma set_set k v v' d : pydict.set k v (pydict.set k v' d) = pydict.set k v d.
Proof.
  induction d as [|[k0 v0] d IH]; simpl.
  - by rewrite String.eqb_refl.
  - destruct (String.eqb_spec k0 k) as [->|N]; simpl.
    + by rewrite String.eqb_refl.
    + destruct (String.eqb_spec k0 k); [done|]. by rewrite IH.
Qed.

Lemma set_absent k v d :
  pydict.get k d = None -> pydict.set k v d = (d ++ [(k, v)])%list.
Proof.
  induction d as [|[k0 v0] d IH]; simpl; [done|].
  destruct (String.eqb_spec k0 k); [discriminate|]. intros H. by rewrite IH.
Qed.

Lemma set_present k v old d :
  pydict.get k d = Some old ->
  exists l1 l2, d = (l1 ++ (k, old) :: l2)%list /\
                pydict.set k v d = (l1 ++ (k, v) :: l2)%list /\
                ~ In k (pydict.keys l1).
Proof.
  induction d as [|[k0 v0] d IH]; simpl; [discriminate|].
  destruct (String.eqb_spec k0 k) as [->|N].
  - intros [= ->]. exists [], d. simpl. auto.
  - intros H. destruct (IH H) as (l1 & l2 & -> & E & Hn).
    exists ((k0, v0) :: l1), l2. simpl. rewrite E.
    split; [done|]. split; [done|]. intros [?|?]; [congruence | contradiction].
Qed.

Lemma del_app_last k v d :
  pydict.get k d = None -> pydict.del k (d ++ [(k, v)])%list = d.
Proof.
  induction d as [|[k0 v0] d IH]; simpl.
  - by rewrite String.eqb_refl.
  - destruct (String.eqb_spec k0 k); [discriminate|]. intros H. by rewrite IH.
Qed.

End DictLaws.

(** X7. After [add_record] the record is found under its name and every
    other name is found as before; adding the same record again changes
    nothing, and of two records with one name the one added last is the
    one the book keeps. *)
Theorem add_record_then_find book r :
  AddressBook.find (AddressBook.add_record book r) (value (Record.name r)) = Some r /\
  (forall n, n <> value (Record.name r) ->
     AddressBook.find (AddressBook.add_record book r) n = AddressBook.find book n) /\
  AddressBook.add_record (AddressBook.add_record book r) r =
    AddressBook.add_record book r /\
  (forall r', Record.name r' = Record.name r ->
     AddressBook.add_record (AddressBook.add_record book r') r =
     AddressBook.add_record book r).
Proof.
  unfold AddressBook.find, AddressBook.add_record. simpl.
  split; [apply get_set_same|]. split; [intros n Hn; by apply get_set_other|].
  split; [by rewrite set_set|]. intros r' ->. by rewrite set_set.
Qed.

(** X8. [add_record] of a name the book does not have puts the record
    last; of a name it has, it puts the record in the place of the old
    one, and the book is as long as before and in the same order. *)
Theorem add_record_place book r :
  (AddressBook.find book (value (Record.name r)) = None ->
   AddressBook.data (AddressBook.add_record book r) =
   (AddressBook.data book ++ [(value (Record.name r), r)])%list) /\
  (forall old,
     AddressBook.find book (value (Record.name r)) = Some old ->
     exists l1 l2,
       AddressBook.data book = (l1 ++ (value (Record.name r), old) :: l2)%list /\
       AddressBook.data (AddressBook.add_record book r) =
       (l1 ++ (value (Record.name r), r) :: l2)%list).
Proof.
  unfold AddressBook.find, AddressBook.add_record. simpl. split.
  - apply set_absent.
  - intros old H. destruct (set_present _ r _ _ H) as (l1 & l2 & E1 & E2 & _).
    eauto.
Qed.

Lemma add_record_place_witness :
  AddressBook.data (AddressBook.add_record june_book (contact "Z" None)) =
    (AddressBook.data june_book ++ [("Z", contact "Z" None)])%list /\
  exists l1 l2,
    AddressBook.data june_book =
      (l1 ++ ("B", contact "B" (Some (mkdate 1991 6 20))) :: l2)%list /\
    AddressBook.data (AddressBook.add_record june_book (contact "B" None)) =
      (l1 ++ ("B", contact "B" None) :: l2)%list.
Proof.
  split.
  - exact (proj1 (add_record_place june_book (contact "Z" None)) eq_refl).
  - exact (proj2 (add_record_place june_book (contact "B" None)) _ eq_refl).
Defined.

(** X9. [delete] undoes the [add_record] of a name the book did not have,
    and a second [delete] of the same name changes nothing. *)
Theorem delete_undoes_add book r n :
  (AddressBook.find book (value (Record.name r)) = None ->
   AddressBook.delete (AddressBook.add_record book r) (value (Record.name r)) =
   book) /\
  (keys_distinct book ->
   AddressBook.delete (AddressBook.delete book n) n = AddressBook.delete book n).
Proof.
  split.
  - intros H. unfold AddressBook.delete, AddressBook.add_record, pydict.contains.
    simpl. rewrite get_set_same.
    unfold AddressBook.find in H. rewrite (set_absent _ _ _ H), (del_app_last _ _ _ H).
    by destruct book.
  - intros Hd. unfold AddressBook.delete, pydict.contains.
    destruct (pydict.get n (AddressBook.data book)) eqn:G; simpl.
    + by rewrite (get_del_same n _ Hd).
    + by rewrite G.
Qed.

Lemma delete_undoes_add_witness :
  AddressBook.delete (AddressBook.add_record june_book (contact "Z" None)) "Z" =
    june_book /\
  AddressBook.delete (AddressBook.delete june_book "B") "B" =
    AddressBook.delete june_book "B".
Proof.
  split.
  - exact (proj1 (delete_undoes_add june_book (contact "Z" None) "Z") eq_refl).
  - apply (proj2 (delete_undoes_add june_book (contact "Z" None) "B")).
    unfold keys_distinct. simpl. repeat constructor; simpl; intuition discriminate.
Defined.

(** ** More on the list of upcoming birthdays *)

Lemma shifted_weekday c cd :
  toordinal cd = toordinal c + weekend_shift c -> 0 <= weekday cd <= 4.
Proof.
  unfold weekend_shift, weekday. intros ->.
  destruct (Z.eqb_spec ((toordinal c + 6) mod 7) 5) as [E|E];
    [|destruct (Z.eqb_spec ((toordinal c + 6) mod 7) 6) as [E'|E']];
    Z.div_mod_to_equations; lia.
Qed.

(** What stands behind a line of the list. *)
Lemma upcoming_line book today days_ahead res u :
  AddressBook.get_upcoming_birthdays book today days_ahead = Ok res ->
  In u res ->
  exists end_day k rec b c cd,
    AddressBook.plus_days today (days_of days_ahead) = Ok end_day /\
    In (k, rec) (AddressBook.data book) /\
    Record.birthday rec = Some b /\
    AddressBook.candidate_date today (value b) = Ok c /\
    valid_date c /\
    date_leb today c = true /\ date_leb c end_day = true /\
    valid_date cd /\ toordinal cd = toordinal c + weekend_shift c /\
    u = mkupcoming (value (Record.name rec)) (strftime cd "%Y.%m.%d").
Proof.
  intros H Hu. pose proof H as H0.
  apply get_upcoming_birthdays_Ok in H0 as (end_day & ls & He & _).
  destruct (proj1 (get_upcoming_birthdays_In _ _ _ _ _ _ H He) Hu)
    as (k & rec & Hk & b & c & cd & Hb & Hc & W & Hcd & Eu).
  pose proof (candidate_date_Ok _ _ _ Hc) as (V & _).
  apply (congr_date_spec c cd V) in Hcd as [Vcd Ecd].
  unfold in_window in W. apply andb_prop in W as [W1 W2].
  exists end_day, k, rec, b, c, cd. auto 12.
Qed.

Lemma later_date_later_year a b :
  valid_date a -> valid_date b -> toordinal a <= toordinal b -> year a <= year b.
Proof.
  intros Va Vb L. destruct (Z.le_gt_cases (year a) (year b)) as [H|H]; [done|].
  pose proof (date_compare_toordinal a b Va Vb) as C.
  unfold date_compare in C.
  assert (E : (year a ?= year b) = Gt) by (apply Z.compare_gt_iff; lia).
  rewrite E in C. symmetry in C. apply Z.compare_gt_iff in C. lia.
Qed.

(** [get_upcoming_birthdays] formats dates of today's year and later. With
    today in the year 1000 or after, where the clock has it, [strftime]
    writes every line of the list as the C library does. *)
Lemma upcoming_texts_libc book today days_ahead res u :
  1000 <= year today ->
  AddressBook.get_upcoming_birthdays book today days_ahead = Ok res ->
  In u res ->
  exists cd,
    valid_date cd /\ year today <= year cd /\
    congratulation_date u = libc_strftime cd "%Y.%m.%d".
Proof.
  intros Y H Hu.
  destruct (upcoming_line _ _ _ _ _ H Hu)
    as (end_day & k & rec & b & c & cd & _ & _ & _ & Hc & V & _ & _ & Vcd & Ecd & Eu).
  apply candidate_date_Ok in Hc as (_ & _ & _ & Yc).
  assert (Ycd : year c <= year cd).
  { apply later_date_later_year; [done..|].
    unfold weekend_shift in Ecd. repeat destruct (_ =? _); lia. }
  exists cd. split; [done|]. split; [lia|].
  rewrite Eu. cbn [congratulation_date]. symmetry.
  apply libc_strftime_from_1000. lia.
Qed.

(** X10. No congratulation falls on a weekend: every date on the list is
    the text of a date from Monday to Friday. *)
Theorem congratulation_on_a_working_day book today days_ahead res u :
  AddressBook.get_upcoming_birthdays book today days_ahead = Ok res ->
  In u res ->
  exists cd,
    valid_date cd /\
    congratulation_date u = strftime cd "%Y.%m.%d" /\
    0 <= weekday cd <= 4.
Proof.
  intros H Hu.
  destruct (upcoming_line _ _ _ _ _ H Hu)
    as (end_day & k & rec & b & c & cd & _ & _ & _ & _ & _ & _ & _ & Vcd & E & Eu).
  exists cd. split; [done|]. split; [by rewrite Eu|]. by eapply shifted_weekday.
Qed.

Lemma congratulation_on_a_working_day_witness :
  exists cd,
    valid_date cd /\
    congratulation_date (mkupcoming "A" "2024.06.17") = strftime cd "%Y.%m.%d" /\
    0 <= weekday cd <= 4.
Proof.
  apply (congratulation_on_a_working_day week_book june_today None week_result).
  - reflexivity.
  - simpl. right. right. left. reflexivity.
Defined.

(** X11. Every date on the list is today or later, and at most two days
    after the end of the window. *)
Theorem congratulation_near_window book today days_ahead res u :
  valid_date today ->
  AddressBook.get_upcoming_birthdays book today days_ahead = Ok res ->
  In u res ->
  exists cd,
    valid_date cd /\
    congratulation_date u = strftime cd "%Y.%m.%d" /\
    toordinal today <= toordinal cd <= toordinal today + days_of days_ahead + 2.
Proof.
  intros Vt H Hu.
  destruct (upcoming_line _ _ _ _ _ H Hu)
    as (end_day & k & rec & b & c & cd & He & _ & _ & _ & V & W1 & W2 & Vcd & E & Eu).
  destruct (plus_days_Ok _ _ _ Vt He) as [Ve Ee].
  rewrite date_leb_toordinal in W1, W2 by done.
  apply Z.leb_le in W1, W2.
  exists cd. split; [done|]. split; [by rewrite Eu|].
  assert (0 <= weekend_shift c <= 2)
    by (unfold weekend_shift; repeat destruct (_ =? _); lia).
  lia.
Qed.

Lemma congratulation_near_window_witness :
  exists cd,
    valid_date cd /\
    congratulation_date (mkupcoming "A" "2024.06.17") = strftime cd "%Y.%m.%d" /\
    toordinal saturday_today <= toordinal cd <= toordinal saturday_today + 7 + 2.
Proof.
  apply (congratulation_near_window saturday_book saturday_today None
           [mkupcoming "A" "2024.06.17"]).
  - repeat split; vm_compute; discriminate.
  - reflexivity.
  - left. reflexivity.
Defined.

(** X12. With a negative [days_ahead] the list is empty. *)
Theorem negative_days_ahead_lists_nothing book today days_ahead res :
  valid_date today ->
  days_of days_ahead < 0 ->
  AddressBook.get_upcoming_birthdays book today days_ahead = Ok res ->
  res = [].
Proof.
  intros Vt Hn H. destruct res as [|u res]; [done|]. exfalso.
  destruct (upcoming_line _ _ _ _ u H ltac:(by left))
    as (end_day & k & rec & b & c & cd & He & _ & _ & _ & V & W1 & W2 & _).
  destruct (plus_days_Ok _ _ _ Vt He) as [Ve Ee].
  rewrite date_leb_toordinal in W1, W2 by done.
  apply Z.leb_le in W1, W2. lia.
Qed.

Lemma negative_days_ahead_lists_nothing_witness :
  AddressBook.get_upcoming_birthdays june_book june_today (Some (-3)) = Ok [].
Proof.
  assert (R : exists res,
            AddressBook.get_upcoming_birthdays june_book june_today (Some (-3)) =
            Ok res) by (eexists; reflexivity).
  destruct R as [res R]. rewrite R. f_equal.
  apply (negative_days_ahead_lists_nothing june_book june_today (Some (-3)) res).
  - repeat split; vm_compute; discriminate.
  - reflexivity.
  - exact R.
Defined.

Lemma date_ltb_irrefl d : date_ltb d d = false.
Proof. unfold date_ltb, date_compare. by rewrite !Z.compare_refl. Qed.

(** X13. A contact whose birthday is today, by month and day, is on
    every list asked for with [days_ahead] of 0 or more, with today as
    the date or the Monday after when today is on a weekend. *)
Theorem birthday_today_is_listed book today days_ahead res k rec b :
  valid_date today ->
  0 <= days_of days_ahead ->
  AddressBook.get_upcoming_birthdays book today days_ahead = Ok res ->
  In (k, rec) (AddressBook.data book) ->
  Record.birthday rec = Some b ->
  month (value b) = month today -> day (value b) = day today ->
  exists cd,
    In (mkupcoming (value (Record.name rec)) (strftime cd "%Y.%m.%d")) res /\
    valid_date cd /\
    toordinal cd = toordinal today + weekend_shift today.
Proof.
  intros Vt Hd H Hk Hb Hm Hday.
  pose proof H as H0.
  apply get_upcoming_birthdays_Ok in H0 as (end_day & ls & He & _).
  destruct (plus_days_Ok _ _ _ Vt He) as [Ve Ee].
  assert (exists res', AddressBook.get_upcoming_birthdays book today days_ahead =
                       Ok res') as R by eauto.
  apply get_upcoming_birthdays_returns in R as [_ R].
  destruct (R _ _ _ Hk Hb) as (c & Hc).
  assert (c = today) as ->.
  { pose proof (candidate_date_Ok _ _ _ Hc) as (_ & M & D & [[Y _] | [_ L]]).
    - destruct c, today; simpl in *; congruence.
    - rewrite Hm, Hday in L.
      replace (mkdate (year today) (month today) (day today)) with today in L
        by (by destruct today).
      by rewrite date_ltb_irrefl in L. }
  destruct (congr_date_Ok today Vt) as (cd & Hcd & Vcd & Ecd).
  exists cd. split; [|done].
  apply (get_upcoming_birthdays_In _ _ _ _ _ _ H He).
  exists k, rec. split; [done|]. exists b, today, cd.
  repeat (split; [done|]). split; [|done].
  unfold in_window. rewrite date_leb_refl, date_leb_toordinal by done.
  apply Z.leb_le. lia.
Qed.

Lemma birthday_today_is_listed_witness :
  exists cd,
    In (mkupcoming "A" (strftime cd "%Y.%m.%d"))
       [mkupcoming "A" "2024.06.17"] /\
    valid_date cd /\
    toordinal cd = toordinal saturday_end + weekend_shift saturday_end.
Proof.
  apply (birthday_today_is_listed saturday_book saturday_end (Some 0)
           [mkupcoming "A" "2024.06.17"] "A"
           (contact "A" (Some (mkdate 1990 6 15))) (mkField (mkdate 1990 6 15))).
  - repeat split; vm_compute; discriminate.
  - simpl. lia.
  - reflexivity.
  - left. reflexivity.
  - reflexivity.
  - reflexivity.
  - reflexivity.
Defined.

(** X14. A longer window loses no line: what is on the list for some
    [days_ahead] is on the list for every larger one. *)
Theorem longer_window_keeps_lines book today d1 d2 res1 res2 u :
  valid_date today ->
  d1 <= d2 ->
  AddressBook.get_upcoming_birthdays book today (Some d1) = Ok res1 ->
  AddressBook.get_upcoming_birthdays book today (Some d2) = Ok res2 ->
  In u res1 -> In u res2.
Proof.
  intros Vt Hd H1 H2 Hu.
  pose proof H1 as H1'. pose proof H2 as H2'.
  apply get_upcoming_birthdays_Ok in H1' as (e1 & ls1 & He1 & _).
  apply get_upcoming_birthdays_Ok in H2' as (e2 & ls2 & He2 & _).
  destruct (plus_days_Ok _ _ _ Vt He1) as [Ve1 Ee1].
  destruct (plus_days_Ok _ _ _ Vt He2) as [Ve2 Ee2].
  destruct (proj1 (get_upcoming_birthdays_In _ _ _ _ _ _ H1 He1) Hu)
    as (k & rec & Hk & b & c & cd & Hb & Hc & W & Hcd & Eu).
  apply (get_upcoming_birthdays_In _ _ _ _ _ _ H2 He2).
  exists k, rec. split; [done|]. exists b, c, cd.
  repeat (split; [done|]). split; [|done].
  pose proof (candidate_date_Ok _ _ _ Hc) as (V & _).
  unfold in_window in *. apply andb_prop in W as [W1 W2]. rewrite W1. simpl.
  rewrite date_leb_toordinal in * by done.
  apply Z.leb_le in W2. apply Z.leb_le. simpl in *. lia.
Qed.

Lemma longer_window_keeps_lines_witness :
  In (mkupcoming "A" "2024.06.17")
     [mkupcoming "A" "2024.06.17"; mkupcoming "B" "2024.06.20"].
Proof.
  apply (longer_window_keeps_lines june_book june_today 7 10
           june_result
           [mkupcoming "A" "2024.06.17"; mkupcoming "B" "2024.06.20"]).
  - repeat split; vm_compute; discriminate.
  - lia.
  - reflexivity.
  - reflexivity.
  - left. reflexivity.
Defined.

Lemma upcoming_step_at_most_one today end_day rec l :
  AddressBook.upcoming_step today end_day [] rec = Ok l ->
  l = [] \/ exists u, l = [u] /\ upcoming_name u = value (Record.name rec).
Proof.
  intros H. apply upcoming_step_Ok in H
    as [[_ ->] | (b & c & _ & _ & [[_ ->] | (_ & cd & _ & ->)])]; eauto.
Qed.

Lemma lines_names today end_day recs ls :
  Forall2 (fun rec l => AddressBook.upcoming_step today end_day [] rec = Ok l)
    recs ls ->
  (length (concat ls) <= length recs)%nat /\
  (forall n, In n (names_of (concat ls)) ->
     In n (map (fun r => value (Record.name r)) recs)) /\
  (List.NoDup (map (fun r => value (Record.name r)) recs) ->
   List.NoDup (names_of (concat ls))).
Proof.
  induction 1 as [|rec l recs ls Hs F (IH1 & IH2 & IH3)]; simpl.
  - split; [done|]. split; [done|]. intros _. constructor.
  - apply upcoming_step_at_most_one in Hs as [->|(u & -> & Eu)]; simpl.
    + split; [lia|]. split; [intros n Hn; right; by apply IH2|].
      intros N. apply List.NoDup_cons_iff in N as [_ N]. by apply IH3.
    + split; [lia|]. split.
      * intros n [<-|Hn]; [by left | right; by apply IH2].
      * intros N. apply List.NoDup_cons_iff in N as [N1 N2].
        apply List.NoDup_cons_iff. split; [|by apply IH3].
        rewrite Eu. intros Hn. apply N1. by apply IH2.
Qed.

(** X15. In a book that files each record under its name no contact is
    on the list twice, and the list is never longer than the book. *)
Theorem upcoming_lists_each_contact_once book today days_ahead res :
  book_invariant book ->
  AddressBook.get_upcoming_birthdays book today days_ahead = Ok res ->
  List.NoDup (names_of res) /\
  (length res <= length (AddressBook.data book))%nat.
Proof.
  intros I H. apply get_upcoming_birthdays_Ok in H as (end_day & ls & _ & F & ->).
  destruct (lines_names _ _ _ _ F) as (L & _ & N).
  pose proof (sort_by_perm congratulation_date (concat ls)) as P.
  split.
  - apply (Permutation_NoDup (l := names_of (concat ls))).
    + unfold names_of. apply Permutation_map. by symmetry.
    + apply N. by apply book_invariant_names.
  - rewrite (Permutation_length P). unfold pydict.values in L.
    by rewrite length_map in L.
Qed.

Lemma upcoming_lists_each_contact_once_witness :
  List.NoDup (names_of week_result) /\
  (length week_result <= length (AddressBook.data week_book))%nat.
Proof.
  apply (upcoming_lists_each_contact_once week_book june_today None week_result).
  - concrete_invariant.
  - reflexivity.
Defined.

Lemma string_ltb_neq a b : String.ltb a b = true -> String.eqb a b = false.
Proof.
  unfold String.ltb. intros H. apply String.eqb_neq. intros ->.
  assert (E : String.compare b b = Eq).
  { clear H. induction b as [|c b IH]; [done|].
    rewrite string_compare_cons, Z.compare_refl. exact IH. }
  by rewrite E in H.
Qed.

(** The sort keeps elements with one key in the order they had. *)
Lemma sort_by_stable {A} (key : A -> string) d l :
  List.filter (fun x => String.eqb (key x) d) (sort_by key l) =
  List.filter (fun x => String.eqb (key x) d) l.
Proof.
  assert (I : forall x s,
    List.filter (fun x => String.eqb (key x) d) (insert_by key x s) =
    List.filter (fun x => String.eqb (key x) d) (x :: s)).
  { intros x s. induction s as [|y s IH]; [done|]. cbn [insert_by].
    destruct (String.ltb (key y) (key x)) eqn:L; [|done].
    cbn [List.filter] in *. rewrite IH.
    destruct (String.eqb_spec (key x) d) as [Ex|Ex]; [|done].
    rewrite Ex in L. apply string_ltb_neq in L. by rewrite L. }
  induction l as [|x l IH]; [done|]. cbn [sort_by].
  rewrite I. cbn [List.filter]. by rewrite IH.
Qed.

(** X16. The lines of one congratulation date stand on the list in the
    order in which the book holds their records: the list is the lines
    of the records, each record giving one line or none, sorted without
    changing the order within a date. *)
Theorem same_date_keeps_book_order book today days_ahead res :
  AddressBook.get_upcoming_birthdays book today days_ahead = Ok res ->
  exists end_day lines,
    AddressBook.plus_days today (days_of days_ahead) = Ok end_day /\
    Forall2 (fun rec l => AddressBook.upcoming_step today end_day [] rec = Ok l)
      (pydict.values (AddressBook.data book)) lines /\
    Permutation res (concat lines) /\
    forall d,
      List.filter (fun u => String.eqb (congratulation_date u) d) res =
      List.filter (fun u => String.eqb (congratulation_date u) d) (concat lines).
Proof.
  intros H. apply get_upcoming_birthdays_Ok in H as (end_day & ls & He & F & ->).
  exists end_day, ls. split; [done|]. split; [done|].
  split; [apply sort_by_perm|]. intros d. apply sort_by_stable.
Qed.

Lemma same_date_keeps_book_order_witness :
  exists end_day lines,
    AddressBook.plus_days june_today 7 = Ok end_day /\
    Forall2 (fun rec l => AddressBook.upcoming_step june_today end_day [] rec = Ok l)
      (pydict.values (AddressBook.data week_book)) lines /\
    Permutation week_result (concat lines) /\
    forall d,
      List.filter (fun u => String.eqb (congratulation_date u) d) week_result =
      List.filter (fun u => String.eqb (congratulation_date u) d) (concat lines).
Proof.
  exact (same_date_keeps_book_order week_book june_today None week_result eq_refl).
Defined.

(** ** The commands *)

Lemma set_id {V} k (v : V) d : pydict.get k d = Some v -> pydict.set k v d = d.
Proof.
  induction d as [|[k0 v0] d IH]; simpl; [discriminate|].
  destruct (String.eqb_spec k0 k) as [->|N].
  - by intros [= ->].
  - intros H. by rewrite IH.
Qed.

Lemma store_same book key r :
  AddressBook.find book key = Some r -> commands.store book key r = book.
Proof.
  intros H. unfold commands.store. rewrite (set_id _ _ _ H). by destruct book.
Qed.

Lemma store_added book r r' :
  Record.name r' = Record.name r ->
  commands.store (AddressBook.add_record book r) (value (Record.name r)) r' =
  AddressBook.add_record book r'.
Proof.
  intros E. unfold commands.store, AddressBook.add_record. simpl.
  by rewrite set_set, E.
Qed.

Lemma find_store book key r :
  AddressBook.find (commands.store book key r) key = Some r.
Proof. apply get_set_same. Qed.

Lemma Record_init_Ok name r :
  Record.init (PyStr name) = Ok r ->
  r = Record.mk (mkField (strip name)) [] None /\ strip name <> EmptyString.
Proof.
  unfold Record.init. intros H. apply result_bind_Ok in H as (n & Hn & [= <-]).
  destruct (Name_init_Ok _ _ Hn) as (s & [= <-] & E & Hne & _).
  destruct n as [v]. simpl in *. subst v. split; [done|]. congruence.
Qed.

Lemma Record_init_token name :
  strip name = name -> name <> EmptyString ->
  Record.init (PyStr name) = Ok (Record.mk (mkField name) [] None).
Proof.
  intros E Hne. unfold Record.init. simpl. rewrite E.
  by destruct name.
Qed.

(** X17. A command with too few arguments is answered with the text of
    the [ValueError] of the unpacking, "Value error: not enough values to
    unpack ...", and changes nothing; the bodies of the handlers raise no
    [IndexError], so the answer "Not enough arguments." of the decorator
    is not reached through it. *)
Theorem too_few_arguments_answer args book :
  ((length args < 2)%nat ->
   commands.add_contact args book =
     (commands.input_error (commands.Raised (commands.too_few 2 args)), book) /\
   commands.add_birthday args book =
     (commands.input_error (commands.Raised (commands.too_few 2 args)), book)) /\
  ((length args < 3)%nat ->
   commands.change_contact args book =
     (commands.input_error (commands.Raised (commands.too_few 3 args)), book)) /\
  ((length args < 1)%nat ->
   commands.show_phone args book =
     (commands.input_error (commands.Raised (commands.too_few 1 args)), book) /\
   commands.show_birthday args book =
     (commands.input_error (commands.Raised (commands.too_few 1 args)), book)) /\
  (forall need,
     commands.input_error (commands.Raised (commands.too_few need args)) =
     ("Value error: not enough values to unpack (expected at least " ++
      Z_to_string need ++ ", got " ++ Z_to_string (Z.of_nat (length args)) ++
      ")")%string) /\
  (forall today f msg,
     In f [commands.add_contact_body; commands.change_contact_body;
           commands.show_phone_body; commands.show_all_body;
           commands.add_birthday_body; commands.show_birthday_body;
           commands.birthdays_body today] ->
     fst (f args book) <> commands.Raised (commands.IndexError msg)).
Proof.
  split; [|split; [|split; [|split]]].
  - intros H. by destruct args as [|a [|b args]]; simpl in H; try lia.
  - intros H. by destruct args as [|a [|b [|c args]]]; simpl in H; try lia.
  - intros H. by destruct args as [|a args]; simpl in H; try lia.
  - reflexivity.
  - intros today f msg Hf. simpl in Hf.
    repeat (destruct Hf as [<-|Hf]); [..|destruct Hf].
    + unfold commands.add_contact_body, commands.add_phone_and_return.
      destruct args as [|a [|b args']]; try done.
      destruct (AddressBook.find book a).
      * destruct (commands.truthy b); [|done].
        by destruct (Record.add_phone _ _) as [[[]|e] r'].
      * destruct (Record.init _); [|done].
        destruct (commands.truthy b); [|done].
        by destruct (Record.add_phone _ _) as [[[]|e] r'].
    + unfold commands.change_contact_body.
      destruct args as [|a [|b [|c args']]]; try done.
      destruct (AddressBook.find book a); [|done].
      by destruct (Record.edit_phone _ _ _) as [[[]|e] r'].
    + unfold commands.show_phone_body.
      destruct args as [|a args']; try done.
      destruct (AddressBook.find book a); [|done].
      by destruct (Record.phones _).
    + unfold commands.show_all_body. by destruct (AddressBook.data book).
    + unfold commands.add_birthday_body, commands.add_birthday_and_return.
      destruct args as [|a [|b args']]; try done.
      destruct (AddressBook.find book a).
      * by destruct (Record.add_birthday _ _) as [[[]|e] r'].
      * destruct (Record.init _); [|done].
        by destruct (Record.add_birthday _ _) as [[[]|e] r'].
    + unfold commands.show_birthday_body.
      destruct args as [|a args']; try done.
      destruct (AddressBook.find book a); [|done].
      by destruct (Record.birthday _).
    + unfold commands.birthdays_body.
      by destruct (AddressBook.get_upcoming_birthdays _ _ _) as [[|u l]|e].
Qed.

Lemma too_few_arguments_answer_witness :
  commands.add_contact ["Bob"] small_book =
    ("Value error: not enough values to unpack (expected at least 2, got 1)",
     small_book) /\
  commands.change_contact ["Bob"; "1234567890"] small_book =
    ("Value error: not enough values to unpack (expected at least 3, got 2)",
     small_book) /\
  commands.show_phone [] small_book =
    ("Value error: not enough values to unpack (expected at least 1, got 0)",
     small_book).
Proof.
  split; [|split].
  - apply (proj1 (too_few_arguments_answer ["Bob"] small_book)). simpl. lia.
  - apply (proj1 (proj2 (too_few_arguments_answer ["Bob"; "1234567890"]
                           small_book))). simpl. lia.
  - apply (proj1 (proj2 (proj2 (too_few_arguments_answer [] small_book)))).
    simpl. lia.
Defined.

(** X18. Asked about a name the book does not have, [change], [phone] and
    [show-birthday] answer "This contact does not exist." and change
    nothing. *)
Theorem unknown_contact_answer book name :
  AddressBook.find book name = None ->
  (forall old new rest,
     commands.change_contact (name :: old :: new :: rest) book =
     ("This contact does not exist.", book)) /\
  (forall rest,
     commands.show_phone (name :: rest) book =
     ("This contact does not exist.", book)) /\
  (forall rest,
     commands.show_birthday (name :: rest) book =
     ("This contact does not exist.", book)).
Proof.
  intros H. unfold commands.change_contact, commands.show_phone,
    commands.show_birthday, commands.decorated. simpl. by rewrite H.
Qed.

Lemma unknown_contact_answer_witness :
  (forall old new rest,
     commands.change_contact ("Zed" :: old :: new :: rest) small_book =
     ("This contact does not exist.", small_book)) /\
  (forall rest,
     commands.show_phone ("Zed" :: rest) small_book =
     ("This contact does not exist.", small_book)) /\
  (forall rest,
     commands.show_birthday ("Zed" :: rest) small_book =
     ("This contact does not exist.", small_book)).
Proof. exact (unknown_contact_answer small_book "Zed" eq_refl). Defined.

Lemma Phone_init_error v e :
  Phone_init v = Raise e -> e = ValueError "Phone must contain exactly 10 digits.".
Proof.
  unfold Phone_init. destruct (negb _ || negb _); [by intros [= <-] | discriminate].
Qed.

Lemma Birthday_init_error v e :
  Birthday_init v = Raise e ->
  e = ValueError "Invalid date format. Use DD.MM.YYYY".
Proof.
  destruct v as [s|d]; [|discriminate].
  rewrite Birthday_init_text. destruct (strptime (strip s)); [discriminate|].
  by intros [= <-].
Qed.

(** X19. [add] and [add-birthday] for a name the book does not have file
    the new contact before they look at the phone or the date: when that
    is rejected the answer is the error, and the contact is in the book
    all the same, with no phone and no birthday. *)
Theorem rejected_value_still_creates_contact book name value_text rest r :
  AddressBook.find book name = None ->
  Record.init (PyStr name) = Ok r ->
  ((forall p, Phone_init (PyStr value_text) <> Ok p) ->
   value_text <> EmptyString ->
   commands.add_contact (name :: value_text :: rest) book =
   ("Value error: Phone must contain exactly 10 digits.",
    AddressBook.add_record book r)) /\
  ((forall b, Birthday_init (PyStr value_text) <> Ok b) ->
   commands.add_birthday (name :: value_text :: rest) book =
   ("Value error: Invalid date format. Use DD.MM.YYYY",
    AddressBook.add_record book r)) /\
  AddressBook.find (AddressBook.add_record book r) (strip name) = Some r /\
  Record.phones r = [] /\ Record.birthday r = None.
Proof.
  intros Hf Hi. pose proof (Record_init_Ok _ _ Hi) as [Er Hne].
  split; [|split; [|split]].
  - intros Hp Ht.
    unfold commands.add_contact, commands.decorated, commands.add_contact_body,
      commands.add_phone_and_return.
    rewrite Hf, Hi. destruct value_text; [done|]. cbn [commands.truthy].
    unfold Record.add_phone.
    destruct (Phone_init _) as [p|e] eqn:E; [by destruct (Hp p)|].
    apply Phone_init_error in E as ->. simpl. by rewrite store_added.
  - intros Hb.
    unfold commands.add_birthday, commands.decorated, commands.add_birthday_body,
      commands.add_birthday_and_return.
    rewrite Hf, Hi. unfold Record.add_birthday.
    destruct (Birthday_init _) as [b|e] eqn:E; [by destruct (Hb b)|].
    apply Birthday_init_error in E as ->. simpl. by rewrite store_added.
  - subst r. apply get_set_same.
  - by subst r.
Qed.

Lemma rejected_value_still_creates_contact_witness :
  commands.add_contact ["Cy"; "12"] small_book =
    ("Value error: Phone must contain exactly 10 digits.",
     AddressBook.add_record small_book (contact "Cy" None)) /\
  commands.add_birthday ["Cy"; "31.02.2000"] small_book =
    ("Value error: Invalid date format. Use DD.MM.YYYY",
     AddressBook.add_record small_book (contact "Cy" None)) /\
  AddressBook.find (AddressBook.add_record small_book (contact "Cy" None))
    (strip "Cy") = Some (contact "Cy" None).
Proof.
  split; [|split].
  - apply (proj1 (rejected_value_still_creates_contact small_book "Cy" "12" []
                    (contact "Cy" None) eq_refl eq_refl)).
    + intros p. discriminate.
    + discriminate.
  - apply (proj1 (proj2 (rejected_value_still_creates_contact small_book "Cy"
                           "31.02.2000" [] (contact "Cy" None) eq_refl eq_refl))).
    intros b. discriminate.
  - exact (proj1 (proj2 (proj2 (rejected_value_still_creates_contact small_book
                           "Cy" "12" [] (contact "Cy" None) eq_refl eq_refl)))).
Defined.

(** The phones of a contact, none when the book does not have it. *)
Lemma join_nonempty_phones (ps : list Phone) p (book : AddressBook.t) :
  match (ps ++ [p])%list with
  | [] => (commands.Return "No phones.", book)
  | x :: l => (commands.Return (join "; " (map value (x :: l))), book)
  end = (commands.Return (join "; " (map value (ps ++ [p]))), book).
Proof. by destruct ps. Qed.

(** X20. [add] with a name that is one word and a phone that is accepted
    answers "Contact added." when the book did not have the name and
    "Contact updated." when it had; after it the contact has the phones it
    had and the new one last, and [phone] prints them in that order. *)
Theorem add_then_phone book name phone rest p :
  strip name = name -> name <> EmptyString ->
  Phone_init (PyStr phone) = Ok p ->
  let old :=
    match AddressBook.find book name with
    | Some r => Record.phones r
    | None => []
    end in
  let book' := snd (commands.add_contact (name :: phone :: rest) book) in
  fst (commands.add_contact (name :: phone :: rest) book) =
    (match AddressBook.find book name with
     | Some _ => "Contact updated."
     | None => "Contact added."
     end) /\
  (exists r', AddressBook.find book' name = Some r' /\
              Record.phones r' = (old ++ [p])%list /\
              value (Record.name r') =
                match AddressBook.find book name with
                | Some r => value (Record.name r)
                | None => name
                end) /\
  commands.show_phone [name] book' =
    (join "; " (map value (old ++ [p])), book').
Proof.
  intros Es Hne Hp. cbv zeta.
  assert (Ht : commands.truthy phone = true).
  { destruct phone; [|done]. discriminate Hp. }
  unfold commands.add_contact, commands.decorated, commands.add_contact_body,
    commands.add_phone_and_return.
  rewrite Ht.
  destruct (AddressBook.find book name) as [r|] eqn:Hf.
  - unfold Record.add_phone. rewrite Hp. simpl.
    split; [done|]. split.
    + eexists. split; [apply find_store|]. done.
    + unfold commands.show_phone, commands.decorated, commands.show_phone_body.
      rewrite find_store. simpl Record.phones.
      by rewrite join_nonempty_phones.
  - rewrite (Record_init_token name Es Hne).
    unfold Record.add_phone. rewrite Hp. simpl.
    split; [done|]. split.
    + eexists. split; [apply find_store|]. done.
    + unfold commands.show_phone, commands.decorated, commands.show_phone_body.
      rewrite find_store. reflexivity.
Qed.

Lemma add_then_phone_witness :
  fst (commands.add_contact ["Bob"; "0987654321"] small_book) =
    "Contact updated." /\
  (exists r',
     AddressBook.find
       (snd (commands.add_contact ["Bob"; "0987654321"] small_book)) "Bob" =
       Some r' /\
     Record.phones r' = ([mkField "1234567890"] ++ [mkField "0987654321"])%list /\
     value (Record.name r') = "Bob") /\
  commands.show_phone ["Bob"]
    (snd (commands.add_contact ["Bob"; "0987654321"] small_book)) =
    ("1234567890; 0987654321",
     snd (commands.add_contact ["Bob"; "0987654321"] small_book)).
Proof.
  exact (add_then_phone small_book "Bob" "0987654321" [] (mkField "0987654321")
           eq_refl ltac:(discriminate) eq_refl).
Defined.

Lemma first_match_unique old ps i j :
  first_match old ps i -> first_match old ps j -> i = j.
Proof.
  intros [(p & Hp & Ep) Ni] [(q & Hq & Eq) Nj].
  destruct (Nat.lt_trichotomy i j) as [L|[E|L]]; [|done|].
  - rewrite (Nj i p L Hp) in Ep. discriminate Ep.
  - rewrite (Ni j q L Hq) in Eq. discriminate Eq.
Qed.

(** What [change] answers and does, by the arguments and the book. *)
Lemma change_contact_cases args book :
  (fst (commands.change_contact args book) <> "Phone updated." /\
   snd (commands.change_contact args book) = book) \/
  (exists name old new rest r i q,
     args = name :: old :: new :: rest /\
     AddressBook.find book name = Some r /\
     first_match (PyStr old) (Record.phones r) i /\
     Phone_init (PyStr new) = Ok q /\
     commands.change_contact args book =
     ("Phone updated.",
      commands.store book name
        (Record.set_phones r (<[i:=q]> (Record.phones r))))).
Proof.
  unfold commands.change_contact, commands.decorated, commands.change_contact_body.
  destruct args as [|name [|old [|new rest]]];
    try (left; split; [discriminate | reflexivity]).
  destruct (AddressBook.find book name) as [r|] eqn:Hf;
    [|left; split; [discriminate | reflexivity]].
  destruct (edit_phone_cases r (PyStr old) (PyStr new))
    as [->|[(i & e & _ & _ & ->)|(i & q & M & Eq & ->)]]; simpl.
  - left. split; [discriminate | by apply store_same].
  - left. split; [destruct e; discriminate | by apply store_same].
  - right. exists name, old, new, rest, r, i, q. auto.
Qed.

(** X21. [change] answers "Phone updated." exactly when the contact is in
    the book, has a phone with the old value and the new text makes a
    [Phone]; then the contact has the new phone in the place of the first
    phone that had the old value, and nothing else is changed. With any
    other answer the book is left as it was. *)
Theorem change_changes_only_on_success args book :
  (fst (commands.change_contact args book) = "Phone updated." ->
   exists name old new rest r i q,
     args = name :: old :: new :: rest /\
     AddressBook.find book name = Some r /\
     first_match (PyStr old) (Record.phones r) i /\
     Phone_init (PyStr new) = Ok q /\
     snd (commands.change_contact args book) =
     commands.store book name
       (Record.set_phones r (<[i:=q]> (Record.phones r)))) /\
  (fst (commands.change_contact args book) <> "Phone updated." ->
   snd (commands.change_contact args book) = book) /\
  (forall name old new rest r i q,
     args = name :: old :: new :: rest ->
     AddressBook.find book name = Some r ->
     first_match (PyStr old) (Record.phones r) i ->
     Phone_init (PyStr new) = Ok q ->
     commands.change_contact args book =
     ("Phone updated.",
      commands.store book name
        (Record.set_phones r (<[i:=q]> (Record.phones r))))).
Proof.
  destruct (change_contact_cases args book)
    as [[N E]|(name & old & new & rest & r & i & q & Ea & Hf & M & Eq & E)].
  - split; [intros H; contradiction|]. split; [done|].
    intros name old new rest r i q -> Hf M Eq. exfalso. apply N.
    unfold commands.change_contact, commands.decorated,
      commands.change_contact_body.
    rewrite Hf.
    destruct (edit_phone_cases r (PyStr old) (PyStr new))
      as [H|[(i' & e & _ & Ee & _)|(i' & q' & _ & _ & ->)]]; [| |done].
    + exfalso. unfold Record.edit_phone in H.
      rewrite (edit_phone_from_match _ _ _ _ _ _ M), Eq in H. discriminate H.
    + rewrite Eq in Ee. discriminate Ee.
  - rewrite E. simpl. split; [|split].
    + intros _. exists name, old, new, rest, r, i, q. auto.
    + intros H. contradiction.
    + intros name' old' new' rest' r' i' q' Ea' Hf' M' Eq'.
      rewrite Ea in Ea'. injection Ea' as <- <- <- <-.
      rewrite Hf in Hf'. injection Hf' as <-.
      rewrite Eq in Eq'. injection Eq' as <-.
      by rewrite (first_match_unique _ _ _ _ M M').
Qed.

Lemma change_changes_only_on_success_witness :
  fst (commands.change_contact ["Bob"; "1234567890"; "0987654321"] small_book) =
    "Phone updated." /\
  exists name old new rest r i q,
    ["Bob"; "1234567890"; "0987654321"] = name :: old :: new :: rest /\
    AddressBook.find small_book name = Some r /\
    first_match (PyStr old) (Record.phones r) i /\
    Phone_init (PyStr new) = Ok q /\
    snd (commands.change_contact ["Bob"; "1234567890"; "0987654321"] small_book) =
    commands.store small_book name
      (Record.set_phones r (<[i:=q]> (Record.phones r))).
Proof.
  assert (A : fst (commands.change_contact
                     ["Bob"; "1234567890"; "0987654321"] small_book) =
              "Phone updated.") by reflexivity.
  split; [exact A|].
  exact (proj1 (change_changes_only_on_success
                  ["Bob"; "1234567890"; "0987654321"] small_book) A).
Defined.

(** X22. [add-birthday] with a name that is one word and a date
    [DD.MM.YYYY] of the calendar answers "Birthday added.", after
    "Contact created. " when the book did not have the name; the phones of
    a contact the book had are kept. [show-birthday] then prints the date
    as [strftime] writes it: the text that was given when the year is 1000
    or later, and another text, with fewer digits for the year, when the
    year is before 1000. *)
Theorem add_birthday_then_show book name t dt rest :
  strip name = name -> name <> EmptyString ->
  DDMMYYYY_text t dt -> valid_date dt ->
  let book' := snd (commands.add_birthday (name :: t :: rest) book) in
  fst (commands.add_birthday (name :: t :: rest) book) =
    (match AddressBook.find book name with
     | Some _ => "Birthday added."
     | None => "Contact created. Birthday added."
     end) /\
  (exists r', AddressBook.find book' name = Some r' /\
              Record.birthday r' = Some (mkField dt) /\
              Record.phones r' =
                match AddressBook.find book name with
                | Some r => Record.phones r
                | None => []
                end) /\
  commands.show_birthday [name] book' = (libc_strftime dt "%d.%m.%Y", book') /\
  (1000 <= year dt -> commands.show_birthday [name] book' = (t, book')) /\
  (year dt < 1000 -> fst (commands.show_birthday [name] book') <> t).
Proof.
  intros Es Hne Ht V. cbv zeta.
  pose proof (Birthday_init_DDMMYYYY t dt Ht V) as Hb.
  destruct (libc_strftime_DDMMYYYY t dt Ht) as [R1 R2].
  assert (S : forall book0 r0,
            Record.birthday r0 = Some (mkField dt) ->
            commands.show_birthday [name] (commands.store book0 name r0) =
            (libc_strftime dt "%d.%m.%Y", commands.store book0 name r0)).
  { intros book0 r0 E0.
    unfold commands.show_birthday, commands.decorated,
      commands.show_birthday_body.
    rewrite find_store, E0. reflexivity. }
  unfold commands.add_birthday, commands.decorated, commands.add_birthday_body,
    commands.add_birthday_and_return, Record.add_birthday.
  rewrite Hb.
  destruct (AddressBook.find book name) as [r|] eqn:Hf.
  - simpl. split; [done|]. split.
    + eexists. split; [apply find_store|]. done.
    + rewrite S by done. split; [done|]. split.
      * intros H. by rewrite (R1 H).
      * intros H. exact (R2 H).
  - rewrite (Record_init_token name Es Hne).
    simpl. split; [done|]. split.
    + eexists. split; [apply find_store|]. done.
    + rewrite S by done. split; [done|]. split.
      * intros H. by rewrite (R1 H).
      * intros H. exact (R2 H).
Qed.

Lemma add_birthday_then_show_witness :
  fst (commands.add_birthday ["Al"; "29.02.2000"] small_book) =
    "Birthday added." /\
  (exists r',
     AddressBook.find
       (snd (commands.add_birthday ["Al"; "29.02.2000"] small_book)) "Al" =
       Some r' /\
     Record.birthday r' = Some (mkField (mkdate 2000 2 29)) /\
     Record.phones r' = []) /\
  commands.show_birthday ["Al"]
    (snd (commands.add_birthday ["Al"; "29.02.2000"] small_book)) =
    ("29.02.2000", snd (commands.add_birthday ["Al"; "29.02.2000"] small_book)).
Proof.
  destruct (add_birthday_then_show small_book "Al" "29.02.2000"
              (mkdate 2000 2 29) []) as (A & B & C & _).
  - reflexivity.
  - discriminate.
  - exists 2, 9, 0, 2, 2, 0, 0, 0.
    split; [repeat constructor; lia|]. repeat split.
  - repeat split; vm_compute; discriminate.
  - split; [exact A|]. split; [exact B|]. exact C.
Defined.

(** ** The invariant through the commands *)

Lemma store_invariant book key r :
  book_invariant book -> key = value (Record.name r) ->
  book_invariant (commands.store book key r).
Proof.
  intros [Hd Hn] ->. split.
  - by apply set_NoDup.
  - intros k r' H. apply set_In in H as [[-> ->]|H]; [done | by apply Hn].
Qed.

Lemma add_record_invariant book r :
  book_invariant book -> book_invariant (AddressBook.add_record book r).
Proof. intros I. by apply (store_invariant book _ r). Qed.

Lemma find_name book key r :
  book_invariant book -> AddressBook.find book key = Some r ->
  key = value (Record.name r).
Proof. intros [_ Hn] H. apply Hn. by apply get_In. Qed.

Lemma add_phone_name r v : Record.name (snd (Record.add_phone r v)) = Record.name r.
Proof. unfold Record.add_phone. by destruct (Phone_init v). Qed.

Lemma add_birthday_name r v :
  Record.name (snd (Record.add_birthday r v)) = Record.name r.
Proof. unfold Record.add_birthday. by destruct (Birthday_init v). Qed.

Lemma edit_phone_name r old new :
  Record.name (snd (Record.edit_phone r old new)) = Record.name r.
Proof.
  by destruct (edit_phone_cases r old new)
    as [->|[(i & e & _ & _ & ->)|(i & q & _ & _ & ->)]].
Qed.

Lemma add_phone_and_return_invariant book key r phone msg :
  book_invariant book -> key = value (Record.name r) ->
  book_invariant (snd (commands.add_phone_and_return book key r phone msg)).
Proof.
  intros I E. unfold commands.add_phone_and_return.
  destruct (commands.truthy phone); [|done].
  pose proof (add_phone_name r (PyStr phone)) as En.
  destruct (Record.add_phone r (PyStr phone)) as [[[]|e] r']; simpl in *;
    apply store_invariant; congruence.
Qed.

Lemma add_birthday_and_return_invariant book key r bd prefix :
  book_invariant book -> key = value (Record.name r) ->
  book_invariant (snd (commands.add_birthday_and_return book key r bd prefix)).
Proof.
  intros I E. unfold commands.add_birthday_and_return.
  pose proof (add_birthday_name r (PyStr bd)) as En.
  destruct (Record.add_birthday r (PyStr bd)) as [[[]|e] r']; simpl in *;
    apply store_invariant; congruence.
Qed.

Lemma handlers_keep_invariant today f args book :
  In f [commands.add_contact_body; commands.change_contact_body;
        commands.show_phone_body; commands.show_all_body;
        commands.add_birthday_body; commands.show_birthday_body;
        commands.birthdays_body today] ->
  book_invariant book ->
  book_invariant (snd (commands.decorated f args book)).
Proof.
  intros Hf I.
  assert (E : snd (commands.decorated f args book) = snd (f args book))
    by (unfold commands.decorated; by destruct (f args book)).
  rewrite E. clear E. simpl in Hf.
  repeat (destruct Hf as [<-|Hf]); [..|destruct Hf].
  - unfold commands.add_contact_body.
    destruct args as [|a [|b args']]; try done.
    destruct (AddressBook.find book a) as [r|] eqn:F.
    + apply add_phone_and_return_invariant; [done | by eapply find_name].
    + destruct (Record.init _) as [r|e]; [|done].
      apply add_phone_and_return_invariant; [by apply add_record_invariant | done].
  - unfold commands.change_contact_body.
    destruct args as [|a [|b [|c args']]]; try done.
    destruct (AddressBook.find book a) as [r|] eqn:F; [|done].
    pose proof (edit_phone_name r (PyStr b) (PyStr c)) as En.
    pose proof (find_name _ _ _ I F) as Ek.
    destruct (Record.edit_phone r (PyStr b) (PyStr c)) as [[[]|e] r'];
      simpl in *; apply store_invariant; congruence.
  - unfold commands.show_phone_body.
    destruct args as [|a args']; try done.
    destruct (AddressBook.find book a); [|done]. by destruct (Record.phones _).
  - unfold commands.show_all_body. by destruct (AddressBook.data book).
  - unfold commands.add_birthday_body.
    destruct args as [|a [|b args']]; try done.
    destruct (AddressBook.find book a) as [r|] eqn:F.
    + apply add_birthday_and_return_invariant; [done | by eapply find_name].
    + destruct (Record.init _) as [r|e]; [|done].
      apply add_birthday_and_return_invariant;
        [by apply add_record_invariant | done].
  - unfold commands.show_birthday_body.
    destruct args as [|a args']; try done.
    destruct (AddressBook.find book a); [|done]. by destruct (Record.birthday _).
  - unfold commands.birthdays_body.
    by destruct (AddressBook.get_upcoming_birthdays _ _ _) as [[|u l]|e].
Qed.

Lemma commands_keep_invariant_all today args book :
  book_invariant book ->
  book_invariant (snd (commands.add_contact args book)) /\
  book_invariant (snd (commands.change_contact args book)) /\
  book_invariant (snd (commands.show_phone args book)) /\
  book_invariant (snd (commands.show_all args book)) /\
  book_invariant (snd (commands.add_birthday args book)) /\
  book_invariant (snd (commands.show_birthday args book)) /\
  book_invariant (snd (commands.birthdays today args book)).
Proof.
  intros I.
  repeat split; try (apply (handlers_keep_invariant today); [simpl; tauto | done]);
    apply (handlers_keep_invariant today _ args book); simpl; tauto.
Qed.

(** X23. Every command, with any arguments, leaves a book that files each
    record under its name, one record a name, when it was given one. *)
Theorem commands_keep_book_invariant today args book :
  book_invariant book ->
  book_invariant (snd (commands.add_contact args book)) /\
  book_invariant (snd (commands.change_contact args book)) /\
  book_invariant (snd (commands.show_phone args book)) /\
  book_invariant (snd (commands.show_all args book)) /\
  book_invariant (snd (commands.add_birthday args book)) /\
  book_invariant (snd (commands.show_birthday args book)) /\
  book_invariant (snd (commands.birthdays today args book)).
Proof. apply commands_keep_invariant_all. Qed.

Lemma commands_keep_book_invariant_witness :
  book_invariant (snd (commands.add_contact ["Cy"; "12"] small_book)) /\
  book_invariant (snd (commands.change_contact ["Bob"; "1234567890"; "1"] small_book)) /\
  book_invariant (snd (commands.show_phone ["Bob"] small_book)) /\
  book_invariant (snd (commands.show_all [] small_book)) /\
  book_invariant (snd (commands.add_birthday ["Al"; "01.01.2001"] small_book)) /\
  book_invariant (snd (commands.show_birthday ["Al"] small_book)) /\
  book_invariant (snd (commands.birthdays june_today [] small_book)).
Proof.
  assert (I : book_invariant small_book) by concrete_invariant.
  pose proof (commands_keep_book_invariant june_today) as K.
  split; [exact (proj1 (K ["Cy"; "12"] small_book I))|].
  split; [exact (proj1 (proj2 (K ["Bob"; "1234567890"; "1"] small_book I)))|].
  split; [exact (proj1 (proj2 (proj2 (K ["Bob"] small_book I))))|].
  split; [exact (proj1 (proj2 (proj2 (proj2 (K [] small_book I)))))|].
  split; [exact (proj1 (proj2 (proj2 (proj2 (proj2
                   (K ["Al"; "01.01.2001"] small_book I))))))|].
  split; [exact (proj1 (proj2 (proj2 (proj2 (proj2 (proj2
                   (K ["Al"] small_book I)))))))|].
  exact (proj2 (proj2 (proj2 (proj2 (proj2 (proj2 (K [] small_book I))))))).
Defined.

(** ** The lines of [birthdays] *)

Lemma get_group_add g u d :
  pydict.get d (commands.group_add g u) =
  if String.eqb (congratulation_date u) d
  then Some (match pydict.get d g with
             | Some names => names ++ [upcoming_name u]
             | None => [upcoming_name u]
             end)%list
  else pydict.get d g.
Proof.
  unfold commands.group_add.
  destruct (String.eqb_spec (congratulation_date u) d) as [->|N].
  - destruct (pydict.get d g); by rewrite get_set_same.
  - destruct (pydict.get (congratulation_date u) g);
      by rewrite get_set_other by done.
Qed.

Lemma get_group_fold l : forall g d,
  pydict.get d (fold_left commands.group_add l g) =
  match pydict.get d g, names_on d l with
  | None, [] => None
  | None, ns => Some ns
  | Some old, ns => Some (old ++ ns)%list
  end.
Proof.
  unfold names_on. induction l as [|u l IH]; intros g d; simpl.
  - destruct (pydict.get d g); [by rewrite app_nil_r | done].
  - rewrite IH, get_group_add.
    destruct (String.eqb (congratulation_date u) d); simpl; [|done].
    destruct (pydict.get d g); [by rewrite <- app_assoc | done].
Qed.

Lemma keys_group_add g u :
  pydict.keys (commands.group_add g u) =
  match pydict.get (congratulation_date u) g with
  | Some _ => pydict.keys g
  | None => (pydict.keys g ++ [congratulation_date u])%list
  end.
Proof.
  unfold commands.group_add.
  destruct (pydict.get (congratulation_date u) g) eqn:G;
    rewrite set_keys; unfold pydict.contains; by rewrite G.
Qed.

Lemma string_leb_neq_ltb a b :
  String.leb a b = true -> a <> b -> String.ltb a b = true.
Proof.
  unfold String.leb, String.ltb. destruct (String.compare a b) eqn:E; try done.
  intros _ N. apply String.compare_eq_iff in E. contradiction.
Qed.

Lemma sorted_snoc (l : list string) d :
  StronglySorted (fun a b => String.ltb a b = true) l ->
  (forall k, In k l -> String.ltb k d = true) ->
  StronglySorted (fun a b => String.ltb a b = true) (l ++ [d]).
Proof.
  induction 1 as [|a l S IH F]; intros H; simpl.
  - repeat constructor.
  - constructor; [apply IH; intros k Hk; apply H; by right|].
    apply Forall_app. split; [done|]. constructor; [|constructor].
    apply H. by left.
Qed.

Lemma keys_group_fold_sorted l : forall g,
  StronglySorted (fun a b => String.ltb a b = true) (pydict.keys g) ->
  (forall k u, In k (pydict.keys g) -> In u l ->
     String.leb k (congratulation_date u) = true) ->
  StronglySorted (key_le congratulation_date) l ->
  StronglySorted (fun a b => String.ltb a b = true)
    (pydict.keys (fold_left commands.group_add l g)).
Proof.
  induction l as [|u l IH]; intros g Sg Hg Sl; simpl; [done|].
  apply StronglySorted_inv in Sl as [Sl Fu].
  apply IH; [| |done]; rewrite keys_group_add;
    destruct (pydict.get (congratulation_date u) g) eqn:G.
  - done.
  - apply sorted_snoc; [done|]. intros k Hk.
    apply string_leb_neq_ltb; [apply Hg; [done | by left]|].
    intros ->. by apply get_None in G.
  - intros k u' Hk Hu'. apply Hg; [done | by right].
  - intros k u' Hk Hu'. apply in_app_or in Hk as [Hk|[<-|[]]].
    + apply Hg; [done | by right].
    + by apply (proj1 (List.Forall_forall _ _) Fu).
Qed.

(** X24. [birthdays] prints one line for each congratulation date of the
    list of the next 7 days, the dates in rising order, and on the line of
    a date the names of that date in the order of the list; with an empty
    list it says that there are no birthdays. *)
Theorem birthdays_groups_by_date book today args res :
  AddressBook.get_upcoming_birthdays book today (Some 7) = Ok res ->
  commands.birthdays today args book =
    (match res with
     | [] => "No birthdays in the next 7 days."
     | _ => join commands.nl (map commands.group_line (commands.group res))
     end, book) /\
  (forall d,
     pydict.get d (commands.group res) =
     match names_on d res with
     | [] => None
     | ns => Some ns
     end) /\
  StronglySorted (fun a b => String.ltb a b = true)
    (pydict.keys (commands.group res)).
Proof.
  intros H. split; [|split].
  - unfold commands.birthdays, commands.decorated, commands.birthdays_body.
    rewrite H. by destruct res.
  - intros d. unfold commands.group. by rewrite get_group_fold.
  - apply keys_group_fold_sorted; [constructor | by intros k u [] |].
    apply get_upcoming_birthdays_Ok in H as (end_day & ls & _ & _ & ->).
    apply sort_by_sorted.
Qed.

Lemma birthdays_groups_by_date_witness :
  commands.birthdays june_today [] week_book =
    (join commands.nl (map commands.group_line (commands.group week_result)),
     week_book) /\
  (forall d,
     pydict.get d (commands.group week_result) =
     match names_on d week_result with
     | [] => None
     | ns => Some ns
     end) /\
  StronglySorted (fun a b => String.ltb a b = true)
    (pydict.keys (commands.group week_result)).
Proof.
  exact (birthdays_groups_by_date week_book june_today [] week_result eq_refl).
Defined.

(** ** The loop of [main] *)

Lemma split1_from_cur cur s :
  cur <> EmptyString -> commands.split1_from cur s <> [].
Proof.
  revert cur. induction s as [|c s IH]; intros cur H; simpl.
  - by destruct cur.
  - destruct (isspace_char c).
    + by destruct cur.
    + apply IH. by destruct cur.
Qed.

Lemma strip_head s :
  strip s = EmptyString \/
  exists c r, strip s = String c r /\ isspace_char c = false.
Proof.
  unfold strip. destruct (lstrip_head s) as [->|(c & r & -> & Ec)]; [by left|].
  right. destruct (rstrip_head c r Ec) as (r' & ->). eauto.
Qed.

Lemma split1_strip s :
  strip s <> EmptyString -> commands.split1 (strip s) <> [].
Proof.
  intros H. destruct (strip_head s) as [E|(c & r & E & Ec)]; [done|].
  rewrite E. unfold commands.split1. simpl. rewrite Ec.
  by apply split1_from_cur.
Qed.

Lemma main_step_Ok today book s events book' go :
  commands.main_step today book s = Ok (events, book', go) ->
  (go = false ->
   events = [commands.Saved book; commands.Printed "Data saved. Good bye!"] /\
   book' = book) /\
  (go = true -> forall b, ~ In (commands.Saved b) events) /\
  (book_invariant book -> book_invariant book').
Proof.
  unfold commands.main_step.
  destruct (commands.split1 (strip s)) as [|command args]; [discriminate|].
  set (args' := match args with a :: _ => commands.split a | [] => [] end).
  pose proof (commands_keep_invariant_all today args' book) as K.
  repeat match goal with
         | |- context [if ?c then _ else _] => destruct c
         end;
    intros [= <- <- <-];
    (split; [intros E; first [discriminate E | auto]|]);
    (split;
     [intros E;
      first [discriminate E
            | intros b [Hb|Hb]; [discriminate Hb | destruct Hb]]|]);
    intros I; first [exact I | by apply K].
Qed.

(** X25. A line that is blank, empty or white space only, makes the turn
    of the loop raise the [ValueError] of the unpacking, outside every
    handler; every other line is handled without an exception. *)
Theorem blank_line_raises today book user_input :
  (strip user_input = EmptyString ->
   commands.main_step today book user_input =
   Raise (ValueError "not enough values to unpack (expected at least 1, got 0)")) /\
  (strip user_input <> EmptyString ->
   exists events book' go,
     commands.main_step today book user_input = Ok (events, book', go)).
Proof.
  unfold commands.main_step. split.
  - by intros ->.
  - intros H. apply split1_strip in H.
    destruct (commands.split1 (strip user_input)) as [|command args]; [done|].
    repeat match goal with
           | |- context [if ?c then _ else _] => destruct c
           end; eauto.
Qed.

Lemma blank_line_raises_witness :
  commands.main_step june_today small_book "   " =
    Raise (ValueError "not enough values to unpack (expected at least 1, got 0)") /\
  exists events book' go,
    commands.main_step june_today small_book " phone Bob" = Ok (events, book', go).
Proof.
  split.
  - exact (proj1 (blank_line_raises june_today small_book "   ") eq_refl).
  - apply (proj2 (blank_line_raises june_today small_book " phone Bob")).
    discriminate.
Defined.

(** X26. A run of the loop that ends by [close] or [exit] hands the book
    to [save_data] once, as its last act but the farewell, and the book it
    hands over is the one the lines before left. A run that ends in
    another way, by a blank line or with no line left, saves nothing. And
    a book that files each record under its name still does so at the end
    of every run. *)
Theorem session_saves_on_close_only today inputs : forall book events book' e,
  commands.main_loop today book inputs = (events, book', e) ->
  (e = commands.Closed ->
   exists before,
     events = (before ++ [commands.Saved book';
                          commands.Printed "Data saved. Good bye!"])%list /\
     forall b, ~ In (commands.Saved b) before) /\
  (e <> commands.Closed -> forall b, ~ In (commands.Saved b) events) /\
  (book_invariant book -> book_invariant book').
Proof.
  induction inputs as [|s inputs IH]; intros book events book' e; simpl.
  - intros [= <- <- <-]. split; [done|]. split; [by intros _ b []|done].
  - destruct (commands.main_step today book s) as [[[ev b1] go]|ex] eqn:S.
    2: { intros [= <- <- <-]. split; [done|]. split; [by intros _ b []|done]. }
    destruct (main_step_Ok _ _ _ _ _ _ S) as (Hstop & Hgo & Hinv).
    destruct go.
    + destruct (commands.main_loop today b1 inputs) as [[ev' b2] e'] eqn:L.
      intros [= <- <- <-].
      destruct (IH _ _ _ _ L) as (IHc & IHn & IHi).
      split; [|split].
      * intros Ec. destruct (IHc Ec) as (before & -> & Hb).
        exists (ev ++ before)%list. split; [by rewrite app_assoc|].
        intros b Hin. apply in_app_or in Hin as [Hin|Hin];
          [by apply (Hgo eq_refl b) | by apply (Hb b)].
      * intros Ne b Hin. apply in_app_or in Hin as [Hin|Hin];
          [by apply (Hgo eq_refl b) | by apply (IHn Ne b)].
      * intros I. apply IHi. by apply Hinv.
    + intros [= <- <- <-]. destruct (Hstop eq_refl) as [-> ->].
      split; [|split; [done|done]].
      intros _. exists []. split; [done|]. by intros b [].
Qed.

Lemma session_saves_on_close_only_witness :
  (exists before,
     fst (fst (commands.main_loop june_today AddressBook.empty kept_session)) =
       (before ++ [commands.Saved
                     (snd (fst (commands.main_loop june_today AddressBook.empty
                                  kept_session)));
                   commands.Printed "Data saved. Good bye!"])%list /\
     forall b, ~ In (commands.Saved b) before) /\
  (forall b,
     ~ In (commands.Saved b)
         (fst (fst (commands.main_loop june_today AddressBook.empty lost_session)))) /\
  book_invariant
    (snd (fst (commands.main_loop june_today AddressBook.empty kept_session))).
Proof.
  split; [|split].
  - refine (proj1 (session_saves_on_close_only june_today kept_session
                     AddressBook.empty _ _ commands.Closed _) eq_refl).
    reflexivity.
  - refine (proj1 (proj2 (session_saves_on_close_only june_today lost_session
                     AddressBook.empty _ _
                     (commands.Crashed
                        (ValueError
                           "not enough values to unpack (expected at least 1, got 0)"))
                     _)) _).
    + reflexivity.
    + discriminate.
  - refine (proj2 (proj2 (session_saves_on_close_only june_today kept_session
                     AddressBook.empty _ _ commands.Closed _)) _).
    + reflexivity.
    + split; [constructor | by intros k r []].
Defined.

(** ** The text of a birthday *)

(** X27. A text in the form [DD.MM.YYYY] that names a date of the calendar
    makes a [Birthday] holding that date. From the year 1000 on the date
    is rendered as the same text, by [strftime] and in the line of the
    record; before the year 1000 it is rendered as another text. A text
    in that form that names no date of the calendar, and every text
    [strptime] rejects, raises the [ValueError] with the message of the
    birthday, and a [Birthday] made of a text holds a date of the
    calendar. *)
Theorem birthday_text_rendered_back :
  (forall t dt,
     DDMMYYYY_text t dt -> valid_date dt ->
     Birthday_init (PyStr t) = Ok (mkField dt) /\
     (1000 <= year dt ->
      libc_strftime dt "%d.%m.%Y" = t /\
      forall r, Record.birthday r = Some (mkField dt) ->
        exists phones_txt,
          Record.str r =
          ("Contact name: " ++ value (Record.name r) ++ ", phones: " ++
           phones_txt ++ ", birthday: " ++ t)%string) /\
     (year dt < 1000 -> libc_strftime dt "%d.%m.%Y" <> t)) /\
  (forall t dt,
     DDMMYYYY_text t dt -> ~ valid_date dt ->
     Birthday_init (PyStr t) =
     Raise (ValueError "Invalid date format. Use DD.MM.YYYY")) /\
  (forall t e,
     strptime (strip t) = Raise e ->
     Birthday_init (PyStr t) =
     Raise (ValueError "Invalid date format. Use DD.MM.YYYY")) /\
  (forall t,
     (exists b, Birthday_init (PyStr t) = Ok b /\ valid_date (value b)) \/
     Birthday_init (PyStr t) =
     Raise (ValueError "Invalid date format. Use DD.MM.YYYY")).
Proof.
  split; [|split; [|split]].
  - intros t dt Ht V.
    destruct (libc_strftime_DDMMYYYY t dt Ht) as [R1 R2].
    split; [by apply Birthday_init_DDMMYYYY|]. split; [|exact R2].
    intros Y. split; [exact (R1 Y)|].
    intros r Hr. unfold Record.str. rewrite Hr. simpl value.
    rewrite (R1 Y). eauto.
  - intros t dt Ht N.
    destruct (DDMMYYYY_text_facts t dt Ht) as (Es & _ & Ep & En).
    rewrite Birthday_init_text, Es.
    destruct (decide (1 <= day dt <= 31 /\ 1 <= month dt <= 12)) as [R|R].
    + rewrite (Ep R).
      destruct (date_new (year dt) (month dt) (day dt)) as [d'|e] eqn:E; [|done].
      exfalso. apply N. apply date_new_Ok in E as [-> V].
      by destruct dt.
    + by destruct (En R) as (msg & ->).
  - intros t e E. by rewrite Birthday_init_text, E.
  - intros t. rewrite Birthday_init_text.
    destruct (strptime (strip t)) as [dt|e] eqn:E; [left | by right].
    exists (mkField dt). split; [done|]. simpl.
    unfold strptime in E.
    destruct (re_match (strip t)) as [[[[d m'] y] rest]|]; [|done].
    destruct rest; [|done]. by apply date_new_Ok in E as [_ V].
Qed.

Lemma birthday_text_rendered_back_witness :
  (Birthday_init (PyStr "15.06.1990") = Ok (mkField (mkdate 1990 6 15)) /\
   libc_strftime (mkdate 1990 6 15) "%d.%m.%Y" = "15.06.1990" /\
   forall r, Record.birthday r = Some (mkField (mkdate 1990 6 15)) ->
     exists phones_txt,
       Record.str r =
       ("Contact name: " ++ value (Record.name r) ++ ", phones: " ++
        phones_txt ++ ", birthday: " ++ "15.06.1990")%string) /\
  libc_strftime early_date "%d.%m.%Y" <> early_text /\
  Birthday_init (PyStr "31.04.2024") =
    Raise (ValueError "Invalid date format. Use DD.MM.YYYY") /\
  Birthday_init (PyStr "tomorrow") =
    Raise (ValueError "Invalid date format. Use DD.MM.YYYY").
Proof.
  split; [|split; [|split]].
  - destruct (proj1 birthday_text_rendered_back "15.06.1990" (mkdate 1990 6 15))
      as (A & B & _).
    + exists 1, 5, 0, 6, 1, 9, 9, 0.
      split; [repeat constructor; lia|]. repeat split.
    + repeat split; vm_compute; discriminate.
    + split; [exact A|]. apply B. simpl. lia.
  - destruct (proj1 birthday_text_rendered_back early_text early_date)
      as (_ & _ & C).
    + exists 0, 1, 0, 1, 0, 9, 9, 9.
      split; [repeat constructor; lia|]. repeat split.
    + repeat split; vm_compute; discriminate.
    + apply C. simpl. lia.
  - apply (proj1 (proj2 birthday_text_rendered_back) "31.04.2024" (mkdate 2024 4 31)).
    + exists 3, 1, 0, 4, 2, 0, 2, 4.
      split; [repeat constructor; lia|]. repeat split.
    + intros (_ & _ & _ & H). vm_compute in H. apply H. reflexivity.
  - apply (proj1 (proj2 (proj2 birthday_text_rendered_back)) "tomorrow"
             (ValueError "time data does not match format '%d.%m.%Y'")).
    reflexivity.
Defined.
